(** * Flight-control core of [drone_motor_control.c]: model and properties

    The control loop of the C source is embedded as pure functions over an
    explicit [State] record holding the file-scope globals ([imu], [gps],
    [baro], [obstacle], [cmd], [motors] and the nine PIDs).

    - C [float] is IEEE-754 binary32 and C [double] is binary64, both taken
      from the standard library's [SpecFloat] (round to nearest, ties to
      even, one rounding per operation).
    - [uint16_t], [uint8_t] and [int16_t] are [Z] with the wrap-around
      written out at every assignment.
    - [sinf], [cosf] and [atan2f] belong to the C math library, not to this
      program: they are an interface ([LibM]).
    - A float-to-integer conversion whose value does not fit the target type
      has no defined result in C; what it leaves behind is an interface too
      ([FloatCast]), so that every theorem holds whatever the platform does.
    - [wrap_360] is a pair of [while] loops that need not terminate on large
      or infinite arguments: it takes fuel and returns [None] when it runs
      out, and so does everything that calls it. *)

From Stdlib Require Import ZArith List Bool Lia.
From Stdlib Require Import Floats.SpecFloat.
Import ListNotations.

Local Open Scope Z_scope.

(** ** Floating-point formats *)

Definition is_nan (x : spec_float) : bool :=
  match x with S754_nan => true | _ => false end.

Definition is_finite (x : spec_float) : bool :=
  match x with S754_zero _ | S754_finite _ _ _ => true | _ => false end.

(** Integer part of a float, rounded toward zero; [None] for infinities
    and NaN. *)
Definition trunc (x : spec_float) : option Z :=
  match x with
  | S754_zero _ => Some 0
  | S754_finite s m e =>
      let n := if 0 <=? e then Z.shiftl (Zpos m) e else Z.shiftr (Zpos m) (- e) in
      Some (cond_Zopp s n)
  | _ => None
  end.

Module F32.
Definition prec : Z := 24.
Definition emax : Z := 128.
Definition t := spec_float.

Definition add : t -> t -> t := SFadd prec emax.
Definition sub : t -> t -> t := SFsub prec emax.
Definition mul : t -> t -> t := SFmul prec emax.
Definition div : t -> t -> t := SFdiv prec emax.
Definition sqrt : t -> t := SFsqrt prec emax.
Definition opp : t -> t := SFopp.
Definition abs : t -> t := SFabs.
Definition ltb : t -> t -> bool := SFltb.
Definition leb : t -> t -> bool := SFleb.
Definition valid : t -> bool := valid_binary prec emax.

(** Conversion of an integer (exact up to 2^24 in magnitude). *)
Definition of_Z (z : Z) : t := binary_normalize prec emax z 0 false.

(** Rounding of a value of a wider format, as in [float x = <double>]. *)
Definition round (x : spec_float) : t :=
    match x with
    | S754_finite s m e => binary_round prec emax s m e
    | _ => x
    end.

(** The decimal literal [n/d], correctly rounded. *)
Definition lit (n d : Z) : t := div (of_Z n) (of_Z d).

Definition zero : t := S754_zero false.
End F32.

Module F64.
Definition prec : Z := 53.
Definition emax : Z := 1024.
Definition t := spec_float.

Definition sub : t -> t -> t := SFsub prec emax.
Definition mul : t -> t -> t := SFmul prec emax.
Definition div : t -> t -> t := SFdiv prec emax.

(** Promotion of a [float] operand; the value is unchanged, the mantissa
      is realigned to 53 bits. *)
Definition of_f32 (x : F32.t) : t :=
    match x with
    | S754_finite s m e => binary_round prec emax s m e
    | _ => x
    end.

Definition zero : t := S754_zero false.
End F64.

Declare Scope f32_scope.
Delimit Scope f32_scope with f32.
Infix "+" := F32.add : f32_scope.
Infix "-" := F32.sub : f32_scope.
Infix "*" := F32.mul : f32_scope.
Infix "/" := F32.div : f32_scope.
Notation "- x" := (F32.opp x) : f32_scope.
Infix "<?" := F32.ltb : f32_scope.
Infix "<=?" := F32.leb : f32_scope.

(** ** Constants of the source *)

Definition MOTOR_MIN : Z := 1000.
Definition MOTOR_MAX : Z := 2000.

Definition MODE_MANUAL : Z := 0.
Definition MODE_STABILIZE : Z := 1.
Definition MODE_ALTITUDE_HOLD : Z := 2.
Definition MODE_POSITION_HOLD : Z := 3.
Definition MODE_AUTO : Z := 4.
Definition MODE_RTH : Z := 5.

Definition GYRO_SCALE : F32.t := Eval vm_compute in F32.of_Z 131.
Definition ACCEL_SCALE : F32.t := Eval vm_compute in F32.of_Z 16384.

Definition LOOP_FREQ : Z := 400.
(** [#define DT (1.0f / LOOP_FREQ)] *)
Definition DT : F32.t := Eval vm_compute in F32.div (F32.of_Z 1) (F32.of_Z LOOP_FREQ).

Definition MAX_TILT_ANGLE : F32.t := Eval vm_compute in F32.of_Z 45.
Definition RTH_ALTITUDE : F32.t := Eval vm_compute in F32.of_Z 20.
Definition OBSTACLE_DISTANCE : F32.t := Eval vm_compute in F32.of_Z 2.

(** [M_PI] of [math.h], the binary64 value 0x400921FB54442D18. *)
Definition M_PI : F64.t := S754_finite false 7074237752028440 (-51).

Definition PID_ROLL_KP : F32.t := Eval vm_compute in F32.lit 15 10.
Definition PID_ROLL_KI : F32.t := Eval vm_compute in F32.lit 2 100.
Definition PID_ROLL_KD : F32.t := Eval vm_compute in F32.lit 8 10.
Definition PID_PITCH_KP : F32.t := Eval vm_compute in F32.lit 15 10.
Definition PID_PITCH_KI : F32.t := Eval vm_compute in F32.lit 2 100.
Definition PID_PITCH_KD : F32.t := Eval vm_compute in F32.lit 8 10.
Definition PID_YAW_KP : F32.t := Eval vm_compute in F32.of_Z 2.
Definition PID_YAW_KI : F32.t := Eval vm_compute in F32.lit 5 100.
Definition PID_YAW_KD : F32.t := Eval vm_compute in F32.lit 5 10.
Definition PID_ALT_KP : F32.t := Eval vm_compute in F32.of_Z 3.
Definition PID_ALT_KI : F32.t := Eval vm_compute in F32.lit 5 10.
Definition PID_ALT_KD : F32.t := Eval vm_compute in F32.lit 15 10.
Definition PID_POS_KP : F32.t := Eval vm_compute in F32.of_Z 1.
Definition PID_POS_KI : F32.t := Eval vm_compute in F32.lit 1 10.
Definition PID_POS_KD : F32.t := Eval vm_compute in F32.lit 5 10.

(** ** Integer types of the source *)

Definition to_uint8 (z : Z) : Z := z mod 256.
Definition to_uint16 (z : Z) : Z := z mod 65536.
Definition to_int16 (z : Z) : Z := (z + 32768) mod 65536 - 32768.

(** What a conversion from [float] to an integer type yields when the
    integer part of the value is not representable, or when the value is an
    infinity or NaN. *)
Class FloatCast := {
  undef_uint16 : F32.t -> Z;
  undef_int16 : F32.t -> Z
}.

(** The functions of [math.h] the source calls, [sqrtf] apart, which is
    the correctly rounded [F32.sqrt]. *)
Class LibM := {
  sinf : F32.t -> F32.t;
  cosf : F32.t -> F32.t;
  atan2f : F32.t -> F32.t -> F32.t
}.

Section Conversions.
Context `{FloatCast}.

(** Implicit conversion of [uint16_t x = <float>]. *)
Definition float_to_uint16 (x : F32.t) : Z :=
    match trunc x with
    | Some n => if (0 <=? n) && (n <? 65536) then n else to_uint16 (undef_uint16 x)
    | None => to_uint16 (undef_uint16 x)
    end.

(** The cast [(int16_t)<float>]. *)
Definition float_to_int16 (x : F32.t) : Z :=
    match trunc x with
    | Some n => if (-32768 <=? n) && (n <? 32768) then n else to_int16 (undef_int16 x)
    | None => to_int16 (undef_int16 x)
    end.
End Conversions.

(** ** Data structures *)

Record Vector3f := { vx : F32.t; vy : F32.t; vz : F32.t }.

Record Euler := { roll : F32.t; pitch : F32.t; yaw : F32.t }.

Record GPSPosition := { lat : F64.t; lon : F64.t; alt : F32.t }.

Record PID := {
  kp : F32.t; ki : F32.t; kd : F32.t;
  error : F32.t; prev_error : F32.t; integral : F32.t;
  output : F32.t;
  max_integral : F32.t
}.

Record MotorOutputs := {
  m1 : Z; m2 : Z; m3 : Z; m4 : Z; m5 : Z; m6 : Z; m7 : Z; m8 : Z
}.

Record IMUData := {
  gyro : Vector3f;
  accel : Vector3f;
  angles : Euler;
  temperature : F32.t;
  timestamp : Z
}.

Record GPSData := {
  position : GPSPosition;
  ground_speed : F32.t;
  heading : F32.t;
  num_sats : Z;
  fix_valid : bool
}.

Record BaroData := {
  altitude : F32.t;
  vertical_speed : F32.t;
  pressure : F32.t
}.

Record ObstacleData := {
  distance : F32.t;
  angle : F32.t;
  detected : bool
}.

Record FlightCommand := {
  throttle : Z;
  setpoint : Euler;
  armed : bool;
  flight_mode : Z;
  target_altitude : F32.t;
  target_position : GPSPosition;
  home_position : GPSPosition
}.

(** The file-scope variables of the source. *)
Record State := {
  imu : IMUData;
  gps : GPSData;
  baro : BaroData;
  obstacle : ObstacleData;
  cmd : FlightCommand;
  motors : MotorOutputs;
  pid_roll : PID; pid_pitch : PID; pid_yaw : PID;
  pid_altitude : PID; pid_velocity_z : PID;
  pid_pos_n : PID; pid_pos_e : PID;
  pid_vel_n : PID; pid_vel_e : PID
}.

(** *** Field assignments *)

Definition set_roll (v : F32.t) (a : Euler) : Euler :=
  {| roll := v; pitch := pitch a; yaw := yaw a |}.
Definition set_pitch (v : F32.t) (a : Euler) : Euler :=
  {| roll := roll a; pitch := v; yaw := yaw a |}.
Definition set_yaw (v : F32.t) (a : Euler) : Euler :=
  {| roll := roll a; pitch := pitch a; yaw := v |}.

Definition set_lat (v : F64.t) (p : GPSPosition) : GPSPosition :=
  {| lat := v; lon := lon p; alt := alt p |}.
Definition set_lon (v : F64.t) (p : GPSPosition) : GPSPosition :=
  {| lat := lat p; lon := v; alt := alt p |}.
Definition set_alt (v : F32.t) (p : GPSPosition) : GPSPosition :=
  {| lat := lat p; lon := lon p; alt := v |}.

Definition set_gyro (v : Vector3f) (d : IMUData) : IMUData :=
  {| gyro := v; accel := accel d; angles := angles d;
     temperature := temperature d; timestamp := timestamp d |}.
Definition set_accel (v : Vector3f) (d : IMUData) : IMUData :=
  {| gyro := gyro d; accel := v; angles := angles d;
     temperature := temperature d; timestamp := timestamp d |}.
Definition set_angles (v : Euler) (d : IMUData) : IMUData :=
  {| gyro := gyro d; accel := accel d; angles := v;
     temperature := temperature d; timestamp := timestamp d |}.

Definition set_throttle (v : Z) (c : FlightCommand) : FlightCommand :=
  {| throttle := v; setpoint := setpoint c; armed := armed c;
     flight_mode := flight_mode c; target_altitude := target_altitude c;
     target_position := target_position c; home_position := home_position c |}.
Definition set_setpoint (v : Euler) (c : FlightCommand) : FlightCommand :=
  {| throttle := throttle c; setpoint := v; armed := armed c;
     flight_mode := flight_mode c; target_altitude := target_altitude c;
     target_position := target_position c; home_position := home_position c |}.
Definition set_armed (v : bool) (c : FlightCommand) : FlightCommand :=
  {| throttle := throttle c; setpoint := setpoint c; armed := v;
     flight_mode := flight_mode c; target_altitude := target_altitude c;
     target_position := target_position c; home_position := home_position c |}.
Definition set_mode (v : Z) (c : FlightCommand) : FlightCommand :=
  {| throttle := throttle c; setpoint := setpoint c; armed := armed c;
     flight_mode := v; target_altitude := target_altitude c;
     target_position := target_position c; home_position := home_position c |}.
Definition set_target_alt (v : F32.t) (c : FlightCommand) : FlightCommand :=
  {| throttle := throttle c; setpoint := setpoint c; armed := armed c;
     flight_mode := flight_mode c; target_altitude := v;
     target_position := target_position c; home_position := home_position c |}.
Definition set_target_pos (v : GPSPosition) (c : FlightCommand) : FlightCommand :=
  {| throttle := throttle c; setpoint := setpoint c; armed := armed c;
     flight_mode := flight_mode c; target_altitude := target_altitude c;
     target_position := v; home_position := home_position c |}.
Definition set_home_pos (v : GPSPosition) (c : FlightCommand) : FlightCommand :=
  {| throttle := throttle c; setpoint := setpoint c; armed := armed c;
     flight_mode := flight_mode c; target_altitude := target_altitude c;
     target_position := target_position c; home_position := v |}.

Definition with_imu (v : IMUData) (s : State) : State :=
  {| imu := v; gps := gps s; baro := baro s; obstacle := obstacle s;
     cmd := cmd s; motors := motors s;
     pid_roll := pid_roll s; pid_pitch := pid_pitch s; pid_yaw := pid_yaw s;
     pid_altitude := pid_altitude s; pid_velocity_z := pid_velocity_z s;
     pid_pos_n := pid_pos_n s; pid_pos_e := pid_pos_e s;
     pid_vel_n := pid_vel_n s; pid_vel_e := pid_vel_e s |}.
Definition with_gps (v : GPSData) (s : State) : State :=
  {| imu := imu s; gps := v; baro := baro s; obstacle := obstacle s;
     cmd := cmd s; motors := motors s;
     pid_roll := pid_roll s; pid_pitch := pid_pitch s; pid_yaw := pid_yaw s;
     pid_altitude := pid_altitude s; pid_velocity_z := pid_velocity_z s;
     pid_pos_n := pid_pos_n s; pid_pos_e := pid_pos_e s;
     pid_vel_n := pid_vel_n s; pid_vel_e := pid_vel_e s |}.
Definition with_baro (v : BaroData) (s : State) : State :=
  {| imu := imu s; gps := gps s; baro := v; obstacle := obstacle s;
     cmd := cmd s; motors := motors s;
     pid_roll := pid_roll s; pid_pitch := pid_pitch s; pid_yaw := pid_yaw s;
     pid_altitude := pid_altitude s; pid_velocity_z := pid_velocity_z s;
     pid_pos_n := pid_pos_n s; pid_pos_e := pid_pos_e s;
     pid_vel_n := pid_vel_n s; pid_vel_e := pid_vel_e s |}.
Definition with_obstacle (v : ObstacleData) (s : State) : State :=
  {| imu := imu s; gps := gps s; baro := baro s; obstacle := v;
     cmd := cmd s; motors := motors s;
     pid_roll := pid_roll s; pid_pitch := pid_pitch s; pid_yaw := pid_yaw s;
     pid_altitude := pid_altitude s; pid_velocity_z := pid_velocity_z s;
     pid_pos_n := pid_pos_n s; pid_pos_e := pid_pos_e s;
     pid_vel_n := pid_vel_n s; pid_vel_e := pid_vel_e s |}.
Definition with_cmd (v : FlightCommand) (s : State) : State :=
  {| imu := imu s; gps := gps s; baro := baro s; obstacle := obstacle s;
     cmd := v; motors := motors s;
     pid_roll := pid_roll s; pid_pitch := pid_pitch s; pid_yaw := pid_yaw s;
     pid_altitude := pid_altitude s; pid_velocity_z := pid_velocity_z s;
     pid_pos_n := pid_pos_n s; pid_pos_e := pid_pos_e s;
     pid_vel_n := pid_vel_n s; pid_vel_e := pid_vel_e s |}.
Definition with_motors (v : MotorOutputs) (s : State) : State :=
  {| imu := imu s; gps := gps s; baro := baro s; obstacle := obstacle s;
     cmd := cmd s; motors := v;
     pid_roll := pid_roll s; pid_pitch := pid_pitch s; pid_yaw := pid_yaw s;
     pid_altitude := pid_altitude s; pid_velocity_z := pid_velocity_z s;
     pid_pos_n := pid_pos_n s; pid_pos_e := pid_pos_e s;
     pid_vel_n := pid_vel_n s; pid_vel_e := pid_vel_e s |}.
(** The three attitude PIDs, written by [stabilize_and_mix]. *)
Definition with_attitude_pids (r p y : PID) (s : State) : State :=
  {| imu := imu s; gps := gps s; baro := baro s; obstacle := obstacle s;
     cmd := cmd s; motors := motors s;
     pid_roll := r; pid_pitch := p; pid_yaw := y;
     pid_altitude := pid_altitude s; pid_velocity_z := pid_velocity_z s;
     pid_pos_n := pid_pos_n s; pid_pos_e := pid_pos_e s;
     pid_vel_n := pid_vel_n s; pid_vel_e := pid_vel_e s |}.
(** The two altitude PIDs, written by [altitude_hold_controller]. *)
Definition with_altitude_pids (a vz : PID) (s : State) : State :=
  {| imu := imu s; gps := gps s; baro := baro s; obstacle := obstacle s;
     cmd := cmd s; motors := motors s;
     pid_roll := pid_roll s; pid_pitch := pid_pitch s; pid_yaw := pid_yaw s;
     pid_altitude := a; pid_velocity_z := vz;
     pid_pos_n := pid_pos_n s; pid_pos_e := pid_pos_e s;
     pid_vel_n := pid_vel_n s; pid_vel_e := pid_vel_e s |}.
(** The four horizontal PIDs, written by [position_hold_controller]. *)
Definition with_position_pids (pn pe vn ve : PID) (s : State) : State :=
  {| imu := imu s; gps := gps s; baro := baro s; obstacle := obstacle s;
     cmd := cmd s; motors := motors s;
     pid_roll := pid_roll s; pid_pitch := pid_pitch s; pid_yaw := pid_yaw s;
     pid_altitude := pid_altitude s; pid_velocity_z := pid_velocity_z s;
     pid_pos_n := pn; pid_pos_e := pe;
     pid_vel_n := vn; pid_vel_e := ve |}.

(** ** Utility functions *)

Definition gtb (x y : F32.t) : bool :=
  match SFcompare x y with Some Gt => true | _ => false end.
Definition geb (x y : F32.t) : bool :=
  match SFcompare x y with Some (Gt | Eq) => true | _ => false end.

(** [return (val < min) ? min : (val > max) ? max : val;] *)
Definition constrain_float (val min max : F32.t) : F32.t :=
  if F32.ltb val min then min else if gtb val max then max else val.

(** [x * M_PI / 180.0f], evaluated in [double] and passed on as a [float]. *)
Definition deg_to_rad (x : F64.t) : F32.t :=
  F32.round (F64.div (F64.mul x M_PI) (F64.of_f32 (F32.of_Z 180))).

(** [x * 180.0f / M_PI]: a [float] product, a [double] quotient, stored in
    a [float]. *)
Definition rad_to_deg (x : F32.t) : F32.t :=
  F32.round (F64.div (F64.of_f32 (F32.mul x (F32.of_Z 180))) M_PI).

(** [while (angle >= 360.0f) angle -= 360.0f;] *)
Fixpoint wrap_down (fuel : nat) (a : F32.t) : option F32.t :=
  match fuel with
  | O => None
  | S fuel' =>
      if geb a (F32.of_Z 360) then wrap_down fuel' (F32.sub a (F32.of_Z 360))
      else Some a
  end.

(** [while (angle < 0.0f) angle += 360.0f;] *)
Fixpoint wrap_up (fuel : nat) (a : F32.t) : option F32.t :=
  match fuel with
  | O => None
  | S fuel' =>
      if F32.ltb a F32.zero then wrap_up fuel' (F32.add a (F32.of_Z 360))
      else Some a
  end.

Definition wrap_360 (fuel : nat) (a : F32.t) : option F32.t :=
  match wrap_down fuel a with
  | Some a' => wrap_up fuel a'
  | None => None
  end.

(** ** PID controller *)

Definition init_pid (kp ki kd max_int : F32.t) : PID :=
  {| kp := kp; ki := ki; kd := kd;
     error := F32.zero; prev_error := F32.zero; integral := F32.zero;
     output := F32.zero; max_integral := max_int |}.

(** The C function returns [pid->output]; here the caller reads it from the
    updated record. *)
Definition update_pid (pid : PID) (sp measured dt : F32.t) : PID :=
  let err := F32.sub sp measured in
  let integ := F32.add (integral pid) (F32.mul err dt) in
  let integ := constrain_float integ (F32.opp (max_integral pid)) (max_integral pid) in
  let derivative := F32.div (F32.sub err (prev_error pid)) dt in
  {| kp := kp pid; ki := ki pid; kd := kd pid;
     error := err; prev_error := err; integral := integ;
     output := F32.add (F32.add (F32.mul (kp pid) err) (F32.mul (ki pid) integ))
                       (F32.mul (kd pid) derivative);
     max_integral := max_integral pid |}.

(** ** Sensor input and attitude estimate *)

(** [raw_data] is what the twelve [spi_read_register] calls return, in
    order; [raw[i] = (raw_data[i * 2] << 8) | raw_data[i * 2 + 1]] stored in
    an [int16_t]. *)
Definition raw_sample (raw_data : list Z) (i : nat) : Z :=
  let hi := to_uint8 (nth (i * 2) raw_data 0) in
  let lo := to_uint8 (nth (i * 2 + 1) raw_data 0) in
  to_int16 (Z.lor (Z.shiftl hi 8) lo).

Definition read_imu_data (raw_data : list Z) (data : IMUData) : IMUData :=
  let raw i := F32.of_Z (raw_sample raw_data i) in
  let data := set_accel {| vx := F32.div (raw 0%nat) ACCEL_SCALE;
                           vy := F32.div (raw 1%nat) ACCEL_SCALE;
                           vz := F32.div (raw 2%nat) ACCEL_SCALE |} data in
  set_gyro {| vx := F32.div (raw 3%nat) GYRO_SCALE;
              vy := F32.div (raw 4%nat) GYRO_SCALE;
              vz := F32.div (raw 5%nat) GYRO_SCALE |} data.

Definition alpha : F32.t := Eval vm_compute in F32.lit 98 100.

Section WithLibM.
Context `{LibM}.

Definition compute_angles (data : IMUData) : IMUData :=
    let a := accel data in
    let g := gyro data in
    let accel_roll := rad_to_deg (atan2f (vy a) (vz a)) in
    let accel_pitch :=
      rad_to_deg (atan2f (F32.opp (vx a))
                         (F32.sqrt (F32.add (F32.mul (vy a) (vy a))
                                            (F32.mul (vz a) (vz a))))) in
    let r := F32.add (roll (angles data)) (F32.mul (vx g) DT) in
    let p := F32.add (pitch (angles data)) (F32.mul (vy g) DT) in
    let y := F32.add (yaw (angles data)) (F32.mul (vz g) DT) in
    let one_minus_alpha := F32.sub (F32.of_Z 1) alpha in
    set_angles
      {| roll := F32.add (F32.mul alpha r) (F32.mul one_minus_alpha accel_roll);
         pitch := F32.add (F32.mul alpha p) (F32.mul one_minus_alpha accel_pitch);
         yaw := y |} data.

(** ** Geodesy *)

Definition get_distance_meters (pos1 pos2 : GPSPosition) : F32.t :=
    let dlat := deg_to_rad (F64.sub (lat pos2) (lat pos1)) in
    let dlon := deg_to_rad (F64.sub (lon pos2) (lon pos1)) in
    let two := F32.of_Z 2 in
    let a :=
      F32.add
        (F32.mul (sinf (F32.div dlat two)) (sinf (F32.div dlat two)))
        (F32.mul
           (F32.mul
              (F32.mul (cosf (deg_to_rad (lat pos1))) (cosf (deg_to_rad (lat pos2))))
              (sinf (F32.div dlon two)))
           (sinf (F32.div dlon two))) in
    let c := F32.mul two (atan2f (F32.sqrt a) (F32.sqrt (F32.sub (F32.of_Z 1) a))) in
    F32.mul (F32.of_Z 6371000) c.

Definition get_bearing_deg (fuel : nat) (from to : GPSPosition) : option F32.t :=
    let dlon := deg_to_rad (F64.sub (lon to) (lon from)) in
    let y := F32.mul (sinf dlon) (cosf (deg_to_rad (lat to))) in
    let x :=
      F32.sub
        (F32.mul (cosf (deg_to_rad (lat from))) (sinf (deg_to_rad (lat to))))
        (F32.mul
           (F32.mul (sinf (deg_to_rad (lat from))) (cosf (deg_to_rad (lat to))))
           (cosf dlon)) in
    wrap_360 fuel (rad_to_deg (atan2f y x)).
End WithLibM.

(** ** Controllers *)

Section Controllers.
Context `{FloatCast} `{LibM}.

(** [x = constrain_float(x, MOTOR_MIN, MOTOR_MAX)] on a [uint16_t x]: the
    value goes to [float], through the clamp, and back. *)
Definition constrain_pulse (x : Z) : Z :=
  float_to_uint16
    (constrain_float (F32.of_Z x) (F32.of_Z MOTOR_MIN) (F32.of_Z MOTOR_MAX)).

Definition altitude_hold_controller (s : State) : State :=
    if flight_mode (cmd s) <? MODE_ALTITUDE_HOLD then s
    else
      let pa := update_pid (pid_altitude s) (target_altitude (cmd s))
                           (altitude (baro s)) DT in
      let target_climb_rate :=
        constrain_float (output pa) (F32.opp (F32.of_Z 3)) (F32.of_Z 3) in
      let pv := update_pid (pid_velocity_z s) target_climb_rate
                           (vertical_speed (baro s)) DT in
      let throttle_adjust := output pv in
      (* cmd.throttle = 1500 + (int16_t)throttle_adjust; *)
      let thr := to_uint16 (1500 + float_to_int16 throttle_adjust) in
      (* cmd.throttle = constrain_float(cmd.throttle, MOTOR_MIN, MOTOR_MAX); *)
      let thr := constrain_pulse thr in
      with_cmd (set_throttle thr (cmd s)) (with_altitude_pids pa pv s).

Definition position_hold_controller (fuel : nat) (s : State) : option State :=
    if (flight_mode (cmd s) <? MODE_POSITION_HOLD) || negb (fix_valid (gps s))
    then Some s
    else
      let dist := get_distance_meters (position (gps s)) (target_position (cmd s)) in
      match get_bearing_deg fuel (position (gps s)) (target_position (cmd s)) with
      | None => None
      | Some bearing =>
          let brad := deg_to_rad (F64.of_f32 bearing) in
          let error_north := F32.mul dist (cosf brad) in
          let error_east := F32.mul dist (sinf brad) in
          let pn := update_pid (pid_pos_n s) F32.zero error_north DT in
          let pe := update_pid (pid_pos_e s) F32.zero error_east DT in
          let five := F32.of_Z 5 in
          let target_vel_n := constrain_float (output pn) (F32.opp five) five in
          let target_vel_e := constrain_float (output pe) (F32.opp five) five in
          let hrad := deg_to_rad (F64.of_f32 (heading (gps s))) in
          let vel_n := F32.mul (ground_speed (gps s)) (cosf hrad) in
          let vel_e := F32.mul (ground_speed (gps s)) (sinf hrad) in
          let vn := update_pid (pid_vel_n s) target_vel_n vel_n DT in
          let ve := update_pid (pid_vel_e s) target_vel_e vel_e DT in
          let angle_n := output vn in
          let angle_e := output ve in
          let heading_rad := deg_to_rad (F64.of_f32 (yaw (angles (imu s)))) in
          let sp_pitch :=
            F32.opp (F32.add (F32.mul angle_n (cosf heading_rad))
                             (F32.mul angle_e (sinf heading_rad))) in
          let sp_roll :=
            F32.opp (F32.sub (F32.mul angle_e (cosf heading_rad))
                             (F32.mul angle_n (sinf heading_rad))) in
          let lim := F32.of_Z 25 in
          let sp := set_pitch (constrain_float sp_pitch (F32.opp lim) lim)
                              (setpoint (cmd s)) in
          let sp := set_roll (constrain_float sp_roll (F32.opp lim) lim) sp in
          Some (with_cmd (set_setpoint sp (cmd s))
                         (with_position_pids pn pe vn ve s))
      end.

(** [distance < 2.0f && baro.altitude < 1.0f] of
      [return_to_home_controller]. *)
Definition land_condition (s : State) : bool :=
    F32.ltb (get_distance_meters (position (gps s)) (home_position (cmd s)))
            (F32.of_Z 2)
    && F32.ltb (altitude (baro s)) (F32.of_Z 1).

Definition return_to_home_controller (fuel : nat) (s : State) : option State :=
    if negb (flight_mode (cmd s) =? MODE_RTH) || negb (fix_valid (gps s))
    then Some s
    else
      let dist := get_distance_meters (position (gps s)) (home_position (cmd s)) in
      if land_condition s then Some (with_cmd (set_armed false (cmd s)) s)
      else
        let s := if F32.ltb (altitude (baro s)) RTH_ALTITUDE
                 then with_cmd (set_target_alt RTH_ALTITUDE (cmd s)) s
                 else s in
        let s := with_cmd (set_target_pos (home_position (cmd s)) (cmd s)) s in
        match position_hold_controller fuel s with
        | None => None
        | Some s =>
            Some (if F32.ltb dist (F32.of_Z 3)
                  then with_cmd (set_target_alt (F32.lit 5 10) (cmd s)) s
                  else s)
        end.

Definition obstacle_avoidance (s : State) : State :=
    if negb (detected (obstacle s)) then s
    else if F32.ltb (distance (obstacle s)) OBSTACLE_DISTANCE then
      let sp := setpoint (cmd s) in
      let sp := if F32.ltb (pitch sp) F32.zero then set_pitch F32.zero sp else sp in
      let avoidance_angle := F32.add (angle (obstacle s)) (F32.of_Z 90) in
      let sp := set_roll
                  (F32.mul (F32.of_Z 10)
                           (sinf (deg_to_rad (F64.of_f32 avoidance_angle)))) sp in
      with_cmd (set_setpoint sp (cmd s)) s
    else s.

Definition stabilize_and_mix (s : State) : State :=
    if negb (armed (cmd s)) then
      with_motors {| m1 := MOTOR_MIN; m2 := MOTOR_MIN; m3 := MOTOR_MIN;
                     m4 := MOTOR_MIN; m5 := MOTOR_MIN; m6 := MOTOR_MIN;
                     m7 := MOTOR_MIN; m8 := MOTOR_MIN |} s
    else
      let pr := update_pid (pid_roll s) (roll (setpoint (cmd s)))
                           (roll (angles (imu s))) DT in
      let pp := update_pid (pid_pitch s) (pitch (setpoint (cmd s)))
                           (pitch (angles (imu s))) DT in
      let py := update_pid (pid_yaw s) (yaw (setpoint (cmd s)))
                           (yaw (angles (imu s))) DT in
      let roll_correction := output pr in
      let pitch_correction := output pp in
      let yaw_correction := output py in
      let base := F32.of_Z (throttle (cmd s)) in
      (* motors.mX = <float>;  motors.mX = constrain_float(motors.mX, ...); *)
      let mix (x : F32.t) : Z := constrain_pulse (float_to_uint16 x) in
      let n1 := mix (F32.sub (F32.add (F32.sub base roll_correction) pitch_correction)
                             yaw_correction) in
      let n2 := mix (F32.add (F32.add (F32.add base roll_correction) pitch_correction)
                             yaw_correction) in
      let n3 := mix (F32.add (F32.sub (F32.sub base roll_correction) pitch_correction)
                             yaw_correction) in
      let n4 := mix (F32.sub (F32.sub (F32.add base roll_correction) pitch_correction)
                             yaw_correction) in
      let mo := motors s in
      with_motors {| m1 := n1; m2 := n2; m3 := n3; m4 := n4;
                     m5 := m5 mo; m6 := m6 mo; m7 := m7 mo; m8 := m8 mo |}
                  (with_attitude_pids pr pp py s).

(** The arming LED written at the end of [safety_check] is a hardware pad
      outside [State]; it mirrors [armed]. *)
Definition safety_check (s : State) : State :=
    let a := angles (imu s) in
    let s := if gtb (F32.abs (roll a)) MAX_TILT_ANGLE
                || gtb (F32.abs (pitch a)) MAX_TILT_ANGLE
             then with_cmd (set_armed false (cmd s)) s else s in
    let s := if is_nan (roll a) || is_nan (pitch a)
             then with_cmd (set_armed false (cmd s)) s else s in
    if (MODE_POSITION_HOLD <=? flight_mode (cmd s)) && negb (fix_valid (gps s))
    then with_cmd (set_mode MODE_ALTITUDE_HOLD (cmd s)) s
    else s.

(** ** One iteration of [ControlThread] *)

Definition flight_mode_logic (fuel : nat) (s : State) : option State :=
    let mode := flight_mode (cmd s) in
    if (mode =? MODE_ALTITUDE_HOLD) || (mode =? MODE_POSITION_HOLD) || (mode =? MODE_AUTO)
    then Some (altitude_hold_controller s)
    else if mode =? MODE_RTH then
      match return_to_home_controller fuel s with
      | Some s => Some (altitude_hold_controller s)
      | None => None
      end
    else Some s.

Definition control_tick (fuel : nat) (raw_data : list Z) (s : State) : option State :=
    let s := with_imu (compute_angles (read_imu_data raw_data (imu s))) s in
    match flight_mode_logic fuel s with
    | None => None
    | Some s =>
        match (if MODE_POSITION_HOLD <=? flight_mode (cmd s)
               then position_hold_controller fuel s else Some s) with
        | None => None
        | Some s => Some (stabilize_and_mix (safety_check (obstacle_avoidance s)))
        end
    end.
End Controllers.

(** ** Initialisation and the external API *)

Definition zero_vector : Vector3f := {| vx := F32.zero; vy := F32.zero; vz := F32.zero |}.
Definition zero_euler : Euler := {| roll := F32.zero; pitch := F32.zero; yaw := F32.zero |}.
Definition zero_position : GPSPosition := {| lat := F64.zero; lon := F64.zero; alt := F32.zero |}.

(** The globals are [static], hence zero before [control_system_init]
    assigns the PIDs, [cmd] and [imu.angles]; [motors] is not assigned. *)
Definition control_system_init : State :=
  {| imu := {| gyro := zero_vector; accel := zero_vector; angles := zero_euler;
               temperature := F32.zero; timestamp := 0 |};
     gps := {| position := zero_position; ground_speed := F32.zero;
               heading := F32.zero; num_sats := 0; fix_valid := false |};
     baro := {| altitude := F32.zero; vertical_speed := F32.zero; pressure := F32.zero |};
     obstacle := {| distance := F32.zero; angle := F32.zero; detected := false |};
     cmd := {| throttle := MOTOR_MIN; setpoint := zero_euler; armed := false;
               flight_mode := MODE_STABILIZE; target_altitude := F32.zero;
               target_position := zero_position; home_position := zero_position |};
     motors := {| m1 := 0; m2 := 0; m3 := 0; m4 := 0; m5 := 0; m6 := 0; m7 := 0; m8 := 0 |};
     pid_roll := init_pid PID_ROLL_KP PID_ROLL_KI PID_ROLL_KD (F32.of_Z 400);
     pid_pitch := init_pid PID_PITCH_KP PID_PITCH_KI PID_PITCH_KD (F32.of_Z 400);
     pid_yaw := init_pid PID_YAW_KP PID_YAW_KI PID_YAW_KD (F32.of_Z 400);
     pid_altitude := init_pid PID_ALT_KP PID_ALT_KI PID_ALT_KD (F32.of_Z 500);
     pid_velocity_z := init_pid (F32.of_Z 2) (F32.lit 1 10) (F32.lit 5 10) (F32.of_Z 300);
     pid_pos_n := init_pid PID_POS_KP PID_POS_KI PID_POS_KD (F32.of_Z 100);
     pid_pos_e := init_pid PID_POS_KP PID_POS_KI PID_POS_KD (F32.of_Z 100);
     pid_vel_n := init_pid (F32.lit 5 10) (F32.lit 5 100) (F32.lit 1 10) (F32.of_Z 50);
     pid_vel_e := init_pid (F32.lit 5 10) (F32.lit 5 100) (F32.lit 1 10) (F32.of_Z 50) |}.

Definition set_flight_mode (mode : Z) (s : State) : State :=
  with_cmd (set_mode (to_uint8 mode) (cmd s)) s.

Definition set_target_altitude (altitude_m : F32.t) (s : State) : State :=
  with_cmd (set_target_alt altitude_m (cmd s)) s.

Definition set_target_position (la lo : F64.t) (s : State) : State :=
  with_cmd (set_target_pos (set_lon lo (set_lat la (target_position (cmd s)))) (cmd s)) s.

Definition set_home_position (la lo : F64.t) (al : F32.t) (s : State) : State :=
  with_cmd (set_home_pos {| lat := la; lon := lo; alt := al |} (cmd s)) s.

Definition update_gps_data (la lo : F64.t) (al speed hdg : F32.t) (sats : Z)
    (s : State) : State :=
  with_gps {| position := {| lat := la; lon := lo; alt := al |};
              ground_speed := speed; heading := hdg;
              num_sats := to_uint8 sats; fix_valid := 6 <=? to_uint8 sats |} s.

Definition update_baro_data (al vs : F32.t) (s : State) : State :=
  with_baro {| altitude := al; vertical_speed := vs; pressure := pressure (baro s) |} s.

Definition update_obstacle_data (d a : F32.t) (det : bool) (s : State) : State :=
  with_obstacle {| distance := d; angle := a; detected := det |} s.

Definition arm_motors (s : State) : State := with_cmd (set_armed true (cmd s)) s.

Definition disarm_motors (s : State) : State := with_cmd (set_armed false (cmd s)) s.

Definition trigger_return_to_home (s : State) : State :=
  with_cmd (set_mode MODE_RTH (cmd s)) s.

(** A call of the external API, made between two iterations of the loop. *)
Inductive api_call :=
| SetFlightMode (mode : Z)
| SetTargetAltitude (altitude_m : F32.t)
| SetTargetPosition (la lo : F64.t)
| SetHomePosition (la lo : F64.t) (al : F32.t)
| UpdateGps (la lo : F64.t) (al speed hdg : F32.t) (sats : Z)
| UpdateBaro (al vs : F32.t)
| UpdateObstacle (d a : F32.t) (det : bool)
| ArmMotors
| DisarmMotors
| TriggerReturnToHome.

Definition api_step (c : api_call) (s : State) : State :=
  match c with
  | SetFlightMode mode => set_flight_mode mode s
  | SetTargetAltitude a => set_target_altitude a s
  | SetTargetPosition la lo => set_target_position la lo s
  | SetHomePosition la lo al => set_home_position la lo al s
  | UpdateGps la lo al speed hdg sats => update_gps_data la lo al speed hdg sats s
  | UpdateBaro al vs => update_baro_data al vs s
  | UpdateObstacle d a det => update_obstacle_data d a det s
  | ArmMotors => arm_motors s
  | DisarmMotors => disarm_motors s
  | TriggerReturnToHome => trigger_return_to_home s
  end.

Definition is_arm (c : api_call) : bool :=
  match c with ArmMotors => true | _ => false end.

(** ** Vocabulary of the properties *)

(** The condition tested by the first two statements of [safety_check]. *)
Definition attitude_unsafe (a : Euler) : bool :=
  gtb (F32.abs (roll a)) MAX_TILT_ANGLE
  || gtb (F32.abs (pitch a)) MAX_TILT_ANGLE
  || is_nan (roll a) || is_nan (pitch a).

(** What happens to the globals over time: iterations of the control loop,
    each with its fuel and the bytes its SPI reads return, interleaved with
    calls of the external API. *)
Inductive event :=
| Tick (fuel : nat) (raw_data : list Z)
| Call (c : api_call).

Definition is_arm_event (e : event) : bool :=
  match e with Call c => is_arm c | Tick _ _ => false end.

Section Traces.
Context `{FloatCast} `{LibM}.

Fixpoint run (evs : list event) (s : State) : option State :=
  match evs with
  | [] => Some s
  | Tick fuel raw_data :: rest =>
      match control_tick fuel raw_data s with
      | Some s' => run rest s'
      | None => None
      end
  | Call c :: rest => run rest (api_step c s)
  end.
End Traces.

Definition all_motors (s : State) : list Z :=
  let m := motors s in [m1 m; m2 m; m3 m; m4 m; m5 m; m6 m; m7 m; m8 m].

Definition pulse_in_range (z : Z) : bool := (MOTOR_MIN <=? z) && (z <=? MOTOR_MAX).

(** A sequence of [update_pid] calls, each with its setpoint, measured
    value and time step. *)
Definition pid_call : Type := F32.t * F32.t * F32.t.

Definition run_updates (p : PID) (calls : list pid_call) : PID :=
  fold_left (fun p c => let '(sp, measured, dt) := c in update_pid p sp measured dt)
            calls p.

Definition admissible_call (c : pid_call) : bool :=
  let '(sp, measured, dt) := c in
  is_finite sp && is_finite measured && is_finite dt && F32.ltb F32.zero dt.

Definition integral_bounded (p : PID) : bool :=
  F32.leb (F32.abs (integral p)) (max_integral p).

(** Bounded universal check over [z, z + n). *)
Fixpoint all_from (P : Z -> bool) (z : Z) (n : nat) : bool :=
  match n with
  | O => true
  | S n' => P z && all_from P (z + 1) n'
  end.

(** ** Concrete platforms and inputs *)

(** A platform whose out-of-range conversions leave zero. *)
Definition zero_cast : FloatCast :=
  {| undef_uint16 := fun _ => 0; undef_int16 := fun _ => 0 |}.

(** First-order stand-ins for the math library around a level attitude,
    enough to run the model on concrete inputs. *)
Definition small_angle_libm : LibM :=
  {| sinf := fun x => x;
     cosf := fun _ => F32.of_Z 1;
     atan2f := fun y x => F32.div y x |}.

(** SPI bytes of an IMU at rest: 1 g on the z accelerometer, no rotation. *)
Definition level_raw : list Z := [0; 0; 0; 0; 64; 0; 0; 0; 0; 0; 0; 0].

Definition with_attitude (r p : F32.t) (s : State) : State :=
  with_imu (set_angles (set_pitch p (set_roll r (angles (imu s)))) (imu s)) s.

(** The largest finite binary32 number. *)
Definition FLT_MAX : F32.t := S754_finite false 16777215 104.

(** Armed in PositionHold with no satellite in view. *)
Definition lost_fix : State :=
  set_flight_mode MODE_POSITION_HOLD (arm_motors control_system_init).

(** Armed, with the attitude estimate rolled to 60 degrees. *)
Definition rolled_over : State :=
  arm_motors (with_attitude (F32.of_Z 60) F32.zero control_system_init).

(** The part of the state that no controller ahead of [safety_check]
    writes: the flight mode, the sensor snapshots, the home position, the
    motor outputs and the three attitude PIDs. *)
Definition navigation_frame (s s' : State) : Prop :=
  flight_mode (cmd s') = flight_mode (cmd s)
  /\ imu s' = imu s
  /\ gps s' = gps s
  /\ baro s' = baro s
  /\ home_position (cmd s') = home_position (cmd s)
  /\ motors s' = motors s
  /\ pid_roll s' = pid_roll s
  /\ pid_pitch s' = pid_pitch s
  /\ pid_yaw s' = pid_yaw s.

Definition idle_motors : MotorOutputs :=
  {| m1 := MOTOR_MIN; m2 := MOTOR_MIN; m3 := MOTOR_MIN; m4 := MOTOR_MIN;
     m5 := MOTOR_MIN; m6 := MOTOR_MIN; m7 := MOTOR_MIN; m8 := MOTOR_MIN |}.

Definition attitude_pids (s : State) : PID * PID * PID :=
  (pid_roll s, pid_pitch s, pid_yaw s).

(** AltitudeHold over level ground with the barometer reporting a climb of
    10 m/s, fresh PIDs. *)
Definition climbing_fast : State :=
  update_baro_data F32.zero (F32.of_Z 10)
    (set_flight_mode MODE_ALTITUDE_HOLD control_system_init).

(** One armed pass of the mixer at 10 degrees of roll, then a disarm. *)
Definition flown_and_landed : State :=
  disarm_motors
    (@stabilize_and_mix zero_cast
       (arm_motors (with_attitude (F32.of_Z 10) F32.zero control_system_init))).

(** Two admissible calls whose errors overflow to +infinity and then to
    -infinity. *)
Definition overflowing_calls : list pid_call :=
  [(FLT_MAX, F32.opp FLT_MAX, DT); (F32.opp FLT_MAX, FLT_MAX, DT)].

Definition position_pids (s : State) : PID * PID * PID * PID :=
  (pid_pos_n s, pid_pos_e s, pid_vel_n s, pid_vel_e s).

(** The four [update_pid] calls of one pass of [position_hold_controller],
    one per PID, on the position errors [en], [ee] and the ground velocity
    [vn], [ve]. *)
Definition position_pid_pass (en ee vn ve : F32.t)
    (p : PID * PID * PID * PID) : PID * PID * PID * PID :=
  let '(pn, pe, pvn, pve) := p in
  let pn' := update_pid pn F32.zero en DT in
  let pe' := update_pid pe F32.zero ee DT in
  let five := F32.of_Z 5 in
  (pn', pe',
   update_pid pvn (constrain_float (output pn') (F32.opp five) five) vn DT,
   update_pid pve (constrain_float (output pe') (F32.opp five) five) ve DT).

Section Guidance.
Context `{LibM}.

(** [distance * cosf(bearing * M_PI / 180.0f)] and its sine twin. *)
Definition error_north (dist bearing : F32.t) : F32.t :=
  F32.mul dist (cosf (deg_to_rad (F64.of_f32 bearing))).
Definition error_east (dist bearing : F32.t) : F32.t :=
  F32.mul dist (sinf (deg_to_rad (F64.of_f32 bearing))).

(** [gps.ground_speed * cosf(gps.heading * M_PI / 180.0f)] and its twin. *)
Definition vel_north (g : GPSData) : F32.t :=
  F32.mul (ground_speed g) (cosf (deg_to_rad (F64.of_f32 (heading g)))).
Definition vel_east (g : GPSData) : F32.t :=
  F32.mul (ground_speed g) (sinf (deg_to_rad (F64.of_f32 (heading g)))).
End Guidance.

(** Returning home from 0.001 degree north at 10 m above ground, eight
    satellites in view. *)
Definition returning_home : State :=
  trigger_return_to_home
    (update_baro_data (F32.of_Z 10) F32.zero
       (update_gps_data (F64.of_f32 (F32.lit 1 1000)) F64.zero F32.zero
                        F32.zero F32.zero 8
          (arm_motors control_system_init))).

(** ** The rest of the source: [wrap_180] and the hardware traffic *)

(** [while (angle > 180.0f) angle -= 360.0f;] *)
Fixpoint wrap_180_down (fuel : nat) (a : F32.t) : option F32.t :=
  match fuel with
  | O => None
  | S fuel' =>
      if gtb a (F32.of_Z 180) then wrap_180_down fuel' (F32.sub a (F32.of_Z 360))
      else Some a
  end.

(** [while (angle < -180.0f) angle += 360.0f;] *)
Fixpoint wrap_180_up (fuel : nat) (a : F32.t) : option F32.t :=
  match fuel with
  | O => None
  | S fuel' =>
      if F32.ltb a (F32.opp (F32.of_Z 180))
      then wrap_180_up fuel' (F32.add a (F32.of_Z 360))
      else Some a
  end.

Definition wrap_180 (fuel : nat) (a : F32.t) : option F32.t :=
  match wrap_180_down fuel a with
  | Some a' => wrap_180_up fuel a'
  | None => None
  end.

Definition ICM20948_WHO_AM_I : Z := 0x00.
Definition ICM20948_PWR_MGMT_1 : Z := 0x06.
Definition ICM20948_GYRO_CONFIG : Z := 0x01.
Definition ICM20948_ACCEL_CONFIG : Z := 0x14.
Definition ICM20948_ACCEL_XOUT_H : Z := 0x2D.
Definition ICM20948_GYRO_XOUT_H : Z := 0x33.

Inductive pwm_driver := PWMD1 | PWMD4.

Inductive gpio_port := GPIOC | GPIOE.

(** The calls the source makes into the HAL and the kernel, in the order it
    makes them. An SPI transfer stands for its select, its two-byte exchange
    or send, and its unselect. *)
Inductive hw_event :=
| SpiStart
| PwmStart (d : pwm_driver)
| SetPadMode (port : gpio_port) (pad : Z)
| SetPad (port : gpio_port) (pad : Z)
| WritePad (port : gpio_port) (pad : Z) (level : bool)
| SpiExchange (tx0 tx1 : Z)
| SpiSend (tx0 tx1 : Z)
| SleepMilliseconds (ms : Z)
| PwmEnableChannel (d : pwm_driver) (channel width : Z)
| SleepUntilNextPeriod
| CreateControlThread.

(** [PWM_PERCENTAGE_TO_WIDTH] is a macro of the HAL headers, which are not
    part of the repository: a parameter. *)
Class Hal := {
  PWM_PERCENTAGE_TO_WIDTH : pwm_driver -> Z -> Z
}.

Definition init_hardware : list hw_event :=
  [SpiStart; PwmStart PWMD1; PwmStart PWMD4;
   SetPadMode GPIOC 2; SetPad GPIOC 2; SetPadMode GPIOE 12].

(** The transfer made by [spi_read_register(reg)]; the function returns the
    second byte the device sends back. *)
Definition spi_read_register (reg : Z) : hw_event :=
  SpiExchange (to_uint8 (Z.lor (to_uint8 reg) 0x80)) 0x00.

Definition spi_write_register (reg value : Z) : hw_event :=
  SpiSend (to_uint8 (Z.land (to_uint8 reg) 0x7F)) (to_uint8 value).

(** [who_am_i] is the byte the device returns for the identity register. *)
Definition init_imu_icm20948 (who_am_i : Z) : list hw_event :=
  [SleepMilliseconds 100; spi_read_register ICM20948_WHO_AM_I]
  ++ (if negb (to_uint8 who_am_i =? 0xEA) then []
      else [spi_write_register ICM20948_PWR_MGMT_1 0x80;
            SleepMilliseconds 100;
            spi_write_register ICM20948_PWR_MGMT_1 0x01;
            SleepMilliseconds 10;
            spi_write_register ICM20948_GYRO_CONFIG 0x00;
            spi_write_register ICM20948_ACCEL_CONFIG 0x00;
            SleepMilliseconds 10]).

(** The twelve reads of [read_imu_data], whose answers are its
    [raw_data]. *)
Definition read_imu_traffic : list hw_event :=
  map (fun i => spi_read_register (ICM20948_ACCEL_XOUT_H + Z.of_nat i)) (seq 0 6)
  ++ map (fun i => spi_read_register (ICM20948_GYRO_XOUT_H + Z.of_nat i)) (seq 0 6).

Section Outputs.
Context `{Hal}.

Definition set_motor_pwm (motor pulse_us : Z) : list hw_event :=
  let motor := to_uint8 motor in
  let ticks := to_uint16 pulse_us in
  if (1 <=? motor) && (motor <=? 4) then
    [PwmEnableChannel PWMD1 (motor - 1) (PWM_PERCENTAGE_TO_WIDTH PWMD1 ticks)]
  else if (5 <=? motor) && (motor <=? 8) then
    [PwmEnableChannel PWMD4 (motor - 5) (PWM_PERCENTAGE_TO_WIDTH PWMD4 ticks)]
  else [].

Context `{FloatCast} `{LibM}.

(** One iteration of [ControlThread] with what it sends to the hardware:
    the IMU reads, the arming LED written by [safety_check], the four
    [set_motor_pwm] calls and the sleep to the next period. *)
Definition control_iteration (fuel : nat) (raw_data : list Z) (s : State)
    : option (State * list hw_event) :=
  let s := with_imu (compute_angles (read_imu_data raw_data (imu s))) s in
  match flight_mode_logic fuel s with
  | None => None
  | Some s =>
      match (if MODE_POSITION_HOLD <=? flight_mode (cmd s)
             then position_hold_controller fuel s else Some s) with
      | None => None
      | Some s =>
          let s := safety_check (obstacle_avoidance s) in
          let led := WritePad GPIOE 12 (armed (cmd s)) in
          let s := stabilize_and_mix s in
          let m := motors s in
          Some (s, read_imu_traffic ++ [led]
                   ++ set_motor_pwm 1 (m1 m) ++ set_motor_pwm 2 (m2 m)
                   ++ set_motor_pwm 3 (m3 m) ++ set_motor_pwm 4 (m4 m)
                   ++ [SleepUntilNextPeriod])
      end
  end.
End Outputs.

(** [control_system_init] as seen from the hardware; the state it leaves is
    [control_system_init] above, whatever the device answered. *)
Definition control_system_init_traffic (who_am_i : Z) : list hw_event :=
  init_hardware ++ init_imu_icm20948 who_am_i ++ [CreateControlThread].

Definition is_spi_send (e : hw_event) : bool :=
  match e with SpiSend _ _ => true | _ => false end.

(** Projections of a trace: the PWM calls, the writes to a pad, the SPI
    writes and the addresses of the SPI reads. *)
Definition pwm_calls (evs : list hw_event) : list hw_event :=
  filter (fun e => match e with PwmEnableChannel _ _ _ => true | _ => false end) evs.

Definition pad_writes (evs : list hw_event) : list hw_event :=
  filter (fun e => match e with WritePad _ _ _ => true | _ => false end) evs.

Definition spi_sends (evs : list hw_event) : list hw_event := filter is_spi_send evs.

Definition spi_read_addresses (evs : list hw_event) : list Z :=
  flat_map (fun e => match e with SpiExchange a _ => [a] | _ => [] end) evs.

(** The gains and the integrator limit of a PID. *)
Definition pid_tuning (p : PID) : F32.t * F32.t * F32.t * F32.t :=
  (kp p, ki p, kd p, max_integral p).

Definition all_tunings (s : State) : list (F32.t * F32.t * F32.t * F32.t) :=
  map pid_tuning [pid_roll s; pid_pitch s; pid_yaw s; pid_altitude s;
                  pid_velocity_z s; pid_pos_n s; pid_pos_e s; pid_vel_n s; pid_vel_e s].

Definition altitude_pids (s : State) : PID * PID := (pid_altitude s, pid_velocity_z s).

(** The invariant of the GPS snapshot. *)
Definition gps_consistent (g : GPSData) : Prop :=
  0 <= num_sats g < 256 /\ fix_valid g = (6 <=? num_sats g).

(** Big-endian two's complement bytes of an [int16_t]. *)
Definition int16_bytes (v : Z) : Z * Z :=
  (to_uint16 v / 256, to_uint16 v mod 256).

(** Twelve bytes carrying the six samples [ax ay az gx gy gz]. *)
Definition imu_frame (samples : list Z) : list Z :=
  flat_map (fun v => [fst (int16_bytes v); snd (int16_bytes v)]) samples.

(** A HAL whose widths are the pulses themselves. *)
Definition identity_hal : Hal := {| PWM_PERCENTAGE_TO_WIDTH := fun _ ticks => ticks |}.

(** Back on the ground at home in ReturnToHome: 0.4 m above ground, eight
    satellites, position equal to the home position. *)
Definition landing_at_home : State :=
  trigger_return_to_home
    (update_baro_data (F32.lit 4 10) F32.zero
       (update_gps_data F64.zero F64.zero F32.zero F32.zero F32.zero 8
          (arm_motors control_system_init))).

(** PositionHold with a fix, and an obstacle 1.5 m dead ahead. *)
Definition obstacle_ahead : State :=
  update_obstacle_data (F32.lit 15 10) F32.zero true
    (set_flight_mode MODE_POSITION_HOLD
       (update_gps_data (F64.of_f32 (F32.lit 1 1000)) F64.zero F32.zero
                        F32.zero F32.zero 8
          (arm_motors control_system_init))).

(** Armed, with a roll estimate that is not a number. *)
Definition roll_nan : State :=
  arm_motors (with_attitude S754_nan F32.zero control_system_init).

Section Stages.
Context `{FloatCast} `{LibM}.

(** The part of an iteration that runs before [obstacle_avoidance]: the
    attitude estimate, the [switch] on the flight mode and the position
    hold pass of the loop. *)
Definition navigation_stage (fuel : nat) (raw_data : list Z) (s : State) : option State :=
  let s := with_imu (compute_angles (read_imu_data raw_data (imu s))) s in
  match flight_mode_logic fuel s with
  | None => None
  | Some s =>
      if MODE_POSITION_HOLD <=? flight_mode (cmd s)
      then position_hold_controller fuel s else Some s
  end.
End Stages.

Section Estimate.
Context `{LibM}.

(** [imu] after the two calls that open an iteration. *)
Definition with_imu_angles_of (raw_data : list Z) (s : State) : IMUData :=
  compute_angles (read_imu_data raw_data (imu s)).
End Estimate.

(** Armed in Stabilize with the throttle at 1500 us. *)
Definition hovering : State :=
  with_cmd (set_throttle 1500 (cmd (arm_motors control_system_init)))
           (arm_motors control_system_init).

(** What [k] applications of [shr_1] to the record of [N] have kept: the
    quotient by 2^k in [shr_m], the next bit in [shr_r], and in [shr_s]
    whether anything remains below that bit. *)
Definition shifted (N k : Z) (x : shr_record) : Prop :=
  0 <= shr_m x
  /\ exists rest,
       0 <= rest
       /\ N = shr_m x * 2 ^ k + (if shr_r x then 2 ^ (k - 1) else 0) + rest
       /\ (shr_s x = true <-> 0 < rest)
       /\ (rest < 2 ^ (k - 1) \/ (k = 0 /\ shr_r x = false /\ rest = 0)).


(** Both integrals of the altitude cascade are NaN. *)
Definition altitude_poisoned (s : State) : Prop :=
  is_nan (integral (pid_altitude s)) = true
  /\ is_nan (integral (pid_velocity_z s)) = true.

(** * Properties *)

(** ** Floating-point facts used below *)

Section FloatFacts.
Variables prec emax : Z.

Lemma shr_1_nonneg mrs : 0 <= shr_m mrs -> 0 <= shr_m (shr_1 mrs).
Proof.
  destruct mrs as [m r s]; simpl.
  destruct m as [|p|p]; simpl; try lia; destruct p; simpl; lia.
Qed.

Lemma iter_pos_invariant {A} (f : A -> A) (P : A -> Prop) :
  (forall x, P x -> P (f x)) -> forall p x, P x -> P (iter_pos f p x).
Proof.
  intros Hf p; induction p as [p IH | p IH |]; intros x Hx; simpl; auto.
Qed.

Lemma shr_fexp_nonneg m e l :
  0 <= m -> 0 <= shr_m (fst (shr_fexp prec emax m e l)).
Proof.
  intros Hm. unfold shr_fexp, shr.
  assert (H0 : 0 <= shr_m (shr_record_of_loc m l))
    by (destruct l as [|[]]; simpl; exact Hm).
  destruct (fexp prec emax (Zdigits2 m + e) - e) as [|p|p]; simpl; auto.
  apply (iter_pos_invariant shr_1 (fun x => 0 <= shr_m x)); auto using shr_1_nonneg.
Qed.

Lemma round_nearest_even_nonneg m l : 0 <= m -> 0 <= round_nearest_even m l.
Proof.
  intros Hm. unfold round_nearest_even.
  destruct l as [|[]]; try lia. destruct (Z.even m); lia.
Qed.

Lemma binary_round_aux_not_nan sx mx ex lx :
  0 <= mx -> is_nan (binary_round_aux prec emax sx mx ex lx) = false.
Proof.
  intros Hm. unfold binary_round_aux.
  pose proof (shr_fexp_nonneg mx ex lx Hm) as H1.
  destruct (shr_fexp prec emax mx ex lx) as [mrs' e']. simpl in H1.
  pose proof (shr_fexp_nonneg
                (round_nearest_even (shr_m mrs') (loc_of_shr_record mrs')) e' loc_Exact
                (round_nearest_even_nonneg _ _ H1)) as H2.
  destruct (shr_fexp prec emax _ e' loc_Exact) as [mrs'' e'']. simpl in H2.
  destruct (shr_m mrs'') as [|p|p]; try reflexivity.
  - destruct (e'' <=? emax - prec); reflexivity.
  - lia.
Qed.

Lemma binary_round_not_nan sx mx ex :
  is_nan (binary_round prec emax sx mx ex) = false.
Proof.
  unfold binary_round.
  destruct (shl_align mx ex _) as [mz ez].
  apply binary_round_aux_not_nan. lia.
Qed.

Lemma binary_normalize_not_nan m e sz :
  is_nan (binary_normalize prec emax m e sz) = false.
Proof.
  destruct m; simpl; auto using binary_round_not_nan.
Qed.

Lemma SFsub_finite_not_nan x y :
  is_finite x = true -> is_finite y = true -> is_nan (SFsub prec emax x y) = false.
Proof.
  destruct x as [sx|sx| |sx mx ex], y as [sy|sy| |sy my ey];
    try discriminate; intros _ _.
  - destruct sx, sy; reflexivity.
  - reflexivity.
  - reflexivity.
  - unfold SFsub. apply binary_normalize_not_nan.
Qed.

Lemma SFmul_positive_not_nan x y :
  is_nan x = false -> is_finite y = true -> SFltb (S754_zero false) y = true ->
  is_nan (SFmul prec emax x y) = false.
Proof.
  destruct x as [sx|sx| |sx mx ex], y as [sy|sy| |sy my ey];
    try discriminate; intros _ _ _; try reflexivity.
  unfold SFmul. apply binary_round_aux_not_nan. lia.
Qed.

Lemma SFadd_finite_not_nan x y :
  is_finite x = true -> is_nan y = false -> is_nan (SFadd prec emax x y) = false.
Proof.
  destruct x as [sx|sx| |sx mx ex], y as [sy|sy| |sy my ey];
    try discriminate; intros _ _; try reflexivity.
  - destruct sx, sy; reflexivity.
  - unfold SFadd. apply binary_normalize_not_nan.
Qed.
End FloatFacts.

Lemma compare_cont_Eq_antisym (p q : positive) :
  Pos.compare_cont Eq q p = CompOpp (Pos.compare_cont Eq p q).
Proof. exact (Pos.compare_antisym p q). Qed.

(** [SFcompare] is antisymmetric and reverses under negation, whether or
    not the operands are normalised. *)
Lemma SFcompare_antisym x y :
  SFcompare y x = option_map CompOpp (SFcompare x y).
Proof.
  destruct x as [sx|sx| |sx mx ex], y as [sy|sy| |sy my ey]; simpl;
    try reflexivity;
    try (destruct sx; reflexivity); try (destruct sy; reflexivity);
    try (destruct sx, sy; reflexivity).
  destruct sx, sy; try reflexivity;
    rewrite (Z.compare_antisym ex ey);
    destruct (ex ?= ey); simpl; try reflexivity;
    rewrite (compare_cont_Eq_antisym mx my); reflexivity.
Qed.

Lemma SFcompare_opp x y :
  SFcompare (SFopp x) (SFopp y) = SFcompare y x.
Proof.
  destruct x as [sx|sx| |sx mx ex], y as [sy|sy| |sy my ey]; simpl;
    try reflexivity;
    try (destruct sx; reflexivity); try (destruct sy; reflexivity);
    try (destruct sx, sy; reflexivity).
  destruct sx, sy; simpl; try reflexivity;
    rewrite (Z.compare_antisym ex ey);
    destruct (ex ?= ey); simpl; try reflexivity;
    rewrite (compare_cont_Eq_antisym mx my);
    try rewrite CompOpp_involutive; reflexivity.
Qed.

Lemma SFcompare_refl x : is_nan x = false -> SFcompare x x = Some Eq.
Proof.
  destruct x as [sx|sx| |sx mx ex]; simpl; try discriminate; intros _.
  - reflexivity.
  - destruct sx; reflexivity.
  - rewrite Z.compare_refl.
    assert (Pos.compare_cont Eq mx mx = Eq) as -> by apply Pos.compare_refl.
    destruct sx; reflexivity.
Qed.

Lemma SFopp_involutive x : SFopp (SFopp x) = x.
Proof. destruct x; simpl; try rewrite negb_involutive; reflexivity. Qed.

Lemma SFleb_refl x : is_nan x = false -> SFleb x x = true.
Proof. intros Hx. unfold SFleb. rewrite (SFcompare_refl x Hx). reflexivity. Qed.

(** A non-negative finite limit is [+0], [-0] or a positive finite number. *)
Lemma nonneg_finite_limit mx :
  is_finite mx = true -> SFleb (S754_zero false) mx = true ->
  SFabs (SFopp mx) = SFabs mx /\ SFleb (SFabs mx) mx = true.
Proof.
  destruct mx as [s|s| |s m e]; try discriminate; intros _ H0.
  - split; reflexivity.
  - destruct s; [discriminate|]. split; [reflexivity|].
    apply (SFleb_refl (S754_finite false m e)). reflexivity.
Qed.

(** The clamp of [update_pid]: whatever non-NaN value comes in, a finite
    value no larger in magnitude than the limit comes out. *)
Lemma constrain_float_symmetric_bound x mx :
  is_nan x = false -> is_finite mx = true -> SFleb (S754_zero false) mx = true ->
  is_finite (constrain_float x (F32.opp mx) mx) = true /\
  F32.leb (F32.abs (constrain_float x (F32.opp mx) mx)) mx = true.
Proof.
  intros Hx Hf H0.
  destruct (nonneg_finite_limit mx Hf H0) as [Habs Hle].
  unfold constrain_float, F32.ltb, F32.leb, F32.abs, F32.opp, SFltb, gtb.
  destruct (SFcompare x (SFopp mx)) as [c1|] eqn:E1.
  2:{ destruct x, mx; try discriminate; destruct s; discriminate. }
  destruct (SFcompare x mx) as [c2|] eqn:E2.
  2:{ destruct x, mx; discriminate. }
  assert (Hlow : c1 = Lt ->
                 is_finite (SFopp mx) = true /\ SFleb (SFabs (SFopp mx)) mx = true).
  { intros _. rewrite Habs. split; [|exact Hle]. destruct mx; auto. }
  assert (Hmid : c1 <> Lt -> c2 <> Gt ->
                 is_finite x = true /\ SFleb (SFabs x) mx = true).
  { intros N1 N2.
    destruct x as [s|s| |s m e]; try discriminate.
    - split; [reflexivity | exact H0].
    - exfalso. destruct mx as [s'|s'| |s' m' e']; try discriminate;
        destruct s; simpl in E1, E2; try destruct s'; congruence.
    - split; [reflexivity|]. destruct s; simpl.
      + change (S754_finite false m e) with (SFopp (S754_finite true m e)).
        unfold SFleb. rewrite <- (SFopp_involutive mx) at 1.
        rewrite SFcompare_opp, (SFcompare_antisym (S754_finite true m e)), E1.
        destruct c1; simpl; congruence.
      + unfold SFleb. rewrite E2. destruct c2; congruence. }
  destruct c1; try (apply Hlow; reflexivity);
    destruct c2; try (split; [exact Hf | exact Hle]);
    apply Hmid; congruence.
Qed.

Lemma all_from_spec P n : forall z,
  all_from P z n = true -> forall k, z <= k < z + Z.of_nat n -> P k = true.
Proof.
  induction n as [|n IH]; intros z Hall k Hk.
  - simpl in Hk. lia.
  - simpl in Hall. apply andb_true_iff in Hall as [Hz Hrest].
  destruct (Z.eq_dec k z) as [->|Hne]; [exact Hz|].
  apply (IH (z + 1) Hrest). lia.
Qed.

Section Casts.
Context `{FloatCast}.

Lemma float_to_uint16_range x : 0 <= float_to_uint16 x < 65536.
Proof.
  unfold float_to_uint16, to_uint16.
  destruct (trunc x) as [n|]; [|apply Z.mod_pos_bound; lia].
  destruct ((0 <=? n) && (n <? 65536)) eqn:E; [|apply Z.mod_pos_bound; lia].
  apply andb_true_iff in E as [E1 E2]. lia.
Qed.

(** On a [uint16_t] the float clamp is the integer clamp; checked on
    each of the 65536 values. *)
Lemma constrain_pulse_spec z :
  0 <= z < 65536 -> constrain_pulse z = Z.max MOTOR_MIN (Z.min z MOTOR_MAX).
Proof.
  intros Hz.
  assert (Hall : all_from (fun k => constrain_pulse k =? Z.max MOTOR_MIN (Z.min k MOTOR_MAX))
                          0 (Z.to_nat 65536) = true) by (vm_compute; reflexivity).
  apply Z.eqb_eq. apply (all_from_spec _ _ _ Hall). lia.
Qed.
End Casts.

(** ** What the navigation stage leaves alone *)

Lemma some_eq {A} (a b : A) : Some a = Some b -> a = b.
Proof. intros E. injection E as E. exact E. Qed.

(** A returned state: replace it by the expression that produced it. *)
Ltac returned := let E := fresh "E" in intros E; apply some_eq in E; subst.

Lemma navigation_frame_refl s : navigation_frame s s.
Proof. repeat split. Qed.

Lemma navigation_frame_trans s1 s2 s3 :
  navigation_frame s1 s2 -> navigation_frame s2 s3 -> navigation_frame s1 s3.
Proof.
  unfold navigation_frame.
  intros (A1 & A2 & A3 & A4 & A5 & A6 & A7 & A8 & A9)
         (B1 & B2 & B3 & B4 & B5 & B6 & B7 & B8 & B9).
  repeat split; congruence.
Qed.

Section Arming.
Context `{FloatCast} `{LibM}.

Lemma altitude_hold_frame s :
  navigation_frame s (altitude_hold_controller s)
  /\ armed (cmd (altitude_hold_controller s)) = armed (cmd s).
Proof.
  unfold altitude_hold_controller.
  destruct (flight_mode (cmd s) <? MODE_ALTITUDE_HOLD); repeat split.
Qed.

Lemma set_target_alt_frame (b : bool) v s :
  navigation_frame s (if b then with_cmd (set_target_alt v (cmd s)) s else s)
  /\ armed (cmd (if b then with_cmd (set_target_alt v (cmd s)) s else s)) = armed (cmd s).
Proof. destruct b; repeat split. Qed.

Lemma position_hold_frame fuel s s' :
  position_hold_controller fuel s = Some s' ->
  navigation_frame s s' /\ armed (cmd s') = armed (cmd s).
Proof.
  unfold position_hold_controller.
  destruct ((flight_mode (cmd s) <? MODE_POSITION_HOLD) || negb (fix_valid (gps s))).
  - returned. repeat split.
  - destruct (get_bearing_deg fuel _ _); [|discriminate].
    returned. repeat split.
Qed.

Lemma return_to_home_frame fuel s s' :
  return_to_home_controller fuel s = Some s' ->
  navigation_frame s s'
  /\ (armed (cmd s) = false -> armed (cmd s') = false)
  /\ (fix_valid (gps s) = false -> armed (cmd s') = armed (cmd s)).
Proof.
  unfold return_to_home_controller.
  destruct (fix_valid (gps s)) eqn:Hfix.
  2:{ rewrite orb_true_r. returned. repeat split; auto. }
  destruct (negb (flight_mode (cmd s) =? MODE_RTH)); simpl.
  { returned. repeat split; auto. }
  destruct (land_condition s).
  { returned. repeat split; auto. discriminate. }
  match goal with |- context [position_hold_controller fuel ?x] =>
    set (s1 := x); destruct (position_hold_controller fuel s1) as [s2|] eqn:Hp end;
    [|discriminate].
  apply position_hold_frame in Hp as (Hn & Ha).
  assert (Hn1 : navigation_frame s s1 /\ armed (cmd s1) = armed (cmd s)).
  { subst s1. destruct (F32.ltb (altitude (baro s)) RTH_ALTITUDE); repeat split. }
  destruct Hn1 as (Hn1 & Ha1).
  pose proof (navigation_frame_trans _ _ _ Hn1 Hn) as Hn2.
  returned.
  match goal with |- context [if ?c then _ else _] =>
    destruct (set_target_alt_frame c (F32.lit 5 10) s2) as (Hn3 & Ha3) end.
  split; [exact (navigation_frame_trans _ _ _ Hn2 Hn3)|].
  rewrite Ha3, Ha, Ha1. split; [auto | discriminate].
Qed.

Lemma obstacle_avoidance_frame s :
  navigation_frame s (obstacle_avoidance s)
  /\ armed (cmd (obstacle_avoidance s)) = armed (cmd s).
Proof.
  unfold obstacle_avoidance.
  destruct (negb (detected (obstacle s))); [repeat split|].
  destruct (F32.ltb (distance (obstacle s)) OBSTACLE_DISTANCE); repeat split.
Qed.

Lemma safety_check_armed s :
  armed (cmd (safety_check s)) =
  armed (cmd s) && negb (attitude_unsafe (angles (imu s))).
Proof.
  unfold safety_check, attitude_unsafe.
  destruct (gtb (F32.abs (roll (angles (imu s)))) MAX_TILT_ANGLE),
           (gtb (F32.abs (pitch (angles (imu s)))) MAX_TILT_ANGLE),
           (is_nan (roll (angles (imu s)))), (is_nan (pitch (angles (imu s))));
    cbn [orb cmd with_cmd armed set_armed flight_mode gps];
    (destruct ((MODE_POSITION_HOLD <=? flight_mode (cmd s)) && negb (fix_valid (gps s)));
     cbn [cmd with_cmd armed set_mode negb andb];
     rewrite ?andb_false_r, ?andb_true_r; reflexivity).
Qed.

Lemma safety_check_mode s :
  flight_mode (cmd (safety_check s)) =
  if (MODE_POSITION_HOLD <=? flight_mode (cmd s)) && negb (fix_valid (gps s))
  then MODE_ALTITUDE_HOLD else flight_mode (cmd s).
Proof.
  unfold safety_check.
  destruct (gtb (F32.abs (roll (angles (imu s)))) MAX_TILT_ANGLE
            || gtb (F32.abs (pitch (angles (imu s)))) MAX_TILT_ANGLE),
           (is_nan (roll (angles (imu s))) || is_nan (pitch (angles (imu s))));
    cbn [cmd with_cmd armed set_armed flight_mode gps];
    (destruct ((MODE_POSITION_HOLD <=? flight_mode (cmd s)) && negb (fix_valid (gps s)));
     reflexivity).
Qed.

(** [safety_check] writes [cmd.armed] and [cmd.flight_mode] only. *)
Lemma safety_check_frame s :
  imu (safety_check s) = imu s /\ gps (safety_check s) = gps s
  /\ motors (safety_check s) = motors s
  /\ throttle (cmd (safety_check s)) = throttle (cmd s)
  /\ setpoint (cmd (safety_check s)) = setpoint (cmd s)
  /\ pid_roll (safety_check s) = pid_roll s
  /\ pid_pitch (safety_check s) = pid_pitch s
  /\ pid_yaw (safety_check s) = pid_yaw s.
Proof.
  unfold safety_check.
  destruct (gtb (F32.abs (roll (angles (imu s)))) MAX_TILT_ANGLE
            || gtb (F32.abs (pitch (angles (imu s)))) MAX_TILT_ANGLE),
           (is_nan (roll (angles (imu s))) || is_nan (pitch (angles (imu s))));
    cbn [cmd with_cmd armed set_armed flight_mode gps];
    (destruct ((MODE_POSITION_HOLD <=? flight_mode (cmd s)) && negb (fix_valid (gps s)));
     repeat split).
Qed.

Lemma stabilize_and_mix_frame s :
  cmd (stabilize_and_mix s) = cmd s
  /\ imu (stabilize_and_mix s) = imu s
  /\ gps (stabilize_and_mix s) = gps s.
Proof.
  unfold stabilize_and_mix. destruct (negb (armed (cmd s))); repeat split.
Qed.

(** What reaches [safety_check] in an iteration that completes. *)
Lemma control_tick_inv fuel raw s s' :
  control_tick fuel raw s = Some s' ->
  exists s0,
    s' = stabilize_and_mix (safety_check s0)
    /\ navigation_frame (with_imu (compute_angles (read_imu_data raw (imu s))) s) s0
    /\ (armed (cmd s) = false -> armed (cmd s0) = false)
    /\ (fix_valid (gps s) = false -> armed (cmd s0) = armed (cmd s)).
Proof.
  unfold control_tick.
  set (sa := with_imu (compute_angles (read_imu_data raw (imu s))) s).
  assert (Ha : armed (cmd sa) = armed (cmd s)) by reflexivity.
  assert (Hg : gps sa = gps s) by reflexivity.
  destruct (flight_mode_logic fuel sa) as [sb|] eqn:Hb; [|discriminate].
  assert (Hsb : navigation_frame sa sb
                /\ (armed (cmd sa) = false -> armed (cmd sb) = false)
                /\ (fix_valid (gps sa) = false -> armed (cmd sb) = armed (cmd sa))).
  { revert Hb. unfold flight_mode_logic.
    destruct ((flight_mode (cmd sa) =? MODE_ALTITUDE_HOLD)
              || (flight_mode (cmd sa) =? MODE_POSITION_HOLD)
              || (flight_mode (cmd sa) =? MODE_AUTO)).
    - returned. destruct (altitude_hold_frame sa) as (Hn & ->). auto.
    - destruct (flight_mode (cmd sa) =? MODE_RTH).
      + destruct (return_to_home_controller fuel sa) as [sr|] eqn:Hr; [|discriminate].
        returned. apply return_to_home_frame in Hr as (Hn1 & H1 & H2).
        destruct (altitude_hold_frame sr) as (Hn2 & ->).
        split; [exact (navigation_frame_trans _ _ _ Hn1 Hn2) | auto].
      + returned. split; [apply navigation_frame_refl | auto]. }
  destruct Hsb as (Hnb & Hb1 & Hb2).
  match goal with |- match ?x with _ => _ end = _ -> _ =>
    destruct x as [sc|] eqn:Hc; [|discriminate] end.
  assert (Hsc : navigation_frame sb sc /\ armed (cmd sc) = armed (cmd sb)).
  { destruct (MODE_POSITION_HOLD <=? flight_mode (cmd sb)).
    - exact (position_hold_frame _ _ _ Hc).
    - apply some_eq in Hc. subst sc. split; [apply navigation_frame_refl | reflexivity]. }
  destruct Hsc as (Hnc & Hc1).
  returned. exists (obstacle_avoidance sc).
  destruct (obstacle_avoidance_frame sc) as (Hno & ->).
  split; [reflexivity|].
  split; [exact (navigation_frame_trans _ _ _ (navigation_frame_trans _ _ _ Hnb Hnc) Hno)|].
  rewrite Hc1. split; auto.
Qed.
End Arming.

(** ** Position hold *)

Section PositionHold.
Context `{LibM}.

Lemma position_hold_inactive fuel s :
  flight_mode (cmd s) < MODE_POSITION_HOLD \/ fix_valid (gps s) = false ->
  position_hold_controller fuel s = Some s.
Proof.
  intros [Hm | Hf]; unfold position_hold_controller.
  - apply Z.ltb_lt in Hm. rewrite Hm. reflexivity.
  - rewrite Hf, orb_true_r. reflexivity.
Qed.

(** C8. Below PositionHold, or without a valid fix,
    [position_hold_controller] returns at once, whatever the fuel, with the
    state it was given: the roll and pitch setpoints and the four position
    and velocity PIDs are untouched. *)
Theorem position_hold_skipped fuel s :
  flight_mode (cmd s) < MODE_POSITION_HOLD \/ fix_valid (gps s) = false ->
  exists s',
    position_hold_controller fuel s = Some s'
    /\ s' = s
    /\ roll (setpoint (cmd s')) = roll (setpoint (cmd s))
    /\ pitch (setpoint (cmd s')) = pitch (setpoint (cmd s))
    /\ position_pids s' = position_pids s.
Proof.
  intros Hskip. exists s. rewrite (position_hold_inactive fuel s Hskip).
  repeat split.
Qed.

(** One active pass: each of the four PIDs gets one [update_pid]. *)
Lemma position_hold_active fuel s bearing :
  MODE_POSITION_HOLD <= flight_mode (cmd s) ->
  fix_valid (gps s) = true ->
  get_bearing_deg fuel (position (gps s)) (target_position (cmd s)) = Some bearing ->
  exists s',
    position_hold_controller fuel s = Some s'
    /\ position_pids s' =
       position_pid_pass
         (error_north (get_distance_meters (position (gps s)) (target_position (cmd s)))
                      bearing)
         (error_east (get_distance_meters (position (gps s)) (target_position (cmd s)))
                     bearing)
         (vel_north (gps s)) (vel_east (gps s)) (position_pids s)
    /\ target_position (cmd s') = target_position (cmd s)
    /\ navigation_frame s s'
    /\ armed (cmd s') = armed (cmd s).
Proof.
  intros Hm Hf Hb. unfold position_hold_controller.
  apply Z.ltb_ge in Hm. rewrite Hm, Hf, Hb. cbn [orb negb].
  eexists. split; [reflexivity|]. repeat split.
Qed.
End PositionHold.

(** C8, on an input: Stabilize mode, as left by [control_system_init]. *)
Lemma position_hold_skipped_witness :
  exists s',
    @position_hold_controller small_angle_libm 0 control_system_init = Some s'
    /\ s' = control_system_init
    /\ roll (setpoint (cmd s')) = roll (setpoint (cmd control_system_init))
    /\ pitch (setpoint (cmd s')) = pitch (setpoint (cmd control_system_init))
    /\ position_pids s' = position_pids control_system_init.
Proof.
  apply (@position_hold_skipped small_angle_libm 0%nat control_system_init).
  left. reflexivity.
Defined.

Section Safety.
Context `{FloatCast} `{LibM}.

Lemma api_step_keeps_disarmed c s :
  is_arm c = false -> armed (cmd s) = false -> armed (cmd (api_step c s)) = false.
Proof. destruct c; simpl; intros Hc Hs; try exact Hs; try reflexivity; discriminate. Qed.

Lemma control_tick_keeps_disarmed fuel raw s s' :
  control_tick fuel raw s = Some s' -> armed (cmd s) = false -> armed (cmd s') = false.
Proof.
  intros Ht Hs.
  destruct (control_tick_inv _ _ _ _ Ht) as (s0 & -> & _ & Hd & _).
  destruct (stabilize_and_mix_frame (safety_check s0)) as (-> & _).
  rewrite safety_check_armed, (Hd Hs). reflexivity.
Qed.

(** Without a call of [arm_motors], a disarmed craft stays disarmed. *)
Lemma run_keeps_disarmed evs : forall s s',
  forallb (fun e => negb (is_arm_event e)) evs = true ->
  run evs s = Some s' -> armed (cmd s) = false -> armed (cmd s') = false.
Proof.
  induction evs as [|e evs IH]; intros s s' Hno Hrun Hs.
  - apply some_eq in Hrun. subst s'. exact Hs.
  - cbn [forallb] in Hno. apply andb_true_iff in Hno as [He Hno].
    destruct e as [fuel raw | c]; cbn [run] in Hrun.
    + destruct (control_tick fuel raw s) as [s1|] eqn:Ht; [|discriminate].
      apply (IH s1 s' Hno Hrun). exact (control_tick_keeps_disarmed _ _ _ _ Ht Hs).
    + apply (IH _ s' Hno Hrun). apply api_step_keeps_disarmed; [|exact Hs].
      apply negb_true_iff in He. exact He.
Qed.

(** C1. If the attitude estimate at the end of an iteration has |roll| > 45,
    |pitch| > 45, or a NaN roll or pitch, the iteration ends disarmed, and
    the craft stays disarmed through any later iterations and API calls
    until [arm_motors] is called: nothing else sets the flag. *)
Theorem unsafe_attitude_disarms fuel raw s s' :
  control_tick fuel raw s = Some s' ->
  attitude_unsafe (angles (imu s')) = true ->
  armed (cmd s') = false
  /\ forall evs s'',
       forallb (fun e => negb (is_arm_event e)) evs = true ->
       run evs s' = Some s'' -> armed (cmd s'') = false.
Proof.
  intros Ht Hu.
  assert (Hd : armed (cmd s') = false).
  { destruct (control_tick_inv _ _ _ _ Ht) as (s0 & -> & _).
    destruct (stabilize_and_mix_frame (safety_check s0)) as (Hc & Hi & _).
    rewrite Hi in Hu. destruct (safety_check_frame s0) as (Hi' & _).
    rewrite Hi' in Hu. rewrite Hc, safety_check_armed, Hu.
    apply andb_false_r. }
  split; [exact Hd|].
  intros evs s'' Hno Hrun. exact (run_keeps_disarmed evs s' s'' Hno Hrun Hd).
Qed.

Lemma control_tick_without_fix fuel raw s :
  fix_valid (gps s) = false -> exists s', control_tick fuel raw s = Some s'.
Proof.
  intros Hf. unfold control_tick.
  set (sa := with_imu (compute_angles (read_imu_data raw (imu s))) s).
  assert (Hga : fix_valid (gps sa) = false) by exact Hf.
  assert (Hb : exists sb, flight_mode_logic fuel sa = Some sb /\ gps sb = gps sa).
  { unfold flight_mode_logic.
    destruct ((flight_mode (cmd sa) =? MODE_ALTITUDE_HOLD)
              || (flight_mode (cmd sa) =? MODE_POSITION_HOLD)
              || (flight_mode (cmd sa) =? MODE_AUTO)).
    - eexists; split; [reflexivity|]. apply altitude_hold_frame.
    - destruct (flight_mode (cmd sa) =? MODE_RTH).
      + unfold return_to_home_controller. rewrite Hga, orb_true_r.
        eexists; split; [reflexivity|]. apply altitude_hold_frame.
      + eexists; split; reflexivity. }
  destruct Hb as (sb & -> & Hgb).
  destruct (MODE_POSITION_HOLD <=? flight_mode (cmd sb)).
  - rewrite position_hold_inactive by (right; rewrite Hgb; exact Hga).
    eexists; reflexivity.
  - eexists; reflexivity.
Qed.

(** C7. In an iteration where [cmd.flight_mode] is at or above PositionHold
    and [gps.fix_valid] is false, [safety_check] runs on a state [s0] with
    that same mode and GPS snapshot (no controller ahead of it writes
    either), the iteration completes for any fuel, it ends in AltitudeHold,
    and the armed flag is what it was unless the attitude itself is
    unsafe. *)
Theorem gps_loss_demotes fuel raw s :
  MODE_POSITION_HOLD <= flight_mode (cmd s) ->
  fix_valid (gps s) = false ->
  exists s0 s',
    control_tick fuel raw s = Some s'
    /\ s' = stabilize_and_mix (safety_check s0)
    /\ flight_mode (cmd s0) = flight_mode (cmd s)
    /\ gps s0 = gps s
    /\ flight_mode (cmd s') = MODE_ALTITUDE_HOLD
    /\ (attitude_unsafe (angles (imu s')) = false ->
        armed (cmd s') = armed (cmd s0) /\ armed (cmd s0) = armed (cmd s)).
Proof.
  intros Hm Hf.
  destruct (control_tick_without_fix fuel raw s Hf) as (s' & Ht).
  destruct (control_tick_inv _ _ _ _ Ht) as (s0 & Hs' & Hn & _ & Ha).
  exists s0, s'. split; [exact Ht|]. split; [exact Hs'|]. subst s'.
  destruct Hn as (Hm0 & _ & Hg0 & _).
  cbn [with_imu cmd gps] in Hm0, Hg0.
  split; [exact Hm0|]. split; [exact Hg0|].
  destruct (stabilize_and_mix_frame (safety_check s0)) as (-> & -> & _).
  destruct (safety_check_frame s0) as (-> & _).
  rewrite safety_check_mode, safety_check_armed, Hm0, Hg0, Hf.
  apply Z.leb_le in Hm. rewrite Hm. split; [reflexivity|].
  intros ->. split; [apply andb_true_r | exact (Ha Hf)].
Qed.
End Safety.

(** C1, on an input: armed, rolled to 60 degrees, IMU at rest. *)
Lemma unsafe_attitude_disarms_witness :
  exists s',
    @control_tick zero_cast small_angle_libm 0 level_raw
      rolled_over = Some s'
    /\ attitude_unsafe (angles (imu s')) = true
    /\ armed (cmd s') = false.
Proof.
  eexists. split; [reflexivity|]. split; [vm_compute; reflexivity|].
  refine (proj1 (@unsafe_attitude_disarms zero_cast small_angle_libm
                   0%nat level_raw rolled_over _ _ _));
    [reflexivity | vm_compute; reflexivity].
Defined.

(** C7, on an input: PositionHold requested, no satellite in view. *)
Lemma gps_loss_demotes_witness :
  exists s0 s',
    @control_tick zero_cast small_angle_libm 0 level_raw lost_fix = Some s'
    /\ s' = @stabilize_and_mix zero_cast (safety_check s0)
    /\ flight_mode (cmd s0) = flight_mode (cmd lost_fix)
    /\ gps s0 = gps lost_fix
    /\ flight_mode (cmd s') = MODE_ALTITUDE_HOLD
    /\ (attitude_unsafe (angles (imu s')) = false ->
        armed (cmd s') = armed (cmd s0) /\ armed (cmd s0) = armed (cmd lost_fix)).
Proof.
  apply (@gps_loss_demotes zero_cast small_angle_libm 0%nat level_raw lost_fix);
    [vm_compute; discriminate | reflexivity].
Defined.

(** ** Motor outputs *)

Section Mixer.
Context `{FloatCast}.

(** C3. With [cmd.armed] false, [stabilize_and_mix] writes [MOTOR_MIN] to
    all eight channels and leaves the roll, pitch and yaw PIDs (and
    everything else) as they were. *)
Theorem disarmed_mix_idles (s : State) :
  armed (cmd s) = false ->
  stabilize_and_mix s = with_motors idle_motors s
  /\ all_motors (stabilize_and_mix s) = repeat MOTOR_MIN 8
  /\ attitude_pids (stabilize_and_mix s) = attitude_pids s.
Proof.
  intros Hd. unfold stabilize_and_mix. rewrite Hd. repeat split.
Qed.

Lemma constrain_pulse_range z :
  0 <= z < 65536 -> MOTOR_MIN <= constrain_pulse z <= MOTOR_MAX.
Proof.
  intros Hz. rewrite (constrain_pulse_spec z Hz). unfold MOTOR_MIN, MOTOR_MAX. lia.
Qed.

(** Channels 1 to 4 leave the mixer within the pulse range, armed or not,
    whatever the corrections are and whatever an out-of-range conversion
    leaves behind. *)
Lemma mixed_channels_in_range s :
  let m := motors (stabilize_and_mix s) in
  Forall (fun z => MOTOR_MIN <= z <= MOTOR_MAX) [m1 m; m2 m; m3 m; m4 m].
Proof.
  unfold stabilize_and_mix. destruct (negb (armed (cmd s))).
  - cbn [motors with_motors m1 m2 m3 m4]. unfold MOTOR_MIN, MOTOR_MAX.
    repeat constructor; lia.
  - cbn [motors with_motors with_attitude_pids m1 m2 m3 m4].
    repeat constructor; apply constrain_pulse_range, float_to_uint16_range.
Qed.

Lemma idle_mix_frame s :
  armed (cmd s) = false ->
  motors (stabilize_and_mix s) = idle_motors
  /\ attitude_pids (stabilize_and_mix s) = attitude_pids s.
Proof. intros Hd. unfold stabilize_and_mix. rewrite Hd. split; reflexivity. Qed.

(** The armed branch does not assign channels 5 to 8. *)
Lemma armed_mix_reserved_channels s :
  armed (cmd s) = true ->
  let m := motors (stabilize_and_mix s) in
  m5 m = m5 (motors s) /\ m6 m = m6 (motors s)
  /\ m7 m = m7 (motors s) /\ m8 m = m8 (motors s).
Proof.
  intros Ha. unfold stabilize_and_mix. rewrite Ha. repeat split.
Qed.
End Mixer.

(** C3, on an input: the state left by [control_system_init]. *)
Lemma disarmed_mix_idles_witness :
  @stabilize_and_mix zero_cast control_system_init
  = with_motors idle_motors control_system_init
  /\ all_motors (@stabilize_and_mix zero_cast control_system_init) = repeat MOTOR_MIN 8
  /\ attitude_pids (@stabilize_and_mix zero_cast control_system_init)
     = attitude_pids control_system_init.
Proof. apply (@disarmed_mix_idles zero_cast control_system_init). reflexivity. Defined.

Section MotorRange.
Context `{FloatCast} `{LibM}.

(** After an iteration that completes: channels 1 to 4 are in range; a
    disarmed craft has all eight at [MOTOR_MIN]; an armed one has channels
    5 to 8 as they were before the iteration. *)
Lemma control_tick_motors fuel raw s s' :
  control_tick fuel raw s = Some s' ->
  (let m := motors s' in
   Forall (fun z => MOTOR_MIN <= z <= MOTOR_MAX) [m1 m; m2 m; m3 m; m4 m])
  /\ (armed (cmd s') = false -> motors s' = idle_motors)
  /\ (armed (cmd s') = true ->
      m5 (motors s') = m5 (motors s) /\ m6 (motors s') = m6 (motors s)
      /\ m7 (motors s') = m7 (motors s) /\ m8 (motors s') = m8 (motors s)).
Proof.
  intros Ht.
  destruct (control_tick_inv _ _ _ _ Ht) as (s0 & -> & Hn & _).
  destruct Hn as (_ & _ & _ & _ & _ & Hmo & _).
  destruct (stabilize_and_mix_frame (safety_check s0)) as (Hc & _).
  destruct (safety_check_frame s0) as (_ & _ & Hms & _).
  split; [apply mixed_channels_in_range|]. rewrite Hc. split.
  - intros Hd. apply (idle_mix_frame _ Hd).
  - intros Ha. destruct (armed_mix_reserved_channels _ Ha) as (-> & -> & -> & ->).
    rewrite Hms, Hmo. repeat split.
Qed.

(** C2, where the code departs from it: if [arm_motors] is called before
    the first iteration and that iteration ends armed, channels 5 to 8 still
    hold the zero of static initialisation, below [MOTOR_MIN]. *)
Theorem first_armed_tick_reserved_channels fuel raw s' :
  control_tick fuel raw (arm_motors control_system_init) = Some s' ->
  armed (cmd s') = true ->
  let m := motors s' in
  m5 m = 0 /\ m6 m = 0 /\ m7 m = 0 /\ m8 m = 0
  /\ existsb (fun z => negb (pulse_in_range z)) (all_motors s') = true.
Proof.
  intros Ht Ha.
  destruct (control_tick_motors _ _ _ _ Ht) as (_ & _ & Hres).
  destruct (Hres Ha) as (H5 & H6 & H7 & H8).
  cbn zeta. unfold all_motors. rewrite H5, H6, H7, H8.
  repeat split. cbn [existsb].
  change (pulse_in_range (m5 (motors (arm_motors control_system_init)))) with false.
  cbn [negb]. rewrite !orb_true_r. reflexivity.
Qed.
End MotorRange.

(** C2, on an input: armed before the first iteration, IMU at rest. *)
Lemma first_armed_tick_reserved_channels_witness :
  exists s',
    @control_tick zero_cast small_angle_libm 0 level_raw
      (arm_motors control_system_init) = Some s'
    /\ armed (cmd s') = true
    /\ (let m := motors s' in
        m5 m = 0 /\ m6 m = 0 /\ m7 m = 0 /\ m8 m = 0
        /\ existsb (fun z => negb (pulse_in_range z)) (all_motors s') = true).
Proof.
  eexists. split; [reflexivity|]. split; [vm_compute; reflexivity|].
  apply (@first_armed_tick_reserved_channels zero_cast small_angle_libm 0%nat level_raw);
    [reflexivity | vm_compute; reflexivity].
Defined.

(** ** Altitude hold throttle *)

Section Altitude.
Context `{FloatCast}.

Lemma float_to_int16_range x : -32768 <= float_to_int16 x < 32768.
Proof.
  unfold float_to_int16, to_int16.
  assert (Hw : forall z, -32768 <= (z + 32768) mod 65536 - 32768 < 32768)
    by (intros z; pose proof (Z.mod_pos_bound (z + 32768) 65536); lia).
  destruct (trunc x) as [n|]; [|apply Hw].
  destruct ((-32768 <=? n) && (n <? 32768)) eqn:E; [|apply Hw].
  apply andb_true_iff in E as [E1 E2]. lia.
Qed.

(** What [altitude_hold_controller] stores in [cmd.throttle]: the clamp is
    applied to the [uint16_t] the sum was stored in, not to the sum. *)
Lemma altitude_hold_throttle s :
  MODE_ALTITUDE_HOLD <= flight_mode (cmd s) ->
  let s' := altitude_hold_controller s in
  let adj := float_to_int16 (output (pid_velocity_z s')) in
  throttle (cmd s') = Z.max MOTOR_MIN (Z.min (to_uint16 (1500 + adj)) MOTOR_MAX).
Proof.
  intros Hm. unfold altitude_hold_controller.
  apply Z.ltb_ge in Hm. rewrite Hm.
  cbn [cmd with_cmd throttle set_throttle pid_velocity_z with_altitude_pids].
  apply constrain_pulse_spec. apply Z.mod_pos_bound. lia.
Qed.

(** X28. As long as the sum 1500 + (int16_t)throttle_adjust is not negative,
    the throttle stored is that sum clamped to [MOTOR_MIN, MOTOR_MAX]. *)
Lemma altitude_hold_throttle_clamped s :
  MODE_ALTITUDE_HOLD <= flight_mode (cmd s) ->
  let s' := altitude_hold_controller s in
  let adj := float_to_int16 (output (pid_velocity_z s')) in
  0 <= 1500 + adj ->
  throttle (cmd s') = Z.max MOTOR_MIN (Z.min (1500 + adj) MOTOR_MAX).
Proof.
  intros Hm s' adj Hadj. subst s' adj.
  rewrite (altitude_hold_throttle s Hm). unfold to_uint16.
  pose proof (float_to_int16_range
                (output (pid_velocity_z (altitude_hold_controller s)))).
  rewrite Z.mod_small by lia. reflexivity.
Qed.

(** A negative sum wraps around in the [uint16_t] and is clamped from
    above: full throttle. *)
Lemma altitude_hold_throttle_wraps s :
  MODE_ALTITUDE_HOLD <= flight_mode (cmd s) ->
  let s' := altitude_hold_controller s in
  let adj := float_to_int16 (output (pid_velocity_z s')) in
  1500 + adj < 0 ->
  throttle (cmd s') = MOTOR_MAX.
Proof.
  intros Hm s' adj Hadj. subst s' adj.
  rewrite (altitude_hold_throttle s Hm). unfold to_uint16, MOTOR_MIN, MOTOR_MAX.
  pose proof (float_to_int16_range
                (output (pid_velocity_z (altitude_hold_controller s)))).
  set (a := float_to_int16 _) in *.
  replace ((1500 + a) mod 65536) with (1500 + a + 65536); [lia|].
  apply Z.mod_unique with (q := -1); lia.
Qed.

(** C5, where the code departs from it: in AltitudeHold with fresh PIDs,
    level target and a reported climb of 10 m/s, the inner PID asks for
    -2020, so 1500 + throttle_adjust is far below [MOTOR_MIN]; the stored
    throttle is [MOTOR_MAX], not [MOTOR_MIN]. *)
Theorem altitude_hold_negative_sum_full_throttle :
  let s' := altitude_hold_controller climbing_fast in
  let throttle_adjust := output (pid_velocity_z s') in
  MODE_ALTITUDE_HOLD <= flight_mode (cmd climbing_fast)
  /\ trunc throttle_adjust = Some (-2020)
  /\ F32.ltb (F32.add (F32.of_Z 1500) throttle_adjust) (F32.of_Z MOTOR_MIN) = true
  /\ throttle (cmd s') = MOTOR_MAX.
Proof.
  vm_compute. repeat split. discriminate.
Qed.
End Altitude.

(** ** Integrator clamp *)

Lemma update_pid_integral_bounded p sp measured dt :
  is_finite (max_integral p) = true ->
  F32.leb F32.zero (max_integral p) = true ->
  is_finite (integral p) = true ->
  admissible_call (sp, measured, dt) = true ->
  let p' := update_pid p sp measured dt in
  max_integral p' = max_integral p
  /\ is_finite (integral p') = true
  /\ integral_bounded p' = true.
Proof.
  intros Hmax H0 Hi Hc. unfold admissible_call in Hc.
  apply andb_true_iff in Hc as [Hc Hdt].
  apply andb_true_iff in Hc as [Hc Hfdt].
  apply andb_true_iff in Hc as [Hsp Hm].
  cbn zeta. unfold integral_bounded, update_pid.
  cbn [integral max_integral]. split; [reflexivity|].
  apply constrain_float_symmetric_bound; [|exact Hmax|exact H0].
  apply SFadd_finite_not_nan; [exact Hi|].
  apply SFmul_positive_not_nan; [|exact Hfdt|exact Hdt].
  apply SFsub_finite_not_nan; assumption.
Qed.

Lemma run_updates_integral_bounded calls : forall p,
  is_finite (max_integral p) = true ->
  F32.leb F32.zero (max_integral p) = true ->
  is_finite (integral p) = true ->
  integral_bounded p = true ->
  forallb admissible_call calls = true ->
  integral_bounded (run_updates p calls) = true.
Proof.
  induction calls as [|[[sp m] dt] calls IH]; intros p Hmax H0 Hi Hb Hall.
  - exact Hb.
  - cbn [forallb] in Hall. apply andb_true_iff in Hall as [Hc Hall].
    destruct (update_pid_integral_bounded p sp m dt Hmax H0 Hi Hc) as (Hm' & Hi' & Hb').
    unfold run_updates. cbn [fold_left]. apply IH; try assumption; rewrite Hm'; assumption.
Qed.

(** C4, amended: a PID initialised by [init_pid] with a finite
    [max_integral >= 0] keeps |integral| <= max_integral through any finite
    sequence of [update_pid] calls with finite setpoint and measured value
    and finite [dt > 0]. *)
Theorem integral_stays_bounded kp ki kd max_int calls :
  is_finite max_int = true ->
  F32.leb F32.zero max_int = true ->
  forallb admissible_call calls = true ->
  integral_bounded (run_updates (init_pid kp ki kd max_int) calls) = true.
Proof.
  intros Hmax H0 Hall.
  apply run_updates_integral_bounded; try assumption; reflexivity.
Qed.

(** C4, on an input: the roll PID of the source through the two
    overflowing calls. *)
Lemma integral_stays_bounded_witness :
  integral_bounded
    (run_updates (init_pid PID_ROLL_KP PID_ROLL_KI PID_ROLL_KD (F32.of_Z 400))
                 overflowing_calls) = true.
Proof.
  apply integral_stays_bounded; vm_compute; reflexivity.
Defined.

(** C4 as stated fails when [max_integral] is +infinity, which is [>= 0]:
    the clamp lets an infinite integral through, and the opposite infinity
    added to it gives NaN. *)
Lemma integral_unbounded_with_infinite_limit :
  let p := run_updates (init_pid PID_ROLL_KP PID_ROLL_KI PID_ROLL_KD (S754_infinity false))
                       overflowing_calls in
  F32.leb F32.zero (max_integral p) = true
  /\ forallb admissible_call overflowing_calls = true
  /\ integral p = S754_nan
  /\ integral_bounded p = false.
Proof. vm_compute. repeat split. Qed.

(** ** Arming and the attitude integrators *)

Section Rearm.
Context `{FloatCast} `{LibM}.

Lemma api_step_attitude_pids c s : attitude_pids (api_step c s) = attitude_pids s.
Proof. destruct c; reflexivity. Qed.

Lemma disarmed_tick_attitude_pids fuel raw s s' :
  control_tick fuel raw s = Some s' -> armed (cmd s) = false ->
  attitude_pids s' = attitude_pids s.
Proof.
  intros Ht Hd.
  destruct (control_tick_inv _ _ _ _ Ht) as (s0 & -> & Hn & Hd0 & _).
  destruct Hn as (_ & _ & _ & _ & _ & _ & Hr & Hp & Hy).
  assert (Hs : armed (cmd (safety_check s0)) = false)
    by (rewrite safety_check_armed, (Hd0 Hd); reflexivity).
  destruct (idle_mix_frame _ Hs) as (_ & ->).
  destruct (safety_check_frame s0) as (_ & _ & _ & _ & _ & Hr' & Hp' & Hy').
  unfold attitude_pids. rewrite Hr', Hp', Hy', Hr, Hp, Hy. reflexivity.
Qed.

(** C6, amended: [arm_motors] sets the flag and nothing else. From a
    disarmed state, through any iterations and API calls short of
    [arm_motors] and then through [arm_motors] itself, the roll, pitch and
    yaw PIDs keep the state, integral included, that they had when the
    craft was disarmed. *)
Theorem arming_keeps_attitude_pids evs s s' :
  armed (cmd s) = false ->
  forallb (fun e => negb (is_arm_event e)) evs = true ->
  run evs s = Some s' ->
  armed (cmd s') = false
  /\ armed (cmd (arm_motors s')) = true
  /\ attitude_pids (arm_motors s') = attitude_pids s.
Proof.
  revert s. induction evs as [|e evs IH]; intros s Hd Hno Hrun.
  - apply some_eq in Hrun. subst s'. repeat split. exact Hd.
  - cbn [forallb] in Hno. apply andb_true_iff in Hno as [He Hno].
    destruct e as [fuel raw | c]; cbn [run] in Hrun.
    + destruct (control_tick fuel raw s) as [s1|] eqn:Ht; [|discriminate].
      rewrite <- (disarmed_tick_attitude_pids _ _ _ _ Ht Hd).
      apply IH; try assumption.
      exact (control_tick_keeps_disarmed _ _ _ _ Ht Hd).
    + rewrite <- (api_step_attitude_pids c s).
      apply IH; try assumption.
      apply api_step_keeps_disarmed; [|exact Hd].
      apply negb_true_iff in He. exact He.
Qed.
End Rearm.

(** C6, on an input: after [flown_and_landed], one idle iteration and a
    change of mode, then [arm_motors]. *)
Lemma arming_keeps_attitude_pids_witness :
  exists s',
    @run zero_cast small_angle_libm
      [Tick 0 level_raw; Call (SetFlightMode MODE_ALTITUDE_HOLD)] flown_and_landed = Some s'
    /\ armed (cmd s') = false
    /\ armed (cmd (arm_motors s')) = true
    /\ attitude_pids (arm_motors s') = attitude_pids flown_and_landed.
Proof.
  eexists. split; [reflexivity|].
  apply (@arming_keeps_attitude_pids zero_cast small_angle_libm
           [Tick 0 level_raw; Call (SetFlightMode MODE_ALTITUDE_HOLD)] flown_and_landed);
    reflexivity.
Defined.

(** C6 as stated fails: the roll integral accumulated while armed is still
    there after a disarm and a new [arm_motors], and the next armed update
    adds to it. *)
Lemma rearm_keeps_roll_integral :
  armed (cmd flown_and_landed) = false
  /\ armed (cmd (arm_motors flown_and_landed)) = true
  /\ integral (pid_roll (arm_motors flown_and_landed)) = S754_finite true 13421772 (-29)
  /\ SFeqb (integral (pid_roll (arm_motors flown_and_landed))) F32.zero = false
  /\ integral (pid_roll (@stabilize_and_mix zero_cast (arm_motors flown_and_landed)))
     = S754_finite true 13421772 (-28).
Proof. vm_compute. repeat split. Qed.

(** ** Return to home *)

Section ReturnToHome.
Context `{FloatCast} `{LibM}.

Lemma altitude_hold_guidance s :
  position_pids (altitude_hold_controller s) = position_pids s
  /\ target_position (cmd (altitude_hold_controller s)) = target_position (cmd s).
Proof.
  unfold altitude_hold_controller.
  destruct (flight_mode (cmd s) <? MODE_ALTITUDE_HOLD); split; reflexivity.
Qed.

Lemma obstacle_avoidance_position_pids s :
  position_pids (obstacle_avoidance s) = position_pids s.
Proof.
  unfold obstacle_avoidance.
  destruct (negb (detected (obstacle s))); [reflexivity|].
  destruct (F32.ltb (distance (obstacle s)) OBSTACLE_DISTANCE); reflexivity.
Qed.

Lemma safety_check_position_pids s :
  position_pids (safety_check s) = position_pids s.
Proof.
  unfold safety_check.
  destruct (gtb (F32.abs (roll (angles (imu s)))) MAX_TILT_ANGLE
            || gtb (F32.abs (pitch (angles (imu s)))) MAX_TILT_ANGLE),
           (is_nan (roll (angles (imu s))) || is_nan (pitch (angles (imu s))));
    cbn [cmd with_cmd armed set_armed flight_mode gps];
    (destruct ((MODE_POSITION_HOLD <=? flight_mode (cmd s)) && negb (fix_valid (gps s)));
     reflexivity).
Qed.

Lemma stabilize_and_mix_position_pids s :
  position_pids (stabilize_and_mix s) = position_pids s.
Proof.
  unfold stabilize_and_mix. destruct (negb (armed (cmd s))); reflexivity.
Qed.

(** The pass made inside [return_to_home_controller], toward home. *)
Lemma return_to_home_active fuel s bearing :
  flight_mode (cmd s) = MODE_RTH ->
  fix_valid (gps s) = true ->
  land_condition s = false ->
  get_bearing_deg fuel (position (gps s)) (home_position (cmd s)) = Some bearing ->
  exists s',
    return_to_home_controller fuel s = Some s'
    /\ position_pids s' =
       position_pid_pass
         (error_north (get_distance_meters (position (gps s)) (home_position (cmd s)))
                      bearing)
         (error_east (get_distance_meters (position (gps s)) (home_position (cmd s)))
                     bearing)
         (vel_north (gps s)) (vel_east (gps s)) (position_pids s)
    /\ target_position (cmd s') = home_position (cmd s)
    /\ navigation_frame s s'.
Proof.
  intros Hm Hf Hl Hb. unfold return_to_home_controller.
  rewrite Hm, Hf, Hl. cbn [Z.eqb MODE_RTH Pos.eqb negb orb].
  match goal with |- context [position_hold_controller fuel ?x] => set (s1 := x) end.
  assert (Hn1 : navigation_frame s s1 /\ position_pids s1 = position_pids s
                /\ target_position (cmd s1) = home_position (cmd s)).
  { subst s1. destruct (F32.ltb (altitude (baro s)) RTH_ALTITUDE); repeat split. }
  destruct Hn1 as (Hn1 & Hp1 & Ht1).
  pose proof Hn1 as (Hm1 & _ & Hg1 & _ & Hh1 & _).
  destruct (position_hold_active fuel s1 bearing) as (s2 & -> & Hp2 & Ht2 & Hn2 & _).
  { rewrite Hm1, Hm. discriminate. }
  { rewrite Hg1. exact Hf. }
  { rewrite Hg1, Ht1. exact Hb. }
  rewrite Hg1, Ht1, Hp1 in Hp2.
  match goal with |- context [if ?c then _ else _] =>
    destruct (set_target_alt_frame c (F32.lit 5 10) s2) as (Hn3 & _);
    assert (Hp3 : position_pids (if c then with_cmd (set_target_alt (F32.lit 5 10) (cmd s2)) s2
                                 else s2) = position_pids s2
                  /\ target_position (cmd (if c then with_cmd (set_target_alt (F32.lit 5 10)
                                                                             (cmd s2)) s2
                                           else s2)) = target_position (cmd s2))
      by (destruct c; split; reflexivity)
  end.
  destruct Hp3 as (Hp3 & Ht3).
  eexists. split; [reflexivity|].
  rewrite Hp3, Ht3, Hp2, Ht2, Ht1.
  split; [reflexivity|]. split; [reflexivity|].
  exact (navigation_frame_trans _ _ _ (navigation_frame_trans _ _ _ Hn1 Hn2) Hn3).
Qed.

(** C10. An iteration in ReturnToHome with a valid fix and the land
    condition not met, given fuel for the bearing computation, completes,
    and each of the four position and velocity PIDs has then been through
    [update_pid] twice: once in the pass made by
    [return_to_home_controller], once in the pass made by the loop itself,
    both toward home with the same errors and ground velocity. *)
Theorem return_to_home_updates_twice fuel raw s bearing :
  flight_mode (cmd s) = MODE_RTH ->
  fix_valid (gps s) = true ->
  land_condition s = false ->
  get_bearing_deg fuel (position (gps s)) (home_position (cmd s)) = Some bearing ->
  exists s',
    control_tick fuel raw s = Some s'
    /\ let dist := get_distance_meters (position (gps s)) (home_position (cmd s)) in
       let pass := position_pid_pass (error_north dist bearing) (error_east dist bearing)
                                     (vel_north (gps s)) (vel_east (gps s)) in
       position_pids s' = pass (pass (position_pids s)).
Proof.
  intros Hm Hf Hl Hb. unfold control_tick.
  set (sa := with_imu (compute_angles (read_imu_data raw (imu s))) s).
  destruct (return_to_home_active fuel sa bearing Hm Hf Hl Hb)
    as (sb & Hr & Hpb & Htb & Hnb).
  change (position_pids sa) with (position_pids s) in Hpb.
  change (gps sa) with (gps s) in Hpb.
  change (home_position (cmd sa)) with (home_position (cmd s)) in Hpb, Htb.
  pose proof Hnb as (Hmb & _ & Hgb & _ & Hhb & _).
  change (flight_mode (cmd sa)) with (flight_mode (cmd s)) in Hmb.
  change (gps sa) with (gps s) in Hgb.
  unfold flight_mode_logic.
  change (flight_mode (cmd sa)) with (flight_mode (cmd s)). rewrite Hm.
  cbn [Z.eqb MODE_RTH MODE_ALTITUDE_HOLD MODE_POSITION_HOLD MODE_AUTO Pos.eqb orb].
  rewrite Hr.
  destruct (altitude_hold_frame sb) as (Hnc & _).
  destruct (altitude_hold_guidance sb) as (Hpc & Htc).
  set (sc := altitude_hold_controller sb) in *.
  destruct Hnc as (Hmc & _ & Hgc & _).
  assert (Hmode : (MODE_POSITION_HOLD <=? flight_mode (cmd sc)) = true)
    by (rewrite Hmc, Hmb, Hm; reflexivity).
  rewrite Hmode.
  destruct (position_hold_active fuel sc bearing) as (sd & -> & Hpd & _).
  { apply Z.leb_le. exact Hmode. }
  { rewrite Hgc, Hgb. exact Hf. }
  { rewrite Hgc, Hgb, Htc, Htb. exact Hb. }
  rewrite Hgc, Hgb, Htc, Htb, Hpc, Hpb in Hpd.
  eexists. split; [reflexivity|]. cbn zeta.
  rewrite stabilize_and_mix_position_pids, safety_check_position_pids,
          obstacle_avoidance_position_pids.
  exact Hpd.
Qed.

(** X27. In PositionHold and Auto with a valid fix, the iteration completes
    once the bearing is wrapped, and the four position PIDs have gone
    through exactly one pass. *)
Lemma position_hold_updates_once fuel raw s bearing :
  flight_mode (cmd s) = MODE_POSITION_HOLD \/ flight_mode (cmd s) = MODE_AUTO ->
  fix_valid (gps s) = true ->
  get_bearing_deg fuel (position (gps s)) (target_position (cmd s)) = Some bearing ->
  exists s',
    control_tick fuel raw s = Some s'
    /\ let dist := get_distance_meters (position (gps s)) (target_position (cmd s)) in
       position_pids s' =
       position_pid_pass (error_north dist bearing) (error_east dist bearing)
                         (vel_north (gps s)) (vel_east (gps s)) (position_pids s).
Proof.
  intros Hm Hf Hb. unfold control_tick.
  set (sa := with_imu (compute_angles (read_imu_data raw (imu s))) s).
  unfold flight_mode_logic.
  change (flight_mode (cmd sa)) with (flight_mode (cmd s)).
  assert (Hsel : (flight_mode (cmd s) =? MODE_ALTITUDE_HOLD)
                 || (flight_mode (cmd s) =? MODE_POSITION_HOLD)
                 || (flight_mode (cmd s) =? MODE_AUTO) = true)
    by (destruct Hm as [-> | ->]; reflexivity).
  rewrite Hsel.
  destruct (altitude_hold_frame sa) as (Hnc & _).
  destruct (altitude_hold_guidance sa) as (Hpc & Htc).
  set (sc := altitude_hold_controller sa) in *.
  destruct Hnc as (Hmc & _ & Hgc & _).
  change (flight_mode (cmd sa)) with (flight_mode (cmd s)) in Hmc.
  change (gps sa) with (gps s) in Hgc.
  change (target_position (cmd sa)) with (target_position (cmd s)) in Htc.
  change (position_pids sa) with (position_pids s) in Hpc.
  assert (Hmode : (MODE_POSITION_HOLD <=? flight_mode (cmd sc)) = true)
    by (rewrite Hmc; destruct Hm as [-> | ->]; reflexivity).
  rewrite Hmode.
  destruct (position_hold_active fuel sc bearing) as (sd & -> & Hpd & _).
  { apply Z.leb_le. exact Hmode. }
  { rewrite Hgc. exact Hf. }
  { rewrite Hgc, Htc. exact Hb. }
  rewrite Hgc, Htc, Hpc in Hpd.
  eexists. split; [reflexivity|]. cbn zeta.
  rewrite stabilize_and_mix_position_pids, safety_check_position_pids,
          obstacle_avoidance_position_pids.
  exact Hpd.
Qed.
End ReturnToHome.

(** C10, on an input: [returning_home], IMU at rest. *)
Lemma return_to_home_updates_twice_witness :
  exists bearing,
    @get_bearing_deg small_angle_libm 2
      (position (gps returning_home)) (home_position (cmd returning_home)) = Some bearing
    /\ exists s',
         @control_tick zero_cast small_angle_libm 2 level_raw returning_home = Some s'
         /\ let dist := @get_distance_meters small_angle_libm
                          (position (gps returning_home))
                          (home_position (cmd returning_home)) in
            let pass := position_pid_pass
                          (@error_north small_angle_libm dist bearing)
                          (@error_east small_angle_libm dist bearing)
                          (@vel_north small_angle_libm (gps returning_home))
                          (@vel_east small_angle_libm (gps returning_home)) in
            position_pids s' = pass (pass (position_pids returning_home)).
Proof.
  exists (S754_zero true). split; [vm_compute; reflexivity|].
  apply (@return_to_home_updates_twice zero_cast small_angle_libm 2%nat level_raw
           returning_home (S754_zero true)); vm_compute; reflexivity.
Defined.

(** ** Fuel

    Fuel only bounds the two loops of [wrap_360]: a result obtained with
    some fuel is the result with any larger amount, and an angle within one
    turn of [0, 360) needs two units. *)

Lemma wrap_down_mono n k : forall a r,
  wrap_down n a = Some r -> wrap_down (n + k) a = Some r.
Proof.
  induction n as [|n IH]; intros a r; cbn [wrap_down Nat.add]; [discriminate|].
  destruct (geb a (F32.of_Z 360)); [apply IH | trivial].
Qed.

Lemma wrap_up_mono n k : forall a r,
  wrap_up n a = Some r -> wrap_up (n + k) a = Some r.
Proof.
  induction n as [|n IH]; intros a r; cbn [wrap_up Nat.add]; [discriminate|].
  destruct (F32.ltb a F32.zero); [apply IH | trivial].
Qed.

Lemma wrap_360_mono n k a r :
  wrap_360 n a = Some r -> wrap_360 (n + k) a = Some r.
Proof.
  unfold wrap_360. destruct (wrap_down n a) as [a'|] eqn:Hd; [|discriminate].
  intros Hu. rewrite (wrap_down_mono n k a a' Hd). exact (wrap_up_mono n k a' r Hu).
Qed.

Lemma wrap_360_one_turn a :
  geb a (F32.of_Z 360) = false ->
  F32.ltb (F32.add a (F32.of_Z 360)) F32.zero = false ->
  wrap_360 2 a = Some (if F32.ltb a F32.zero then F32.add a (F32.of_Z 360) else a).
Proof.
  intros Hhi Hlo. unfold wrap_360. cbn [wrap_down wrap_up]. rewrite Hhi.
  destruct (F32.ltb a F32.zero); [rewrite Hlo|]; reflexivity.
Qed.

Section FuelMonotone.
Context `{FloatCast} `{LibM}.

Lemma position_hold_controller_mono n k s s' :
  position_hold_controller n s = Some s' ->
  position_hold_controller (n + k) s = Some s'.
Proof.
  unfold position_hold_controller, get_bearing_deg.
  destruct ((flight_mode (cmd s) <? MODE_POSITION_HOLD) || negb (fix_valid (gps s)));
    [trivial|].
  match goal with |- context [wrap_360 n ?a] =>
    destruct (wrap_360 n a) as [b|] eqn:Hw; [|discriminate];
    rewrite (wrap_360_mono n k a b Hw) end.
  trivial.
Qed.

Lemma return_to_home_controller_mono n k s s' :
  return_to_home_controller n s = Some s' ->
  return_to_home_controller (n + k) s = Some s'.
Proof.
  unfold return_to_home_controller.
  destruct (negb (flight_mode (cmd s) =? MODE_RTH) || negb (fix_valid (gps s)));
    [trivial|].
  destruct (land_condition s); [trivial|].
  match goal with |- context [position_hold_controller n ?x] =>
    destruct (position_hold_controller n x) as [s1|] eqn:Hp; [|discriminate];
    rewrite (position_hold_controller_mono n k x s1 Hp) end.
  trivial.
Qed.

Lemma control_tick_mono n k raw s s' :
  control_tick n raw s = Some s' -> control_tick (n + k) raw s = Some s'.
Proof.
  unfold control_tick, flight_mode_logic.
  set (sa := with_imu (compute_angles (read_imu_data raw (imu s))) s).
  destruct ((flight_mode (cmd sa) =? MODE_ALTITUDE_HOLD)
            || (flight_mode (cmd sa) =? MODE_POSITION_HOLD)
            || (flight_mode (cmd sa) =? MODE_AUTO)).
  - set (sb := altitude_hold_controller sa).
    destruct (MODE_POSITION_HOLD <=? flight_mode (cmd sb)); [|trivial].
    destruct (position_hold_controller n sb) as [sc|] eqn:Hp; [|discriminate].
    rewrite (position_hold_controller_mono n k sb sc Hp). trivial.
  - destruct (flight_mode (cmd sa) =? MODE_RTH).
    + destruct (return_to_home_controller n sa) as [sr|] eqn:Hr; [|discriminate].
      rewrite (return_to_home_controller_mono n k sa sr Hr).
      set (sb := altitude_hold_controller sr).
      destruct (MODE_POSITION_HOLD <=? flight_mode (cmd sb)); [|trivial].
      destruct (position_hold_controller n sb) as [sc|] eqn:Hp; [|discriminate].
      rewrite (position_hold_controller_mono n k sb sc Hp). trivial.
    + destruct (MODE_POSITION_HOLD <=? flight_mode (cmd sa)); [|trivial].
      destruct (position_hold_controller n sa) as [sc|] eqn:Hp; [|discriminate].
      rewrite (position_hold_controller_mono n k sa sc Hp). trivial.
Qed.
End FuelMonotone.

(** ** The hover scenario

    Armed in Stabilize at 1500 us with a level estimate and level
    setpoints, the mixer leaves 1500 us on the four active channels. *)
Example hover_stable :
  let s := with_cmd (set_throttle 1500 (cmd (arm_motors control_system_init)))
                    (arm_motors control_system_init) in
  let m := motors (@stabilize_and_mix zero_cast s) in
  [m1 m; m2 m; m3 m; m4 m] = [1500; 1500; 1500; 1500].
Proof. vm_compute. reflexivity. Qed.

(** * Further properties of the source *)

(** ** Stages of an iteration and what they preserve *)

Section StageFacts.
Context `{FloatCast} `{LibM}.

Lemma control_tick_stages fuel raw s :
  control_tick fuel raw s =
  match navigation_stage fuel raw s with
  | Some sc => Some (stabilize_and_mix (safety_check (obstacle_avoidance sc)))
  | None => None
  end.
Proof.
  unfold control_tick, navigation_stage.
  destruct (flight_mode_logic fuel _) as [sb|]; reflexivity.
Qed.

(** A property kept by every assignment the navigation stage can make is
    kept by the stage. *)
Lemma navigation_stage_preserves (P : State -> Prop) :
  (forall s v, P s -> P (with_imu v s)) ->
  (forall s, P s -> P (altitude_hold_controller s)) ->
  (forall fuel s s', P s -> position_hold_controller fuel s = Some s' -> P s') ->
  (forall s, P s -> P (with_cmd (set_armed false (cmd s)) s)) ->
  (forall s v, P s -> P (with_cmd (set_target_alt v (cmd s)) s)) ->
  (forall s v, P s -> P (with_cmd (set_target_pos v (cmd s)) s)) ->
  forall fuel raw s s', P s -> navigation_stage fuel raw s = Some s' -> P s'.
Proof.
  intros Himu Halt Hpos Harm Htalt Htpos fuel raw s s' Hs.
  unfold navigation_stage.
  set (sa := with_imu (compute_angles (read_imu_data raw (imu s))) s).
  assert (Hsa : P sa) by (apply Himu; exact Hs).
  clearbody sa.
  assert (Hrth : forall x x', P x -> return_to_home_controller fuel x = Some x' -> P x').
  { intros x x' Hx. unfold return_to_home_controller.
    destruct (negb (flight_mode (cmd x) =? MODE_RTH) || negb (fix_valid (gps x))).
    { intros E; apply some_eq in E; subst x'; exact Hx. }
    destruct (land_condition x).
    { intros E; apply some_eq in E; subst x'; apply Harm; exact Hx. }
    match goal with |- context [position_hold_controller fuel ?y] =>
      assert (Hy : P y);
      [| destruct (position_hold_controller fuel y) as [z|] eqn:Hz; [|discriminate] ]
    end.
    { apply Htpos. destruct (F32.ltb (altitude (baro x)) RTH_ALTITUDE);
        [apply Htalt|]; exact Hx. }
    pose proof (Hpos _ _ _ Hy Hz) as Hpz.
    intros E; apply some_eq in E; subst x'.
    match goal with |- context [if ?c then _ else _] => destruct c end;
      [apply Htalt|]; exact Hpz. }
  destruct (flight_mode_logic fuel sa) as [sb|] eqn:Hb; [|discriminate].
  assert (Hsb : P sb).
  { revert Hb. unfold flight_mode_logic.
    destruct ((flight_mode (cmd sa) =? MODE_ALTITUDE_HOLD)
              || (flight_mode (cmd sa) =? MODE_POSITION_HOLD)
              || (flight_mode (cmd sa) =? MODE_AUTO)).
    - intros E; apply some_eq in E; subst sb. apply Halt; exact Hsa.
    - destruct (flight_mode (cmd sa) =? MODE_RTH).
      + destruct (return_to_home_controller fuel sa) as [sr|] eqn:Hr; [|discriminate].
        intros E; apply some_eq in E; subst sb. apply Halt. exact (Hrth _ _ Hsa Hr).
      + intros E; apply some_eq in E; subst sb. exact Hsa. }
  destruct (MODE_POSITION_HOLD <=? flight_mode (cmd sb)).
  - intros Hc. exact (Hpos _ _ _ Hsb Hc).
  - intros E; apply some_eq in E; subst s'. exact Hsb.
Qed.

Lemma control_tick_preserves (P : State -> Prop) :
  (forall s v, P s -> P (with_imu v s)) ->
  (forall s, P s -> P (altitude_hold_controller s)) ->
  (forall fuel s s', P s -> position_hold_controller fuel s = Some s' -> P s') ->
  (forall s, P s -> P (with_cmd (set_armed false (cmd s)) s)) ->
  (forall s v, P s -> P (with_cmd (set_target_alt v (cmd s)) s)) ->
  (forall s v, P s -> P (with_cmd (set_target_pos v (cmd s)) s)) ->
  (forall s, P s -> P (obstacle_avoidance s)) ->
  (forall s, P s -> P (safety_check s)) ->
  (forall s, P s -> P (stabilize_and_mix s)) ->
  forall fuel raw s s', P s -> control_tick fuel raw s = Some s' -> P s'.
Proof.
  intros Himu Halt Hpos Harm Htalt Htpos Hobs Hsafe Hmix fuel raw s s' Hs.
  rewrite control_tick_stages.
  destruct (navigation_stage fuel raw s) as [sc|] eqn:Hn; [|discriminate].
  intros E; apply some_eq in E; subst s'.
  apply Hmix, Hsafe, Hobs.
  exact (navigation_stage_preserves P Himu Halt Hpos Harm Htalt Htpos _ _ _ _ Hs Hn).
Qed.

Lemma run_preserves (P : State -> Prop) :
  (forall fuel raw s s', P s -> control_tick fuel raw s = Some s' -> P s') ->
  (forall c s, P s -> P (api_step c s)) ->
  forall evs s s', P s -> run evs s = Some s' -> P s'.
Proof.
  intros Htick Hapi evs. induction evs as [|e evs IH]; intros s s' Hs Hrun.
  - apply some_eq in Hrun. subst s'. exact Hs.
  - destruct e as [fuel raw | c]; cbn [run] in Hrun.
    + destruct (control_tick fuel raw s) as [s1|] eqn:Ht; [|discriminate].
      exact (IH _ _ (Htick _ _ _ _ Hs Ht) Hrun).
    + exact (IH _ _ (Hapi c s Hs) Hrun).
Qed.

End StageFacts.

(** ** The clamp and the angle wraps *)

Lemma SFcompare_defined x y :
  is_nan x = false -> is_nan y = false -> exists c, SFcompare x y = Some c.
Proof.
  destruct x, y; try discriminate; intros _ _; simpl; eauto.
Qed.

Lemma not_ltb_leb x y :
  is_nan x = false -> is_nan y = false -> SFltb x y = false -> SFleb y x = true.
Proof.
  intros Hx Hy. unfold SFltb, SFleb. rewrite (SFcompare_antisym x y).
  destruct (SFcompare_defined x y Hx Hy) as [c ->]. destruct c; simpl; congruence.
Qed.

Lemma not_gtb_leb x y :
  is_nan x = false -> is_nan y = false -> gtb x y = false -> SFleb x y = true.
Proof.
  intros Hx Hy. unfold gtb, SFleb.
  destruct (SFcompare_defined x y Hx Hy) as [c ->]. destruct c; simpl; congruence.
Qed.

Lemma constrain_float_nan lo hi : constrain_float S754_nan lo hi = S754_nan.
Proof. reflexivity. Qed.

Lemma constrain_float_between x lo hi :
  is_nan x = false -> is_nan lo = false -> is_nan hi = false ->
  F32.leb lo hi = true ->
  F32.leb lo (constrain_float x lo hi) = true
  /\ F32.leb (constrain_float x lo hi) hi = true.
Proof.
  intros Hx Hlo Hhi Hle. unfold constrain_float, F32.leb, F32.ltb.
  destruct (SFltb x lo) eqn:E1.
  - split; [apply SFleb_refl; exact Hlo | exact Hle].
  - destruct (gtb x hi) eqn:E2.
    + split; [exact Hle | apply SFleb_refl; exact Hhi].
    + split; [apply not_ltb_leb | apply not_gtb_leb]; assumption.
Qed.

(** The result of a clamp between non-NaN limits is NaN exactly when the
    argument is. *)
Lemma constrain_float_is_nan x lo hi :
  is_nan lo = false -> is_nan hi = false ->
  is_nan (constrain_float x lo hi) = is_nan x.
Proof.
  intros Hlo Hhi. unfold constrain_float.
  destruct x; try reflexivity;
    (destruct (F32.ltb _ lo); [exact Hlo|]; destruct (gtb _ hi); [exact Hhi | reflexivity]).
Qed.

(** X1. [constrain_float] between ordered, non-NaN limits: a NaN argument
    comes back as NaN; any other argument comes back as a value between the
    limits, and unchanged if it was already between them. *)
Theorem constrain_float_in_range x lo hi :
  is_nan lo = false -> is_nan hi = false -> F32.leb lo hi = true ->
  (is_nan x = true -> is_nan (constrain_float x lo hi) = true)
  /\ (is_nan x = false ->
      is_nan (constrain_float x lo hi) = false
      /\ F32.leb lo (constrain_float x lo hi) = true
      /\ F32.leb (constrain_float x lo hi) hi = true)
  /\ (F32.ltb x lo = false -> gtb x hi = false -> constrain_float x lo hi = x).
Proof.
  intros Hlo Hhi Hle. split; [|split].
  - intros Hx. rewrite constrain_float_is_nan; assumption.
  - intros Hx. split; [rewrite constrain_float_is_nan; assumption|].
    apply constrain_float_between; assumption.
  - intros H1 H2. unfold constrain_float. rewrite H1, H2. reflexivity.
Qed.

(** X1, on an input: 30 clamped to [-25, 25]. *)
Lemma constrain_float_in_range_witness :
  (is_nan (F32.of_Z 30) = true ->
   is_nan (constrain_float (F32.of_Z 30) (F32.opp (F32.of_Z 25)) (F32.of_Z 25)) = true)
  /\ (is_nan (F32.of_Z 30) = false ->
      is_nan (constrain_float (F32.of_Z 30) (F32.opp (F32.of_Z 25)) (F32.of_Z 25)) = false
      /\ F32.leb (F32.opp (F32.of_Z 25))
                 (constrain_float (F32.of_Z 30) (F32.opp (F32.of_Z 25)) (F32.of_Z 25)) = true
      /\ F32.leb (constrain_float (F32.of_Z 30) (F32.opp (F32.of_Z 25)) (F32.of_Z 25))
                 (F32.of_Z 25) = true)
  /\ (F32.ltb (F32.of_Z 30) (F32.opp (F32.of_Z 25)) = false ->
      gtb (F32.of_Z 30) (F32.of_Z 25) = false ->
      constrain_float (F32.of_Z 30) (F32.opp (F32.of_Z 25)) (F32.of_Z 25) = F32.of_Z 30).
Proof.
  apply (constrain_float_in_range (F32.of_Z 30) (F32.opp (F32.of_Z 25)) (F32.of_Z 25));
    vm_compute; reflexivity.
Defined.

Lemma wrap_up_result fuel : forall a r,
  wrap_up fuel a = Some r -> F32.ltb r F32.zero = false.
Proof.
  induction fuel as [|n IH]; intros a r; cbn [wrap_up]; [discriminate|].
  destruct (F32.ltb a F32.zero) eqn:E; [apply IH|].
  intros Hr. apply some_eq in Hr. subst r. exact E.
Qed.

Lemma wrap_360_fixed n a :
  geb a (F32.of_Z 360) = false -> F32.ltb a F32.zero = false ->
  wrap_360 (S n) a = Some a.
Proof.
  intros Hhi Hlo. unfold wrap_360. cbn [wrap_down wrap_up]. rewrite Hhi, Hlo. reflexivity.
Qed.

(** X2. When [wrap_360] returns, the result is not below zero; an angle
    that is neither >= 360 nor < 0 (NaN included) comes back unchanged after
    one test of each loop, so a result below 360 is a fixed point. *)
Theorem wrap_360_result fuel a r :
  wrap_360 fuel a = Some r ->
  F32.ltb r F32.zero = false
  /\ (geb r (F32.of_Z 360) = false -> forall n, wrap_360 (S n) r = Some r).
Proof.
  unfold wrap_360 at 1. destruct (wrap_down fuel a) as [a'|]; [|discriminate].
  intros Hr. pose proof (wrap_up_result fuel a' r Hr) as Hlo.
  split; [exact Hlo|]. intros Hhi n. apply wrap_360_fixed; assumption.
Qed.

(** X2, on an input: 725 degrees. *)
Lemma wrap_360_result_witness :
  wrap_360 3 (F32.of_Z 725) = Some (F32.of_Z 5)
  /\ F32.ltb (F32.of_Z 5) F32.zero = false
  /\ (geb (F32.of_Z 5) (F32.of_Z 360) = false ->
      forall n, wrap_360 (S n) (F32.of_Z 5) = Some (F32.of_Z 5)).
Proof.
  split; [vm_compute; reflexivity|].
  apply (wrap_360_result 3 (F32.of_Z 725) (F32.of_Z 5)). vm_compute; reflexivity.
Defined.

Lemma wrap_180_up_result fuel : forall a r,
  wrap_180_up fuel a = Some r -> F32.ltb r (F32.opp (F32.of_Z 180)) = false.
Proof.
  induction fuel as [|n IH]; intros a r; cbn [wrap_180_up]; [discriminate|].
  destruct (F32.ltb a (F32.opp (F32.of_Z 180))) eqn:E; [apply IH|].
  intros Hr. apply some_eq in Hr. subst r. exact E.
Qed.

(** X3. When [wrap_180] returns, the result is not below -180; an angle
    that is neither > 180 nor < -180 (NaN included) comes back unchanged,
    so a result that is not above 180 is a fixed point. *)
Theorem wrap_180_result fuel a r :
  wrap_180 fuel a = Some r ->
  F32.ltb r (F32.opp (F32.of_Z 180)) = false
  /\ (gtb r (F32.of_Z 180) = false -> forall n, wrap_180 (S n) r = Some r).
Proof.
  unfold wrap_180 at 1. destruct (wrap_180_down fuel a) as [a'|]; [|discriminate].
  intros Hr. pose proof (wrap_180_up_result fuel a' r Hr) as Hlo.
  split; [exact Hlo|]. intros Hhi n.
  unfold wrap_180. cbn [wrap_180_down wrap_180_up]. rewrite Hhi, Hlo. reflexivity.
Qed.

(** X3, on an input: -545 degrees. *)
Lemma wrap_180_result_witness :
  wrap_180 3 (F32.of_Z (-545)) = Some (F32.of_Z 175)
  /\ F32.ltb (F32.of_Z 175) (F32.opp (F32.of_Z 180)) = false
  /\ (gtb (F32.of_Z 175) (F32.of_Z 180) = false ->
      forall n, wrap_180 (S n) (F32.of_Z 175) = Some (F32.of_Z 175)).
Proof.
  split; [vm_compute; reflexivity|].
  apply (wrap_180_result 3 (F32.of_Z (-545)) (F32.of_Z 175)). vm_compute; reflexivity.
Defined.

(** ** The upper end of [wrap_360] *)

Lemma shr_1_nonneg_spec m r s :
  0 <= m -> shr_1 (Build_shr_record m r s) = Build_shr_record (Z.div2 m) (Z.odd m) (r || s).
Proof.
  intros Hm. destruct m as [|p|p]; [reflexivity| |lia].
  destruct p; reflexivity.
Qed.

Lemma shr_1_shifted N k x :
  0 <= k -> shifted N k x -> shifted N (k + 1) (shr_1 x).
Proof.
  intros Hk (Hm & rest & Hrest & HN & Hs & Hlt).
  destruct x as [m r s]. cbn [shr_m shr_r shr_s] in *.
  rewrite (shr_1_nonneg_spec m r s Hm). cbn [shr_m shr_r shr_s].
  pose proof (Z.div2_odd m) as Hdiv.
  assert (Hd2 : 0 <= Z.div2 m) by (apply Z.div2_nonneg; exact Hm).
  assert (Hbit : (if Z.odd m then 2 ^ k else 0) = Z.b2z (Z.odd m) * 2 ^ k)
    by (destruct (Z.odd m); cbn [Z.b2z]; lia).
  assert (Hb01 : 0 <= Z.b2z (Z.odd m) <= 1) by (destruct (Z.odd m); cbn; lia).
  split; [exact Hd2|].
  exists ((if r then 2 ^ (k - 1) else 0) + rest).
  cbn [shr_m shr_r shr_s].
  replace (k + 1 - 1) with k by lia. rewrite Hbit.
  set (o := Z.b2z (Z.odd m)) in *. clearbody o.
  set (q := Z.div2 m) in *. clearbody q.
  assert (Hpow : 2 ^ (k + 1) = 2 * 2 ^ k) by (rewrite Z.pow_add_r by lia; lia).
  assert (Hpos : 0 < 2 ^ k) by (apply Z.pow_pos_nonneg; lia).
  rewrite Hpow. set (P := 2 ^ k) in *.
  destruct Hlt as [Hlt | (Hk0 & Hr0 & Hrest0)].
  - assert (Hk1 : 1 <= k).
    { destruct (Z.eq_dec k 0) as [Hz |]; [|lia]. rewrite Hz in Hlt. cbn in Hlt. lia. }
    assert (Hhalf : P = 2 * 2 ^ (k - 1)).
    { subst P. replace k with (k - 1 + 1) at 1 by lia. rewrite Z.pow_add_r by lia. lia. }
    set (Q := 2 ^ (k - 1)) in *. clearbody Q P.
    split; [destruct r; lia|].
    split; [destruct r; nia|].
    split; [|left; destruct r; lia].
    destruct r; cbn [orb]; [split; [lia | reflexivity]|].
    rewrite Hs. split; lia.
  - subst r rest. assert (HP : P = 1) by (subst P; rewrite Hk0; reflexivity).
    rewrite Hk0. cbn [orb]. change (2 ^ (0 - 1)) with 0. clearbody P.
    split; [lia|]. split; [nia|].
    split; [|left; lia].
    split; [intros Hst; apply Hs in Hst; lia | lia].
Qed.

Lemma iter_pos_shifted N p : forall k x,
  0 <= k -> shifted N k x -> shifted N (k + Zpos p) (iter_pos shr_1 p x).
Proof.
  induction p as [p IH | p IH |]; intros k x Hk Hx; cbn [iter_pos].
  - replace (k + Zpos p~1) with (k + 1 + Zpos p + Zpos p) by lia.
    apply IH; [lia|]. apply IH; [lia|]. apply shr_1_shifted; assumption.
  - replace (k + Zpos p~0) with (k + Zpos p + Zpos p) by lia.
    apply IH; [lia|]. apply IH; assumption.
  - apply shr_1_shifted; assumption.
Qed.

Lemma iter_xO_pow2 p k : Zpos (Pos.iter xO p k) = Zpos p * 2 ^ Zpos k.
Proof.
  induction k as [|k IH] using Pos.peano_ind.
  - cbn [Pos.iter]. rewrite Pos2Z.inj_xO, Z.pow_1_r. lia.
  - rewrite Pos.iter_succ, Pos2Z.inj_xO, IH, Pos2Z.inj_succ, Z.pow_succ_r by lia. lia.
Qed.

Lemma digits2_pos_size p : digits2_pos p = Pos.size p.
Proof. induction p as [p IH | p IH |]; cbn; rewrite ?IH; reflexivity. Qed.

Lemma digits2_pos_bounds p k :
  2 ^ (k - 1) <= Zpos p < 2 ^ k -> 1 <= k -> Zpos (digits2_pos p) = k.
Proof.
  intros Hp Hk. rewrite digits2_pos_size.
  pose proof (Pos.size_gt p) as Hgt. pose proof (Pos.size_le p) as Hle.
  apply Pos2Z.pos_lt_pos in Hgt. apply Pos2Z.pos_le_pos in Hle.
  rewrite Pos2Z.inj_pow in Hgt, Hle.
  change (Z.pos 2) with 2 in Hgt, Hle. change (2 * 1) with 2 in Hle.
  assert (Hp2 : Z.pos p~0 = 2 * Z.pos p) by reflexivity. rewrite Hp2 in Hle.
  set (n := Zpos (Pos.size p)) in *. assert (Hn : 1 <= n) by (subst n; lia).
  destruct (Z.lt_trichotomy n k) as [Hlt | [Heq | Hlt]]; [|exact Heq|].
  - exfalso. assert (2 ^ n <= 2 ^ (k - 1)) by (apply Z.pow_le_mono_r; lia). lia.
  - exfalso. assert (2 ^ k <= 2 ^ (n - 1)) by (apply Z.pow_le_mono_r; lia).
    assert (2 ^ n = 2 * 2 ^ (n - 1)).
    { replace n with (n - 1 + 1) at 1 by lia. rewrite Z.pow_add_r by lia. lia. }
    lia.
Qed.

(** Adding 360 to a negative number of magnitude at most 2^-16 rounds back
    to 360 (the spacing of binary32 just below 360 is 2^-15). *)
Lemma add_360_tiny_negative m e :
  e <= -17 -> Zpos m <= 2 ^ (-16 - e) ->
  F32.add (S754_finite true m e) (S754_finite false 11796480 (-15))
  = S754_finite false 11796480 (-15).
Proof.
  intros He Hm. unfold F32.add, SFadd.
  rewrite Z.min_l by lia.
  unfold shl_align at 1. rewrite Z.sub_diag. cbn [fst].
  unfold shl_align. 
  destruct (e - -15) as [|dp|dp] eqn:Ed; try lia.
  cbn [fst cond_Zopp].
  rewrite iter_xO_pow2.
  assert (Hd : Zpos dp = -15 - e) by lia.
  assert (Hd2 : 2 <= Zpos dp) by lia.
  assert (Hhalf : 2 ^ Zpos dp = 2 * 2 ^ (-16 - e)).
  { replace (Zpos dp) with (-16 - e + 1) by lia. rewrite Z.pow_add_r by lia. lia. }
  assert (Hq : 0 < 2 ^ (-16 - e)) by (apply Z.pow_pos_nonneg; lia).
  set (Q := 2 ^ (-16 - e)) in *.
  set (N := - Zpos m + 11796480 * 2 ^ Zpos dp).
  assert (HN : 11796479 * (2 * Q) + Q <= N < 11796480 * (2 * Q)) by (subst N; lia).
  assert (Hpow23 : 2 ^ (24 + Zpos dp - 1) = 8388608 * (2 * Q)).
  { replace (24 + Zpos dp - 1) with (23 + Zpos dp) by lia.
    rewrite Z.pow_add_r by lia. rewrite Hhalf. reflexivity. }
  assert (Hpow24 : 2 ^ (24 + Zpos dp) = 16777216 * (2 * Q)).
  { rewrite Z.pow_add_r by lia. rewrite Hhalf. reflexivity. }
  clearbody N. destruct N as [|n|n]; try lia.
  cbn [binary_normalize]. unfold binary_round.
  assert (Hdig : Zpos (digits2_pos n) = 24 + Zpos dp)
    by (apply digits2_pos_bounds; lia).
  rewrite Hdig.
  assert (Hfexp : fexp F32.prec F32.emax (24 + Zpos dp + e) = -15).
  { replace (24 + Zpos dp + e) with 9 by lia. reflexivity. }
  rewrite Hfexp. unfold shl_align.
  assert (Hsh : -15 - e = Zpos dp) by lia. rewrite Hsh.
  unfold binary_round_aux, shr_fexp at 1.
  cbn [Zdigits2]. rewrite Hdig, Hfexp, Hsh.
  cbn [shr shr_record_of_loc].
  pose proof (iter_pos_shifted (Zpos n) dp 0 (Build_shr_record (Zpos n) false false))
    as Hshift.
  destruct Hshift as (Hm0 & rest & Hrest & Heq & Hs & Hlt); [lia| |].
  { split; [cbn; lia|]. exists 0. cbn [shr_m shr_r shr_s].
    repeat split; try lia; try discriminate. }
  destruct (iter_pos shr_1 dp (Build_shr_record (Zpos n) false false)) as [m' r' s'].
  cbn [shr_m shr_r shr_s] in *.
  replace (0 + Zpos dp - 1) with (-16 - e) in Heq, Hlt by lia.
  replace (0 + Zpos dp) with (Zpos dp) in Heq by lia.
  rewrite Hhalf in Heq. fold Q in Heq, Hlt.
  destruct Hlt as [Hlt | (Hz & _)]; [|lia].
  assert (Hm' : m' = 11796479) by (destruct r'; nia).
  assert (Hr' : r' = true) by (destruct r'; [reflexivity | nia]).
  subst m' r'.
  replace (e + Zpos dp) with (-15) by lia.
  destruct s'; reflexivity.
Qed.

(** X23. [wrap_360] does not always land below 360: for every negative
    argument of magnitude at most 2^-16 (every negative subnormal, and any
    [m * 2^e] with [e <= -17] and [m <= 2^(-16 - e)]), the second loop adds
    360 once and the sum rounds to 360.0 itself, which is returned; wrapping
    that result again gives 0. *)
Theorem wrap_360_returns_360 m e n :
  e <= -17 -> Zpos m <= 2 ^ (-16 - e) ->
  wrap_360 (S (S n)) (S754_finite true m e) = Some (F32.of_Z 360)
  /\ wrap_360 (S (S n)) (F32.of_Z 360) = Some F32.zero.
Proof.
  intros He Hm. split; [|reflexivity].
  unfold wrap_360. cbn [wrap_down wrap_up].
  change (geb (S754_finite true m e) (F32.of_Z 360)) with false.
  change (F32.ltb (S754_finite true m e) F32.zero) with true.
  cbv iota.
  change (F32.of_Z 360) with (S754_finite false 11796480 (-15)).
  rewrite (add_360_tiny_negative m e He Hm). reflexivity.
Qed.

(** X23, on an input: minus the smallest subnormal, -2^-149. *)
Lemma wrap_360_returns_360_witness :
  wrap_360 2 (S754_finite true 1 (-149)) = Some (F32.of_Z 360)
  /\ wrap_360 2 (F32.of_Z 360) = Some F32.zero.
Proof.
  apply (wrap_360_returns_360 1 (-149) 0); [lia | vm_compute; discriminate].
Defined.

Lemma wrap_down_infinity fuel : wrap_down fuel (S754_infinity false) = None.
Proof.
  induction fuel as [|n IH]; [reflexivity|].
  cbn [wrap_down].
  change (geb (S754_infinity false) (F32.of_Z 360)) with true. cbv iota.
  change (F32.sub (S754_infinity false) (F32.of_Z 360)) with (S754_infinity false).
  exact IH.
Qed.

Lemma wrap_up_infinity fuel : wrap_up fuel (S754_infinity true) = None.
Proof.
  induction fuel as [|n IH]; [reflexivity|].
  cbn [wrap_up].
  change (F32.ltb (S754_infinity true) F32.zero) with true. cbv iota.
  change (F32.add (S754_infinity true) (F32.of_Z 360)) with (S754_infinity true).
  exact IH.
Qed.

Lemma wrap_180_down_infinity fuel : wrap_180_down fuel (S754_infinity false) = None.
Proof.
  induction fuel as [|n IH]; [reflexivity|].
  cbn [wrap_180_down].
  change (gtb (S754_infinity false) (F32.of_Z 180)) with true. cbv iota.
  change (F32.sub (S754_infinity false) (F32.of_Z 360)) with (S754_infinity false).
  exact IH.
Qed.

Lemma wrap_180_up_infinity fuel : wrap_180_up fuel (S754_infinity true) = None.
Proof.
  induction fuel as [|n IH]; [reflexivity|].
  cbn [wrap_180_up].
  change (F32.ltb (S754_infinity true) (F32.opp (F32.of_Z 180))) with true. cbv iota.
  change (F32.add (S754_infinity true) (F32.of_Z 360)) with (S754_infinity true).
  exact IH.
Qed.

(** X29. The loops of [wrap_360] and [wrap_180] never end on an infinite
    angle: subtracting or adding 360 leaves an infinity as it is, so for
    either sign and any number of loop tests allowed the function has not
    returned. *)
Theorem wrap_never_returns_on_infinity (fuel : nat) (negative : bool) :
  wrap_360 fuel (S754_infinity negative) = None
  /\ wrap_180 fuel (S754_infinity negative) = None.
Proof.
  destruct negative.
  - destruct fuel as [|n]; [split; reflexivity|].
    unfold wrap_360, wrap_180. cbn [wrap_down wrap_180_down].
    change (geb (S754_infinity true) (F32.of_Z 360)) with false.
    change (gtb (S754_infinity true) (F32.of_Z 180)) with false. cbv iota.
    split; [apply wrap_up_infinity | apply wrap_180_up_infinity].
  - unfold wrap_360, wrap_180.
    rewrite wrap_down_infinity, wrap_180_down_infinity. split; reflexivity.
Qed.

(** ** IMU samples *)

Lemma raw_sample_range raw i : -32768 <= raw_sample raw i < 32768.
Proof.
  unfold raw_sample, to_int16.
  match goal with |- _ <= ?z mod 65536 - _ < _ =>
    pose proof (Z.mod_pos_bound z 65536) end.
  lia.
Qed.

(** Each of the 65536 sample values divided by either scale. *)
Lemma scaled_sample_bounds v :
  -32768 <= v < 32768 ->
  is_finite (F32.div (F32.of_Z v) ACCEL_SCALE) = true
  /\ F32.leb (F32.abs (F32.div (F32.of_Z v) ACCEL_SCALE)) (F32.of_Z 2) = true
  /\ is_finite (F32.div (F32.of_Z v) GYRO_SCALE) = true
  /\ F32.leb (F32.abs (F32.div (F32.of_Z v) GYRO_SCALE)) (F32.of_Z 251) = true.
Proof.
  intros Hv.
  assert (Hall : all_from
            (fun k => is_finite (F32.div (F32.of_Z k) ACCEL_SCALE)
                      && F32.leb (F32.abs (F32.div (F32.of_Z k) ACCEL_SCALE)) (F32.of_Z 2)
                      && is_finite (F32.div (F32.of_Z k) GYRO_SCALE)
                      && F32.leb (F32.abs (F32.div (F32.of_Z k) GYRO_SCALE)) (F32.of_Z 251))
            (-32768) (Z.to_nat 65536) = true) by (vm_compute; reflexivity).
  pose proof (all_from_spec _ _ _ Hall v) as Hk.
  rewrite !andb_true_iff in Hk. intuition lia.
Qed.

(** X4. Whatever bytes the twelve SPI reads return, [read_imu_data] leaves
    finite accelerations of at most 2 g and finite rates of at most
    251 deg/s in magnitude on every axis, and does not touch the attitude
    estimate. *)
Theorem read_imu_data_bounds raw data :
  let d := read_imu_data raw data in
  Forall (fun x => is_finite x = true /\ F32.leb (F32.abs x) (F32.of_Z 2) = true)
         [vx (accel d); vy (accel d); vz (accel d)]
  /\ Forall (fun x => is_finite x = true /\ F32.leb (F32.abs x) (F32.of_Z 251) = true)
            [vx (gyro d); vy (gyro d); vz (gyro d)]
  /\ angles d = angles data.
Proof.
  cbn zeta. unfold read_imu_data.
  cbn [accel gyro set_accel set_gyro vx vy vz angles].
  split; [|split; [|reflexivity]]; repeat constructor;
    apply (scaled_sample_bounds _ (raw_sample_range raw _)).
Qed.

Lemma int16_bytes_decode v :
  -32768 <= v < 32768 ->
  to_int16 (Z.lor (Z.shiftl (to_uint8 (fst (int16_bytes v))) 8)
                  (to_uint8 (snd (int16_bytes v)))) = v.
Proof.
  intros Hv.
  assert (Hall : all_from
            (fun k => to_int16 (Z.lor (Z.shiftl (to_uint8 (fst (int16_bytes k))) 8)
                                      (to_uint8 (snd (int16_bytes k)))) =? k)
            (-32768) (Z.to_nat 65536) = true) by (vm_compute; reflexivity).
  apply Z.eqb_eq. apply (all_from_spec _ _ _ Hall v). lia.
Qed.

(** X5. Decoding inverts the big-endian framing: from the twelve bytes
    that carry six 16-bit samples, high byte first, [read_imu_data] computes
    each sample divided by its scale (16384 per g, 131 per deg/s). *)
Theorem read_imu_data_decodes ax ay az gx gy gz data :
  Forall (fun v => -32768 <= v < 32768) [ax; ay; az; gx; gy; gz] ->
  let d := read_imu_data (imu_frame [ax; ay; az; gx; gy; gz]) data in
  accel d = {| vx := F32.div (F32.of_Z ax) ACCEL_SCALE;
               vy := F32.div (F32.of_Z ay) ACCEL_SCALE;
               vz := F32.div (F32.of_Z az) ACCEL_SCALE |}
  /\ gyro d = {| vx := F32.div (F32.of_Z gx) GYRO_SCALE;
                 vy := F32.div (F32.of_Z gy) GYRO_SCALE;
                 vz := F32.div (F32.of_Z gz) GYRO_SCALE |}.
Proof.
  intros Hall.
  repeat match goal with H : Forall _ (_ :: _) |- _ =>
    let a := fresh "Hv" in let b := fresh "Hr" in
    apply Forall_cons_iff in H as [a b] end.
  assert (Hs : forall i v, nth_error [ax; ay; az; gx; gy; gz] i = Some v ->
               raw_sample (imu_frame [ax; ay; az; gx; gy; gz]) i = v).
  { intros i v Hi. unfold raw_sample, imu_frame.
    do 6 (destruct i as [|i];
          [apply some_eq in Hi; subst v;
           cbn [flat_map app nth Nat.mul Nat.add];
           apply int16_bytes_decode; assumption|]).
    destruct i; discriminate. }
  cbn zeta. unfold read_imu_data.
  cbn [accel gyro set_accel set_gyro].
  rewrite (Hs 0%nat ax), (Hs 1%nat ay), (Hs 2%nat az), (Hs 3%nat gx),
          (Hs 4%nat gy), (Hs 5%nat gz) by reflexivity.
  split; reflexivity.
Qed.

(** X5, on an input: 1 g on z and -1 deg/s about x. *)
Lemma read_imu_data_decodes_witness :
  let d := read_imu_data (imu_frame [0; 0; 16384; -131; 0; 0]) (imu control_system_init) in
  accel d = {| vx := F32.div (F32.of_Z 0) ACCEL_SCALE;
               vy := F32.div (F32.of_Z 0) ACCEL_SCALE;
               vz := F32.div (F32.of_Z 16384) ACCEL_SCALE |}
  /\ gyro d = {| vx := F32.div (F32.of_Z (-131)) GYRO_SCALE;
                 vy := F32.div (F32.of_Z 0) GYRO_SCALE;
                 vz := F32.div (F32.of_Z 0) GYRO_SCALE |}.
Proof.
  apply (read_imu_data_decodes 0 0 16384 (-131) 0 0 (imu control_system_init)).
  repeat constructor; lia.
Defined.

(** ** Invariants of the running system *)

Section Invariants.
Context `{FloatCast} `{LibM}.

Lemma control_tick_end fuel raw s s' :
  control_tick fuel raw s = Some s' ->
  exists s0,
    s' = stabilize_and_mix (safety_check s0)
    /\ imu s' = with_imu_angles_of raw s
    /\ gps s' = gps s
    /\ armed (cmd s') = armed (cmd s0) && negb (attitude_unsafe (angles (imu s'))).
Proof.
  intros Ht.
  destruct (control_tick_inv _ _ _ _ Ht) as (s0 & -> & Hn & _).
  destruct Hn as (_ & Hi & Hg & _).
  exists s0. split; [reflexivity|].
  destruct (stabilize_and_mix_frame (safety_check s0)) as (-> & -> & ->).
  destruct (safety_check_frame s0) as (-> & -> & _).
  rewrite safety_check_armed, Hi, Hg. repeat split.
Qed.

Lemma compute_angles_keeps_nan d :
  is_nan (roll (angles d)) || is_nan (pitch (angles d)) = true ->
  is_nan (roll (angles (compute_angles d)))
  || is_nan (pitch (angles (compute_angles d))) = true.
Proof.
  unfold compute_angles. cbn [angles set_angles roll pitch].
  destruct (roll (angles d)) eqn:Er; try (
    destruct (pitch (angles d)) eqn:Ep; try discriminate; intros _;
    apply orb_true_iff; right; reflexivity).
  intros _. reflexivity.
Qed.

Lemma api_step_imu c s : imu (api_step c s) = imu s.
Proof. destruct c; reflexivity. Qed.

Lemma control_tick_keeps_nan fuel raw s s' :
  is_nan (roll (angles (imu s))) || is_nan (pitch (angles (imu s))) = true ->
  control_tick fuel raw s = Some s' ->
  is_nan (roll (angles (imu s'))) || is_nan (pitch (angles (imu s'))) = true.
Proof.
  intros Hs Ht.
  destruct (control_tick_end _ _ _ _ Ht) as (s0 & _ & -> & _).
  unfold with_imu_angles_of. apply compute_angles_keeps_nan.
  unfold read_imu_data. cbn [angles set_accel set_gyro]. exact Hs.
Qed.

(** X6. A NaN in the roll or pitch estimate never goes away: through any
    later iterations and API calls, [arm_motors] included, the estimate
    stays NaN, and every iteration that completes ends disarmed with all
    eight channels at [MOTOR_MIN]. *)
Theorem nan_attitude_grounds evs s s' fuel raw s'' :
  is_nan (roll (angles (imu s))) || is_nan (pitch (angles (imu s))) = true ->
  run evs s = Some s' ->
  control_tick fuel raw s' = Some s'' ->
  is_nan (roll (angles (imu s''))) || is_nan (pitch (angles (imu s''))) = true
  /\ armed (cmd s'') = false
  /\ motors s'' = idle_motors.
Proof.
  intros Hs Hrun Ht.
  assert (Hs' : is_nan (roll (angles (imu s'))) || is_nan (pitch (angles (imu s'))) = true).
  { revert Hs Hrun.
    apply (run_preserves
             (fun x => is_nan (roll (angles (imu x))) || is_nan (pitch (angles (imu x)))
                       = true)).
    - intros f r x x' Hx Hxt. exact (control_tick_keeps_nan _ _ _ _ Hx Hxt).
    - intros c x Hx. rewrite api_step_imu. exact Hx. }
  pose proof (control_tick_keeps_nan _ _ _ _ Hs' Ht) as Hn.
  split; [exact Hn|].
  destruct (control_tick_end _ _ _ _ Ht) as (s0 & Hs'' & _ & _ & Ha).
  assert (Hu : attitude_unsafe (angles (imu s'')) = true).
  { unfold attitude_unsafe. apply orb_true_iff in Hn as [-> | ->];
      rewrite ?orb_true_r; reflexivity. }
  rewrite Hu, andb_false_r in Ha. split; [exact Ha|].
  subst s''. apply idle_mix_frame.
  destruct (stabilize_and_mix_frame (safety_check s0)) as (Hc & _).
  rewrite <- Hc. exact Ha.
Qed.

Lemma api_step_gps_consistent c s :
  gps_consistent (gps s) -> gps_consistent (gps (api_step c s)).
Proof.
  destruct c; cbn [api_step]; try (intros Hg; exact Hg).
  intros _. unfold gps_consistent, update_gps_data. cbn [gps with_gps num_sats fix_valid].
  split; [apply Z.mod_pos_bound; lia | reflexivity].
Qed.

(** X7. The GPS snapshot is consistent in every state the system reaches:
    [fix_valid] holds exactly when the stored (8-bit) satellite count is at
    least 6. Only [update_gps_data] writes the snapshot. *)
Theorem gps_fix_invariant evs s s' :
  gps_consistent (gps s) ->
  run evs s = Some s' ->
  gps_consistent (gps s').
Proof.
  apply (run_preserves (fun x => gps_consistent (gps x))).
  - intros fuel raw x x' Hx Ht.
    destruct (control_tick_end _ _ _ _ Ht) as (_ & _ & _ & -> & _). exact Hx.
  - intros c x. apply api_step_gps_consistent.
Qed.

Lemma altitude_hold_throttle_range s :
  MOTOR_MIN <= throttle (cmd s) <= MOTOR_MAX ->
  MOTOR_MIN <= throttle (cmd (altitude_hold_controller s)) <= MOTOR_MAX.
Proof.
  intros Hs. unfold altitude_hold_controller.
  destruct (flight_mode (cmd s) <? MODE_ALTITUDE_HOLD); [exact Hs|].
  cbn [cmd with_cmd throttle set_throttle].
  apply constrain_pulse_range. apply Z.mod_pos_bound. lia.
Qed.

Lemma position_hold_throttle fuel s s' :
  position_hold_controller fuel s = Some s' -> throttle (cmd s') = throttle (cmd s).
Proof.
  unfold position_hold_controller.
  destruct ((flight_mode (cmd s) <? MODE_POSITION_HOLD) || negb (fix_valid (gps s))).
  - intros E; apply some_eq in E; subst s'; reflexivity.
  - destruct (get_bearing_deg fuel _ _); [|discriminate].
    intros E; apply some_eq in E; subst s'; reflexivity.
Qed.

Lemma obstacle_avoidance_throttle s :
  throttle (cmd (obstacle_avoidance s)) = throttle (cmd s).
Proof.
  unfold obstacle_avoidance.
  destruct (negb (detected (obstacle s))); [reflexivity|].
  destruct (F32.ltb (distance (obstacle s)) OBSTACLE_DISTANCE); reflexivity.
Qed.

(** X8. [cmd.throttle] stays a valid pulse: if it is in
    [MOTOR_MIN, MOTOR_MAX], as [control_system_init] leaves it, it is so
    after any sequence of iterations and API calls, whatever the sensors
    report and whatever an out-of-range conversion yields. *)
Theorem throttle_invariant evs s s' :
  MOTOR_MIN <= throttle (cmd s) <= MOTOR_MAX ->
  run evs s = Some s' ->
  MOTOR_MIN <= throttle (cmd s') <= MOTOR_MAX.
Proof.
  apply (run_preserves (fun x => MOTOR_MIN <= throttle (cmd x) <= MOTOR_MAX)).
  - apply control_tick_preserves; try (intros; assumption).
    + intros x. apply altitude_hold_throttle_range.
    + intros fuel x x' Hx Hp. rewrite (position_hold_throttle _ _ _ Hp). exact Hx.
    + intros x Hx. rewrite obstacle_avoidance_throttle. exact Hx.
    + intros x Hx. destruct (safety_check_frame x) as (_ & _ & _ & -> & _). exact Hx.
    + intros x Hx. destruct (stabilize_and_mix_frame x) as (-> & _). exact Hx.
  - intros c x Hx. destruct c; exact Hx.
Qed.
End Invariants.

Section MoreInvariants.
Context `{FloatCast} `{LibM}.

Lemma position_hold_tunings fuel s s' :
  position_hold_controller fuel s = Some s' -> all_tunings s' = all_tunings s.
Proof.
  unfold position_hold_controller.
  destruct ((flight_mode (cmd s) <? MODE_POSITION_HOLD) || negb (fix_valid (gps s))).
  - intros E; apply some_eq in E; subst s'; reflexivity.
  - destruct (get_bearing_deg fuel _ _); [|discriminate].
    intros E; apply some_eq in E; subst s'; reflexivity.
Qed.

Lemma control_tick_tunings fuel raw s s' :
  control_tick fuel raw s = Some s' -> all_tunings s' = all_tunings s.
Proof.
  intros Ht.
  apply (control_tick_preserves (fun x => all_tunings x = all_tunings s))
    with (fuel := fuel) (raw := raw) (s := s); try reflexivity; try exact Ht;
    try (intros; assumption).
  - intros x Hx. rewrite <- Hx. unfold altitude_hold_controller.
    destruct (flight_mode (cmd x) <? MODE_ALTITUDE_HOLD); reflexivity.
  - intros f x x' Hx Hp. rewrite (position_hold_tunings _ _ _ Hp). exact Hx.
  - intros x Hx. rewrite <- Hx. unfold obstacle_avoidance.
    destruct (negb (detected (obstacle x))); [reflexivity|].
    destruct (F32.ltb (distance (obstacle x)) OBSTACLE_DISTANCE); reflexivity.
  - intros x Hx. rewrite <- Hx. unfold all_tunings.
    destruct (safety_check_frame x) as (_ & _ & _ & _ & _ & -> & -> & ->).
    unfold safety_check.
    destruct (gtb (F32.abs (roll (angles (imu x)))) MAX_TILT_ANGLE
              || gtb (F32.abs (pitch (angles (imu x)))) MAX_TILT_ANGLE),
             (is_nan (roll (angles (imu x))) || is_nan (pitch (angles (imu x))));
      cbn [cmd with_cmd armed set_armed flight_mode gps];
      (destruct ((MODE_POSITION_HOLD <=? flight_mode (cmd x)) && negb (fix_valid (gps x)));
       reflexivity).
  - intros x Hx. rewrite <- Hx. unfold stabilize_and_mix.
    destruct (negb (armed (cmd x))); reflexivity.
Qed.

(** X9. Nothing retunes a PID at run time: after any sequence of
    iterations and API calls the gains and the integrator limit of each of
    the nine PIDs are those the sequence started with, which from
    [control_system_init] are the constants of the source. *)
Theorem tunings_invariant evs s s' :
  run evs s = Some s' -> all_tunings s' = all_tunings s.
Proof.
  intros Hrun.
  apply (run_preserves (fun x => all_tunings x = all_tunings s))
    with (evs := evs) (s := s); try reflexivity; try exact Hrun.
  - intros f r x x' Hx Ht. rewrite (control_tick_tunings _ _ _ _ Ht). exact Hx.
  - intros c x Hx. rewrite <- Hx. destruct c; reflexivity.
Qed.

Lemma control_tick_mode_equation fuel raw s s' :
  control_tick fuel raw s = Some s' ->
  flight_mode (cmd s') =
    (if (MODE_POSITION_HOLD <=? flight_mode (cmd s)) && negb (fix_valid (gps s))
     then MODE_ALTITUDE_HOLD else flight_mode (cmd s))
  /\ gps s' = gps s.
Proof.
  intros Ht.
  destruct (control_tick_inv _ _ _ _ Ht) as (s0 & -> & Hn & _).
  destruct Hn as (Hm & _ & Hg & _). cbn [with_imu cmd gps] in Hm, Hg.
  destruct (stabilize_and_mix_frame (safety_check s0)) as (-> & _ & ->).
  destruct (safety_check_frame s0) as (_ & -> & _).
  rewrite safety_check_mode, Hm, Hg.
  split; reflexivity.
Qed.

(** X10. The loop changes the flight mode in one way only, the GPS
    demotion: after an iteration that completes, the mode is AltitudeHold if
    it was at or above PositionHold without a valid fix and is unchanged
    otherwise (a landing in ReturnToHome leaves ReturnToHome selected); so a
    mode at or above PositionHold at the end of an iteration always comes
    with a valid fix. *)
Theorem control_tick_flight_mode fuel raw s s' :
  control_tick fuel raw s = Some s' ->
  flight_mode (cmd s') =
    (if (MODE_POSITION_HOLD <=? flight_mode (cmd s)) && negb (fix_valid (gps s))
     then MODE_ALTITUDE_HOLD else flight_mode (cmd s))
  /\ (MODE_POSITION_HOLD <= flight_mode (cmd s') -> fix_valid (gps s') = true).
Proof.
  intros Ht.
  destruct (control_tick_mode_equation _ _ _ _ Ht) as (-> & ->).
  split; [reflexivity|].
  destruct (MODE_POSITION_HOLD <=? flight_mode (cmd s)) eqn:E; cbn [andb].
  - destruct (fix_valid (gps s)); cbn [negb]; [reflexivity|].
    unfold MODE_POSITION_HOLD, MODE_ALTITUDE_HOLD. lia.
  - apply Z.leb_gt in E. lia.
Qed.

(** X11. An iteration that started disarmed, or whose attitude estimate is
    unsafe at its end, completes with the armed flag false and with
    [MOTOR_MIN] on all eight channels, in that same iteration. *)
Theorem disarmed_or_unsafe_idles fuel raw s s' :
  control_tick fuel raw s = Some s' ->
  armed (cmd s) = false \/ attitude_unsafe (angles (imu s')) = true ->
  armed (cmd s') = false /\ all_motors s' = repeat MOTOR_MIN 8.
Proof.
  intros Ht Hcase.
  destruct (control_tick_end _ _ _ _ Ht) as (s0 & Hs' & _ & _ & Ha).
  assert (Hd : armed (cmd s') = false).
  { destruct Hcase as [Hd | Hu].
    - exact (control_tick_keeps_disarmed _ _ _ _ Ht Hd).
    - rewrite Ha, Hu. apply andb_false_r. }
  split; [exact Hd|]. subst s'.
  destruct (stabilize_and_mix_frame (safety_check s0)) as (Hc & _).
  rewrite Hc in Hd. unfold all_motors.
  destruct (idle_mix_frame _ Hd) as (-> & _). reflexivity.
Qed.

Lemma tail_armed s :
  armed (cmd s) = false ->
  armed (cmd (stabilize_and_mix (safety_check (obstacle_avoidance s)))) = false
  /\ motors (stabilize_and_mix (safety_check (obstacle_avoidance s))) = idle_motors.
Proof.
  intros Hd.
  assert (Hs : armed (cmd (safety_check (obstacle_avoidance s))) = false).
  { rewrite safety_check_armed.
    destruct (obstacle_avoidance_frame s) as (_ & ->). rewrite Hd. reflexivity. }
  destruct (stabilize_and_mix_frame (safety_check (obstacle_avoidance s))) as (-> & _).
  split; [exact Hs|]. apply (idle_mix_frame _ Hs).
Qed.

(** X12. Landing: an iteration in ReturnToHome with a valid fix, within
    2 m of home and below 1 m of altitude, ends disarmed with all channels
    at [MOTOR_MIN], still in ReturnToHome; this holds whether or not the
    craft was armed, so arming again in that situation lasts no longer than
    one iteration. *)
Theorem return_to_home_lands fuel raw s s' :
  flight_mode (cmd s) = MODE_RTH ->
  fix_valid (gps s) = true ->
  land_condition s = true ->
  control_tick fuel raw s = Some s' ->
  armed (cmd s') = false
  /\ all_motors s' = repeat MOTOR_MIN 8
  /\ flight_mode (cmd s') = MODE_RTH.
Proof.
  intros Hm Hf Hl Ht.
  assert (Hmode : flight_mode (cmd s') = MODE_RTH).
  { destruct (control_tick_mode_equation _ _ _ _ Ht) as (-> & _).
    rewrite Hf, andb_false_r. exact Hm. }
  cut (armed (cmd s') = false /\ motors s' = idle_motors).
  { intros (Ha & Hmo). unfold all_motors. rewrite Hmo. repeat split; assumption. }
  revert Ht. unfold control_tick, flight_mode_logic.
  set (sa := with_imu (compute_angles (read_imu_data raw (imu s))) s).
  change (flight_mode (cmd sa)) with (flight_mode (cmd s)). rewrite Hm.
  cbn [Z.eqb MODE_RTH MODE_ALTITUDE_HOLD MODE_POSITION_HOLD MODE_AUTO Pos.eqb orb].
  unfold return_to_home_controller.
  change (flight_mode (cmd sa)) with (flight_mode (cmd s)).
  change (fix_valid (gps sa)) with (fix_valid (gps s)).
  change (land_condition sa) with (land_condition s).
  rewrite Hm, Hf, Hl. cbn [Z.eqb MODE_RTH Pos.eqb negb orb].
  set (sb := altitude_hold_controller (with_cmd (set_armed false (cmd sa)) sa)).
  assert (Hb : armed (cmd sb) = false).
  { subst sb. destruct (altitude_hold_frame (with_cmd (set_armed false (cmd sa)) sa))
      as (_ & ->). reflexivity. }
  destruct (MODE_POSITION_HOLD <=? flight_mode (cmd sb)).
  - destruct (position_hold_controller fuel sb) as [sc|] eqn:Hp; [|discriminate].
    intros E; apply some_eq in E; subst s'.
    apply tail_armed. destruct (position_hold_frame _ _ _ Hp) as (_ & ->). exact Hb.
  - intros E; apply some_eq in E; subst s'. apply tail_armed. exact Hb.
Qed.

(** X13. The yaw estimate is the gyro integral alone: after an iteration
    that completes it is the previous yaw plus the z rate of that
    iteration's sample times [DT], whatever the accelerometer reads, the
    math library returns or the flight mode is. *)
Theorem yaw_is_gyro_integral fuel raw s s' :
  control_tick fuel raw s = Some s' ->
  yaw (angles (imu s')) =
  F32.add (yaw (angles (imu s)))
          (F32.mul (F32.div (F32.of_Z (raw_sample raw 5)) GYRO_SCALE) DT).
Proof.
  intros Ht. destruct (control_tick_end _ _ _ _ Ht) as (s0 & _ & -> & _).
  reflexivity.
Qed.

(** X14. In Manual and Stabilize the iteration completes for any fuel and
    runs no navigation controller: throttle, targets, flight mode and the
    six altitude and position PIDs are untouched. *)
Theorem low_modes_skip_navigation fuel raw s :
  flight_mode (cmd s) < MODE_ALTITUDE_HOLD ->
  exists s',
    control_tick fuel raw s = Some s'
    /\ throttle (cmd s') = throttle (cmd s)
    /\ flight_mode (cmd s') = flight_mode (cmd s)
    /\ target_altitude (cmd s') = target_altitude (cmd s)
    /\ target_position (cmd s') = target_position (cmd s)
    /\ altitude_pids s' = altitude_pids s
    /\ position_pids s' = position_pids s.
Proof.
  intros Hm. unfold MODE_ALTITUDE_HOLD in Hm.
  unfold control_tick, flight_mode_logic.
  set (sa := with_imu (compute_angles (read_imu_data raw (imu s))) s).
  change (flight_mode (cmd sa)) with (flight_mode (cmd s)).
  assert (E2 : (flight_mode (cmd s) =? MODE_ALTITUDE_HOLD) = false)
    by (apply Z.eqb_neq; unfold MODE_ALTITUDE_HOLD; lia).
  assert (E3 : (flight_mode (cmd s) =? MODE_POSITION_HOLD) = false)
    by (apply Z.eqb_neq; unfold MODE_POSITION_HOLD; lia).
  assert (E4 : (flight_mode (cmd s) =? MODE_AUTO) = false)
    by (apply Z.eqb_neq; unfold MODE_AUTO; lia).
  assert (E5 : (flight_mode (cmd s) =? MODE_RTH) = false)
    by (apply Z.eqb_neq; unfold MODE_RTH; lia).
  assert (E6 : (MODE_POSITION_HOLD <=? flight_mode (cmd s)) = false)
    by (apply Z.leb_gt; unfold MODE_POSITION_HOLD; lia).
  rewrite E2, E3, E4, E5. cbn [orb].
  change (flight_mode (cmd sa)) with (flight_mode (cmd s)). rewrite E6.
  eexists. split; [reflexivity|].
  set (so := obstacle_avoidance sa).
  assert (Ho : throttle (cmd so) = throttle (cmd s)
               /\ flight_mode (cmd so) = flight_mode (cmd s)
               /\ target_altitude (cmd so) = target_altitude (cmd s)
               /\ target_position (cmd so) = target_position (cmd s)
               /\ altitude_pids so = altitude_pids s
               /\ position_pids so = position_pids s
               /\ gps so = gps s).
  { subst so. unfold obstacle_avoidance.
    destruct (negb (detected (obstacle sa))); [repeat split|].
    destruct (F32.ltb (distance (obstacle sa)) OBSTACLE_DISTANCE); repeat split. }
  destruct Ho as (Ho1 & Ho2 & Ho3 & Ho4 & Ho5 & Ho6 & Ho7).
  destruct (stabilize_and_mix_frame (safety_check so)) as (-> & _).
  rewrite stabilize_and_mix_position_pids, safety_check_position_pids.
  assert (Hs : throttle (cmd (safety_check so)) = throttle (cmd so)
               /\ target_altitude (cmd (safety_check so)) = target_altitude (cmd so)
               /\ target_position (cmd (safety_check so)) = target_position (cmd so)
               /\ altitude_pids (safety_check so) = altitude_pids so
               /\ altitude_pids (stabilize_and_mix (safety_check so))
                  = altitude_pids (safety_check so)).
  { unfold stabilize_and_mix. destruct (negb (armed (cmd (safety_check so)))).
    all: unfold safety_check;
      destruct (gtb (F32.abs (roll (angles (imu so)))) MAX_TILT_ANGLE
                || gtb (F32.abs (pitch (angles (imu so)))) MAX_TILT_ANGLE),
               (is_nan (roll (angles (imu so))) || is_nan (pitch (angles (imu so))));
      cbn [cmd with_cmd armed set_armed flight_mode gps];
      (destruct ((MODE_POSITION_HOLD <=? flight_mode (cmd so))
                 && negb (fix_valid (gps so))); repeat split). }
  destruct Hs as (-> & -> & -> & Hs4 & ->).
  rewrite safety_check_mode, Ho2, E6, Hs4. cbn [andb].
  repeat split; assumption.
Qed.
End MoreInvariants.

(** ** Setpoints and targets *)

Section Setpoints.
Context `{FloatCast} `{LibM}.

Lemma position_hold_targets fuel s s' :
  position_hold_controller fuel s = Some s' ->
  target_position (cmd s') = target_position (cmd s)
  /\ target_altitude (cmd s') = target_altitude (cmd s)
  /\ yaw (setpoint (cmd s')) = yaw (setpoint (cmd s))
  /\ obstacle s' = obstacle s.
Proof.
  unfold position_hold_controller.
  destruct ((flight_mode (cmd s) <? MODE_POSITION_HOLD) || negb (fix_valid (gps s))).
  - intros E; apply some_eq in E; subst s'; repeat split.
  - destruct (get_bearing_deg fuel _ _); [|discriminate].
    intros E; apply some_eq in E; subst s'; repeat split.
Qed.

Lemma altitude_hold_targets s :
  target_position (cmd (altitude_hold_controller s)) = target_position (cmd s)
  /\ target_altitude (cmd (altitude_hold_controller s)) = target_altitude (cmd s)
  /\ setpoint (cmd (altitude_hold_controller s)) = setpoint (cmd s)
  /\ obstacle (altitude_hold_controller s) = obstacle s.
Proof.
  unfold altitude_hold_controller.
  destruct (flight_mode (cmd s) <? MODE_ALTITUDE_HOLD); repeat split.
Qed.

Lemma tail_targets s :
  let s' := stabilize_and_mix (safety_check (obstacle_avoidance s)) in
  target_position (cmd s') = target_position (cmd s)
  /\ target_altitude (cmd s') = target_altitude (cmd s)
  /\ home_position (cmd s') = home_position (cmd s)
  /\ setpoint (cmd s') = setpoint (cmd (obstacle_avoidance s)).
Proof.
  cbn zeta.
  destruct (stabilize_and_mix_frame (safety_check (obstacle_avoidance s))) as (-> & _).
  set (so := obstacle_avoidance s).
  assert (Ho : target_position (cmd so) = target_position (cmd s)
               /\ target_altitude (cmd so) = target_altitude (cmd s)
               /\ home_position (cmd so) = home_position (cmd s)).
  { subst so. unfold obstacle_avoidance.
    destruct (negb (detected (obstacle s))); [repeat split|].
    destruct (F32.ltb (distance (obstacle s)) OBSTACLE_DISTANCE); repeat split. }
  destruct Ho as (<- & <- & <-).
  unfold safety_check.
  destruct (gtb (F32.abs (roll (angles (imu so)))) MAX_TILT_ANGLE
            || gtb (F32.abs (pitch (angles (imu so)))) MAX_TILT_ANGLE),
           (is_nan (roll (angles (imu so))) || is_nan (pitch (angles (imu so))));
    cbn [cmd with_cmd armed set_armed flight_mode gps];
    (destruct ((MODE_POSITION_HOLD <=? flight_mode (cmd so)) && negb (fix_valid (gps so)));
     repeat split).
Qed.

(** X15. In ReturnToHome with a valid fix and no landing, an iteration
    that completes has overwritten the target: [target_position] is the home
    position (the target set through the API is lost), and
    [target_altitude] is 0.5 m within 3 m of home, else 20 m if the craft
    is below 20 m, else what it was. *)
Theorem return_to_home_retargets fuel raw s s' :
  flight_mode (cmd s) = MODE_RTH ->
  fix_valid (gps s) = true ->
  land_condition s = false ->
  control_tick fuel raw s = Some s' ->
  target_position (cmd s') = home_position (cmd s)
  /\ home_position (cmd s') = home_position (cmd s)
  /\ target_altitude (cmd s') =
     (if F32.ltb (get_distance_meters (position (gps s)) (home_position (cmd s)))
                 (F32.of_Z 3)
      then F32.lit 5 10
      else if F32.ltb (altitude (baro s)) RTH_ALTITUDE then RTH_ALTITUDE
           else target_altitude (cmd s)).
Proof.
  intros Hm Hf Hl. unfold control_tick, flight_mode_logic.
  set (sa := with_imu (compute_angles (read_imu_data raw (imu s))) s).
  change (flight_mode (cmd sa)) with (flight_mode (cmd s)). rewrite Hm.
  cbn [Z.eqb MODE_RTH MODE_ALTITUDE_HOLD MODE_POSITION_HOLD MODE_AUTO Pos.eqb orb].
  unfold return_to_home_controller.
  change (flight_mode (cmd sa)) with (flight_mode (cmd s)).
  change (fix_valid (gps sa)) with (fix_valid (gps s)).
  change (land_condition sa) with (land_condition s).
  change (position (gps sa)) with (position (gps s)).
  change (home_position (cmd sa)) with (home_position (cmd s)).
  change (altitude (baro sa)) with (altitude (baro s)).
  rewrite Hm, Hf, Hl. cbn [Z.eqb MODE_RTH Pos.eqb negb orb].
  match goal with |- context [position_hold_controller fuel ?x] => set (s1 := x) end.
  assert (H1 : target_position (cmd s1) = home_position (cmd s)
               /\ home_position (cmd s1) = home_position (cmd s)
               /\ target_altitude (cmd s1) =
                  (if F32.ltb (altitude (baro s)) RTH_ALTITUDE then RTH_ALTITUDE
                   else target_altitude (cmd s))).
  { subst s1. destruct (F32.ltb (altitude (baro s)) RTH_ALTITUDE); repeat split. }
  destruct H1 as (Ht1 & Hh1 & Ha1).
  destruct (position_hold_controller fuel s1) as [s2|] eqn:Hp; [|discriminate].
  destruct (position_hold_targets _ _ _ Hp) as (Ht2 & Ha2 & _).
  destruct (position_hold_frame _ _ _ Hp) as ((_ & _ & _ & _ & Hh2 & _) & _).
  set (dist := get_distance_meters (position (gps s)) (home_position (cmd s))).
  set (s3 := if F32.ltb dist (F32.of_Z 3)
             then with_cmd (set_target_alt (F32.lit 5 10) (cmd s2)) s2 else s2).
  assert (H3 : target_position (cmd s3) = home_position (cmd s)
               /\ home_position (cmd s3) = home_position (cmd s)
               /\ target_altitude (cmd s3) =
                  (if F32.ltb dist (F32.of_Z 3) then F32.lit 5 10
                   else if F32.ltb (altitude (baro s)) RTH_ALTITUDE then RTH_ALTITUDE
                        else target_altitude (cmd s))).
  { subst s3. destruct (F32.ltb dist (F32.of_Z 3));
      cbn [cmd with_cmd target_position home_position target_altitude set_target_alt];
      rewrite ?Ht2, ?Ha2, ?Hh2, ?Ht1, ?Ha1, ?Hh1; repeat split. }
  clearbody s3. destruct H3 as (Ht3 & Hh3 & Ha3).
  destruct (altitude_hold_targets s3) as (Ht4 & Ha4 & _).
  destruct (altitude_hold_frame s3) as ((_ & _ & _ & _ & Hh4 & _) & _).
  set (s4 := altitude_hold_controller s3) in *.
  assert (Hfin : forall x, target_position (cmd x) = target_position (cmd s4) ->
                           target_altitude (cmd x) = target_altitude (cmd s4) ->
                           home_position (cmd x) = home_position (cmd s4) ->
                           Some (stabilize_and_mix (safety_check (obstacle_avoidance x)))
                           = Some s' ->
                           target_position (cmd s') = home_position (cmd s)
                           /\ home_position (cmd s') = home_position (cmd s)
                           /\ target_altitude (cmd s') =
                              (if F32.ltb dist (F32.of_Z 3) then F32.lit 5 10
                               else if F32.ltb (altitude (baro s)) RTH_ALTITUDE
                                    then RTH_ALTITUDE else target_altitude (cmd s))).
  { intros x Hx1 Hx2 Hx3 E. apply some_eq in E. subst s'.
    destruct (tail_targets x) as (-> & -> & -> & _).
    rewrite Hx1, Hx2, Hx3, Ht4, Ha4, Hh4, Ht3, Ha3, Hh3. repeat split. }
  destruct (MODE_POSITION_HOLD <=? flight_mode (cmd s4)).
  - destruct (position_hold_controller fuel s4) as [s5|] eqn:Hp5; [|discriminate].
    destruct (position_hold_targets _ _ _ Hp5) as (Ht5 & Ha5 & _).
    destruct (position_hold_frame _ _ _ Hp5) as ((_ & _ & _ & _ & Hh5 & _) & _).
    apply Hfin; assumption.
  - apply Hfin; reflexivity.
Qed.

(** X16. The obstacle override has the last word on the setpoints: in an
    iteration that completes with an obstacle detected closer than 2 m, the
    roll setpoint at the end is 10 sinf((angle + 90) pi / 180) whatever the
    navigation controllers computed, and the pitch setpoint is not negative
    (no forward command). *)
Theorem obstacle_override_final fuel raw s s' :
  detected (obstacle s) = true ->
  F32.ltb (distance (obstacle s)) OBSTACLE_DISTANCE = true ->
  control_tick fuel raw s = Some s' ->
  roll (setpoint (cmd s')) =
    F32.mul (F32.of_Z 10)
            (sinf (deg_to_rad (F64.of_f32 (F32.add (angle (obstacle s)) (F32.of_Z 90)))))
  /\ F32.ltb (pitch (setpoint (cmd s'))) F32.zero = false.
Proof.
  intros Hd Hnear. rewrite control_tick_stages.
  destruct (navigation_stage fuel raw s) as [sc|] eqn:Hn; [|discriminate].
  assert (Ho : obstacle sc = obstacle s).
  { apply (navigation_stage_preserves (fun x => obstacle x = obstacle s))
      with (fuel := fuel) (raw := raw) (s := s); try reflexivity; try exact Hn;
      try (intros; assumption).
    - intros x Hx. destruct (altitude_hold_targets x) as (_ & _ & _ & ->). exact Hx.
    - intros f x x' Hx Hp. destruct (position_hold_targets _ _ _ Hp) as (_ & _ & _ & ->).
      exact Hx. }
  intros E; apply some_eq in E; subst s'.
  destruct (tail_targets sc) as (_ & _ & _ & ->).
  unfold obstacle_avoidance. rewrite Ho, Hd, Hnear. cbn [negb].
  cbn [cmd with_cmd setpoint set_setpoint roll pitch set_roll].
  split; [reflexivity|].
  destruct (F32.ltb (pitch (setpoint (cmd sc))) F32.zero) eqn:E; [reflexivity | exact E].
Qed.

(** X17. An active pass of [position_hold_controller] leaves roll and
    pitch setpoints that are each NaN or within [-25, 25] degrees, and does
    not touch the yaw setpoint. *)
Theorem position_hold_setpoints fuel s s' :
  MODE_POSITION_HOLD <= flight_mode (cmd s) ->
  fix_valid (gps s) = true ->
  position_hold_controller fuel s = Some s' ->
  Forall (fun r => is_nan r = true
                   \/ (F32.leb (F32.opp (F32.of_Z 25)) r = true
                       /\ F32.leb r (F32.of_Z 25) = true))
         [roll (setpoint (cmd s')); pitch (setpoint (cmd s'))]
  /\ yaw (setpoint (cmd s')) = yaw (setpoint (cmd s)).
Proof.
  intros Hm Hf. unfold position_hold_controller.
  apply Z.ltb_ge in Hm. rewrite Hm, Hf. cbn [orb negb].
  destruct (get_bearing_deg fuel _ _); [|discriminate].
  intros E; apply some_eq in E; subst s'.
  cbn [cmd with_cmd setpoint set_setpoint roll pitch yaw set_roll set_pitch].
  assert (Hc : forall x, let r := constrain_float x (F32.opp (F32.of_Z 25)) (F32.of_Z 25) in
               is_nan r = true
               \/ (F32.leb (F32.opp (F32.of_Z 25)) r = true /\ F32.leb r (F32.of_Z 25) = true)).
  { intros x r. subst r. destruct (is_nan x) eqn:Ex.
    - left. rewrite constrain_float_is_nan by reflexivity. exact Ex.
    - right. apply constrain_float_between; try reflexivity. exact Ex. }
  split; [|reflexivity].
  apply Forall_cons; [apply Hc | apply Forall_cons; [apply Hc | apply Forall_nil]].
Qed.

Lemma control_tick_preserves_yaw_setpoint fuel raw s s' :
  control_tick fuel raw s = Some s' ->
  yaw (setpoint (cmd s')) = yaw (setpoint (cmd s)).
Proof.
  intros Ht.
  apply (control_tick_preserves
           (fun x => yaw (setpoint (cmd x)) = yaw (setpoint (cmd s))))
    with (fuel := fuel) (raw := raw) (s := s); try reflexivity; try exact Ht;
    try (intros; assumption).
  - intros x Hx. destruct (altitude_hold_targets x) as (_ & _ & -> & _). exact Hx.
  - intros f x x' Hx Hp. destruct (position_hold_targets _ _ _ Hp) as (_ & _ & -> & _).
    exact Hx.
  - intros x Hx. rewrite <- Hx. unfold obstacle_avoidance.
    destruct (negb (detected (obstacle x))); [reflexivity|].
    destruct (F32.ltb (distance (obstacle x)) OBSTACLE_DISTANCE); [|reflexivity].
    cbn [cmd with_cmd setpoint set_setpoint yaw set_roll].
    destruct (F32.ltb (pitch (setpoint (cmd x))) F32.zero); reflexivity.
  - intros x Hx. destruct (safety_check_frame x) as (_ & _ & _ & _ & -> & _). exact Hx.
  - intros x Hx. destruct (stabilize_and_mix_frame x) as (-> & _). exact Hx.
Qed.

(** X18. Nothing ever writes the yaw setpoint: no controller and no API
    call assigns [cmd.setpoint.yaw], so through any sequence of iterations
    and API calls it keeps the value it had, which from
    [control_system_init] is zero. *)
Theorem yaw_setpoint_invariant evs s s' :
  run evs s = Some s' -> yaw (setpoint (cmd s')) = yaw (setpoint (cmd s)).
Proof.
  intros Hrun.
  apply (run_preserves (fun x => yaw (setpoint (cmd x)) = yaw (setpoint (cmd s))))
    with (evs := evs) (s := s); try reflexivity; try exact Hrun.
  - intros f r x x' Hx Ht. rewrite (control_tick_preserves_yaw_setpoint _ _ _ _ Ht).
    exact Hx.
  - intros c x Hx. rewrite <- Hx. destruct c; reflexivity.
Qed.
End Setpoints.

(** ** Hardware traffic *)

Section Traffic.
Context `{Hal} `{FloatCast} `{LibM}.

Lemma set_motor_pwm_active k p :
  1 <= k <= 4 -> 0 <= p < 65536 ->
  set_motor_pwm k p = [PwmEnableChannel PWMD1 (k - 1) (PWM_PERCENTAGE_TO_WIDTH PWMD1 p)].
Proof.
  intros Hk Hp. unfold set_motor_pwm, to_uint8, to_uint16.
  rewrite (Z.mod_small k 256), (Z.mod_small p 65536) by lia.
  replace (1 <=? k) with true by (symmetry; apply Z.leb_le; lia).
  replace (k <=? 4) with true by (symmetry; apply Z.leb_le; lia).
  reflexivity.
Qed.

(** The state of [control_iteration] is that of [control_tick]; its traffic
    is fixed by that state. *)
Lemma control_iteration_spec fuel raw s :
  control_iteration fuel raw s =
  match control_tick fuel raw s with
  | Some s' =>
      Some (s', read_imu_traffic ++ [WritePad GPIOE 12 (armed (cmd s'))]
                ++ set_motor_pwm 1 (m1 (motors s')) ++ set_motor_pwm 2 (m2 (motors s'))
                ++ set_motor_pwm 3 (m3 (motors s')) ++ set_motor_pwm 4 (m4 (motors s'))
                ++ [SleepUntilNextPeriod])
  | None => None
  end.
Proof.
  unfold control_iteration, control_tick.
  destruct (flight_mode_logic fuel _) as [sb|]; [|reflexivity].
  match goal with |- match ?x with _ => _ end = _ => destruct x as [sc|] end;
    [|reflexivity].
  destruct (stabilize_and_mix_frame (safety_check (obstacle_avoidance sc))) as (-> & _).
  reflexivity.
Qed.

Lemma iteration_pulses fuel raw s s' evs :
  control_iteration fuel raw s = Some (s', evs) ->
  Forall (fun p => MOTOR_MIN <= p <= MOTOR_MAX)
         [m1 (motors s'); m2 (motors s'); m3 (motors s'); m4 (motors s')].
Proof.
  rewrite control_iteration_spec.
  destruct (control_tick fuel raw s) as [s1|] eqn:Ht; [|discriminate].
  intros E. apply some_eq in E.
  assert (Hs : s1 = s') by (exact (f_equal fst E)). subst s1.
  destruct (control_tick_motors _ _ _ _ Ht) as (Hr & _). exact Hr.
Qed.

(** X19. What an iteration hands to the PWM drivers: exactly four calls,
    on channels 0 to 3 of PWMD1, for the pulses m1 to m4 left by the mixer,
    each within [MOTOR_MIN, MOTOR_MAX]; PWMD4 (channels 5 to 8) is never
    driven by the loop. *)
Theorem iteration_pwm_outputs fuel raw s s' evs :
  control_iteration fuel raw s = Some (s', evs) ->
  Forall (fun p => MOTOR_MIN <= p <= MOTOR_MAX)
         [m1 (motors s'); m2 (motors s'); m3 (motors s'); m4 (motors s')]
  /\ pwm_calls evs =
     [PwmEnableChannel PWMD1 0 (PWM_PERCENTAGE_TO_WIDTH PWMD1 (m1 (motors s')));
      PwmEnableChannel PWMD1 1 (PWM_PERCENTAGE_TO_WIDTH PWMD1 (m2 (motors s')));
      PwmEnableChannel PWMD1 2 (PWM_PERCENTAGE_TO_WIDTH PWMD1 (m3 (motors s')));
      PwmEnableChannel PWMD1 3 (PWM_PERCENTAGE_TO_WIDTH PWMD1 (m4 (motors s')))].
Proof.
  rewrite control_iteration_spec.
  destruct (control_tick fuel raw s) as [s1|] eqn:Ht; [|discriminate].
  intros E. apply some_eq in E.
  assert (Hs : s1 = s') by (exact (f_equal fst E)). subst s1.
  assert (He : evs = snd (s', evs)) by reflexivity. rewrite <- E in He.
  cbn [snd] in He. subst evs. clear E.
  destruct (control_tick_motors _ _ _ _ Ht) as (Hr & _). cbn zeta in Hr.
  split; [exact Hr|].
  pose proof Hr as Hr'.
  apply Forall_cons_iff in Hr' as [Hq1 Hr']. apply Forall_cons_iff in Hr' as [Hq2 Hr'].
  apply Forall_cons_iff in Hr' as [Hq3 Hr']. apply Forall_cons_iff in Hr' as [Hq4 _].
  unfold MOTOR_MIN, MOTOR_MAX in Hq1, Hq2, Hq3, Hq4.
  rewrite !set_motor_pwm_active by lia. reflexivity.
Qed.

(** X20. The rest of an iteration's traffic: the only pad written is the
    arming LED, once, with the armed flag the iteration ends with; the SPI
    bus sees the twelve register reads 0x2D to 0x38 with the read bit set,
    in order, and no write. *)
Theorem iteration_led_and_spi fuel raw s s' evs :
  control_iteration fuel raw s = Some (s', evs) ->
  pad_writes evs = [WritePad GPIOE 12 (armed (cmd s'))]
  /\ spi_sends evs = []
  /\ spi_read_addresses evs =
     [0xAD; 0xAE; 0xAF; 0xB0; 0xB1; 0xB2; 0xB3; 0xB4; 0xB5; 0xB6; 0xB7; 0xB8].
Proof.
  intros Hit. pose proof Hit as Hpwm. apply iteration_pulses in Hpwm.
  revert Hit. rewrite control_iteration_spec.
  destruct (control_tick fuel raw s) as [s1|] eqn:Ht; [|discriminate].
  intros E. apply some_eq in E.
  assert (Hs : s1 = s') by (exact (f_equal fst E)). subst s1.
  assert (He : evs = snd (s', evs)) by reflexivity. rewrite <- E in He.
  cbn [snd] in He. subst evs. clear E.
  apply Forall_cons_iff in Hpwm as [Hq1 Hr']. apply Forall_cons_iff in Hr' as [Hq2 Hr'].
  apply Forall_cons_iff in Hr' as [Hq3 Hr']. apply Forall_cons_iff in Hr' as [Hq4 _].
  unfold MOTOR_MIN, MOTOR_MAX in Hq1, Hq2, Hq3, Hq4.
  rewrite !set_motor_pwm_active by lia. repeat split.
Qed.
End Traffic.

Lemma spi_address_bits r :
  0 <= r < 256 ->
  128 <= to_uint8 (Z.lor r 0x80) < 256
  /\ to_uint8 (Z.lor r 0x80) mod 128 = r mod 128
  /\ to_uint8 (Z.land r 0x7F) = r mod 128.
Proof.
  intros Hr.
  assert (Hall : all_from
            (fun k => (128 <=? to_uint8 (Z.lor k 0x80)) && (to_uint8 (Z.lor k 0x80) <? 256)
                      && (to_uint8 (Z.lor k 0x80) mod 128 =? k mod 128)
                      && (to_uint8 (Z.land k 0x7F) =? k mod 128))
            0 256 = true) by (vm_compute; reflexivity).
  pose proof (all_from_spec _ _ _ Hall r) as Hk.
  rewrite !andb_true_iff, !Z.eqb_eq, Z.leb_le, Z.ltb_lt in Hk.
  assert (Hin : 0 <= r < 0 + Z.of_nat 256) by lia.
  destruct (Hk Hin) as (((H1 & H2) & H3) & H4). repeat split; assumption.
Qed.

(** X21. SPI framing: for every register number, a read sends the low
    seven bits of the register with bit 7 set, followed by a zero byte; a
    write sends them with bit 7 clear, followed by the value as a byte. *)
Theorem spi_framing reg value :
  exists a b d,
    spi_read_register reg = SpiExchange a 0
    /\ 128 <= a < 256 /\ a mod 128 = reg mod 128
    /\ spi_write_register reg value = SpiSend b d
    /\ 0 <= b < 128 /\ b = reg mod 128 /\ d = value mod 256.
Proof.
  pose proof (Z.mod_pos_bound reg 256 ltac:(lia)) as Hr.
  pose proof (Z.mod_pos_bound reg 128 ltac:(lia)) as Hr7.
  destruct (spi_address_bits (reg mod 256) Hr) as ((Ha1 & Ha2) & Ha3 & Ha4).
  assert (Hm : (reg mod 256) mod 128 = reg mod 128).
  { apply Z.mod_mod_divide. exists 2. reflexivity. }
  rewrite Hm in Ha3, Ha4.
  unfold spi_read_register, spi_write_register.
  change (to_uint8 reg) with (reg mod 256).
  exists (to_uint8 (Z.lor (reg mod 256) 0x80)),
         (to_uint8 (Z.land (reg mod 256) 0x7F)), (to_uint8 value).
  rewrite Ha4. repeat split; try reflexivity; try assumption; lia.
Qed.

(** X22. Initialisation and the identity register: if the device does not
    answer 0xEA, [init_imu_icm20948] sends no configuration write; if it
    does, the writes are reset, clock source, gyro range and accelerometer
    range, in that order. Either way [control_system_init] goes on to create
    the control thread. *)
Theorem init_traffic who_am_i :
  spi_sends (control_system_init_traffic who_am_i) =
    (if to_uint8 who_am_i =? 0xEA
     then [SpiSend 0x06 0x80; SpiSend 0x06 0x01; SpiSend 0x01 0x00; SpiSend 0x14 0x00]
     else [])
  /\ spi_read_addresses (control_system_init_traffic who_am_i) = [0x80]
  /\ last (control_system_init_traffic who_am_i) SpiStart = CreateControlThread.
Proof.
  unfold control_system_init_traffic, init_imu_icm20948.
  destruct (to_uint8 who_am_i =? 0xEA); repeat split.
Qed.

(** ** The properties above on concrete inputs *)

(** X6, on an input: a NaN roll estimate, [arm_motors], one iteration. *)
Lemma nan_attitude_grounds_witness :
  exists s'',
    @run zero_cast small_angle_libm [Call ArmMotors] roll_nan = Some (arm_motors roll_nan)
    /\ @control_tick zero_cast small_angle_libm 0 level_raw (arm_motors roll_nan) = Some s''
    /\ is_nan (roll (angles (imu s''))) || is_nan (pitch (angles (imu s''))) = true
    /\ armed (cmd s'') = false
    /\ motors s'' = idle_motors.
Proof.
  eexists. split; [reflexivity|]. split; [reflexivity|].
  apply (@nan_attitude_grounds zero_cast small_angle_libm [Call ArmMotors] roll_nan
           (arm_motors roll_nan) 0%nat level_raw); reflexivity.
Defined.

(** X7, on an input: a GPS update reporting 262 satellites, stored as 6,
    then one iteration. *)
Lemma gps_fix_invariant_witness :
  exists s',
    @run zero_cast small_angle_libm
      [Call (UpdateGps F64.zero F64.zero F32.zero F32.zero F32.zero 262);
       Tick 0 level_raw] control_system_init = Some s'
    /\ gps_consistent (gps s').
Proof.
  eexists. split; [reflexivity|].
  apply (@gps_fix_invariant zero_cast small_angle_libm
           [Call (UpdateGps F64.zero F64.zero F32.zero F32.zero F32.zero 262);
            Tick 0 level_raw] control_system_init);
    [split; [cbn; lia | reflexivity] | reflexivity].
Defined.

(** X8, on an input: the fast climb in AltitudeHold, one iteration. *)
Lemma throttle_invariant_witness :
  exists s',
    @run zero_cast small_angle_libm [Tick 0 level_raw] climbing_fast = Some s'
    /\ MOTOR_MIN <= throttle (cmd s') <= MOTOR_MAX.
Proof.
  eexists. split; [reflexivity|].
  apply (@throttle_invariant zero_cast small_angle_libm [Tick 0 level_raw] climbing_fast);
    [vm_compute; split; intro Hc; discriminate Hc | reflexivity].
Defined.

(** X9, on an input: arming, an iteration in AltitudeHold, a mode change. *)
Lemma tunings_invariant_witness :
  exists s',
    @run zero_cast small_angle_libm
      [Call ArmMotors; Tick 0 level_raw; Call (SetFlightMode MODE_STABILIZE)]
      climbing_fast = Some s'
    /\ all_tunings s' = all_tunings climbing_fast.
Proof.
  eexists. split; [reflexivity|].
  apply (@tunings_invariant zero_cast small_angle_libm
           [Call ArmMotors; Tick 0 level_raw; Call (SetFlightMode MODE_STABILIZE)]
           climbing_fast).
  reflexivity.
Defined.

(** X10, on an input: PositionHold without a fix. *)
Lemma control_tick_flight_mode_witness :
  exists s',
    @control_tick zero_cast small_angle_libm 0 level_raw lost_fix = Some s'
    /\ flight_mode (cmd s') =
       (if (MODE_POSITION_HOLD <=? flight_mode (cmd lost_fix))
           && negb (fix_valid (gps lost_fix))
        then MODE_ALTITUDE_HOLD else flight_mode (cmd lost_fix))
    /\ (MODE_POSITION_HOLD <= flight_mode (cmd s') -> fix_valid (gps s') = true).
Proof.
  eexists. split; [reflexivity|].
  apply (@control_tick_flight_mode zero_cast small_angle_libm 0%nat level_raw lost_fix).
  reflexivity.
Defined.

(** X11, on an input: armed and rolled to 60 degrees. *)
Lemma disarmed_or_unsafe_idles_witness :
  exists s',
    @control_tick zero_cast small_angle_libm 0 level_raw rolled_over = Some s'
    /\ armed (cmd s') = false /\ all_motors s' = repeat MOTOR_MIN 8.
Proof.
  eexists. split; [reflexivity|].
  apply (@disarmed_or_unsafe_idles zero_cast small_angle_libm 0%nat level_raw rolled_over);
    [reflexivity | right; vm_compute; reflexivity].
Defined.

(** X12, on an input: armed on the ground at home in ReturnToHome. *)
Lemma return_to_home_lands_witness :
  exists s',
    @control_tick zero_cast small_angle_libm 1 level_raw landing_at_home = Some s'
    /\ armed (cmd landing_at_home) = true
    /\ armed (cmd s') = false
    /\ all_motors s' = repeat MOTOR_MIN 8
    /\ flight_mode (cmd s') = MODE_RTH.
Proof.
  eexists. split; [vm_compute; reflexivity|]. split; [reflexivity|].
  apply (@return_to_home_lands zero_cast small_angle_libm 1%nat level_raw landing_at_home);
    vm_compute; reflexivity.
Defined.

(** X13, on an input: a z rate of 131 counts, 1 deg/s. *)
Lemma yaw_is_gyro_integral_witness :
  exists s',
    @control_tick zero_cast small_angle_libm 0
      (imu_frame [0; 0; 16384; 0; 0; 131]) control_system_init = Some s'
    /\ yaw (angles (imu s')) = DT.
Proof.
  eexists. split; [reflexivity|].
  rewrite (@yaw_is_gyro_integral zero_cast small_angle_libm 0%nat
             (imu_frame [0; 0; 16384; 0; 0; 131]) control_system_init _ eq_refl).
  vm_compute. reflexivity.
Defined.

(** X14, on an input: Stabilize, as left by [control_system_init]. *)
Lemma low_modes_skip_navigation_witness :
  exists s',
    @control_tick zero_cast small_angle_libm 0 level_raw control_system_init = Some s'
    /\ throttle (cmd s') = throttle (cmd control_system_init)
    /\ flight_mode (cmd s') = flight_mode (cmd control_system_init)
    /\ target_altitude (cmd s') = target_altitude (cmd control_system_init)
    /\ target_position (cmd s') = target_position (cmd control_system_init)
    /\ altitude_pids s' = altitude_pids control_system_init
    /\ position_pids s' = position_pids control_system_init.
Proof.
  apply (@low_modes_skip_navigation zero_cast small_angle_libm 0%nat level_raw
           control_system_init).
  vm_compute. reflexivity.
Defined.

(** X15, on an input: [returning_home], 111 m out at 10 m of altitude. *)
Lemma return_to_home_retargets_witness :
  exists s',
    @control_tick zero_cast small_angle_libm 2 level_raw returning_home = Some s'
    /\ target_position (cmd s') = home_position (cmd returning_home)
    /\ target_altitude (cmd s') = RTH_ALTITUDE.
Proof.
  eexists. split; [vm_compute; reflexivity|].
  destruct (@return_to_home_retargets zero_cast small_angle_libm 2%nat level_raw
              returning_home _ eq_refl eq_refl
              ltac:(vm_compute; reflexivity) ltac:(vm_compute; reflexivity))
    as (Ht & _ & Ha).
  split; [exact Ht|]. rewrite Ha. vm_compute. reflexivity.
Defined.

(** X16, on an input: PositionHold with an obstacle 1.5 m dead ahead. *)
Lemma obstacle_override_final_witness :
  exists s',
    @control_tick zero_cast small_angle_libm 2 level_raw obstacle_ahead = Some s'
    /\ roll (setpoint (cmd s')) =
       F32.mul (F32.of_Z 10)
               (@sinf small_angle_libm
                  (deg_to_rad (F64.of_f32 (F32.add (angle (obstacle obstacle_ahead))
                                                   (F32.of_Z 90)))))
    /\ F32.ltb (pitch (setpoint (cmd s'))) F32.zero = false.
Proof.
  eexists. split; [vm_compute; reflexivity|].
  apply (@obstacle_override_final zero_cast small_angle_libm 2%nat level_raw obstacle_ahead);
    vm_compute; reflexivity.
Defined.

(** X17, on an input: one pass in PositionHold, 111 m from the target. *)
Lemma position_hold_setpoints_witness :
  exists s',
    @position_hold_controller small_angle_libm 2 obstacle_ahead = Some s'
    /\ Forall (fun r => is_nan r = true
                        \/ (F32.leb (F32.opp (F32.of_Z 25)) r = true
                            /\ F32.leb r (F32.of_Z 25) = true))
              [roll (setpoint (cmd s')); pitch (setpoint (cmd s'))]
    /\ yaw (setpoint (cmd s')) = yaw (setpoint (cmd obstacle_ahead)).
Proof.
  eexists. split; [vm_compute; reflexivity|].
  apply (@position_hold_setpoints small_angle_libm 2%nat obstacle_ahead);
    vm_compute; try reflexivity; discriminate.
Defined.

(** X18, on an input: PositionHold with the obstacle, two iterations. *)
Lemma yaw_setpoint_invariant_witness :
  exists s',
    @run zero_cast small_angle_libm [Tick 2 level_raw; Tick 2 level_raw]
      obstacle_ahead = Some s'
    /\ yaw (setpoint (cmd s')) = yaw (setpoint (cmd obstacle_ahead)).
Proof.
  eexists. split; [vm_compute; reflexivity|].
  apply (@yaw_setpoint_invariant zero_cast small_angle_libm
           [Tick 2 level_raw; Tick 2 level_raw] obstacle_ahead).
  vm_compute. reflexivity.
Defined.

(** X19, on an input: the hover state, armed at 1500 us. *)
Lemma iteration_pwm_outputs_witness :
  exists s' evs,
    @control_iteration identity_hal zero_cast small_angle_libm 0 level_raw hovering
      = Some (s', evs)
    /\ pwm_calls evs =
       [PwmEnableChannel PWMD1 0 1500; PwmEnableChannel PWMD1 1 1500;
        PwmEnableChannel PWMD1 2 1500; PwmEnableChannel PWMD1 3 1500].
Proof.
  eexists _, _. split; [vm_compute; reflexivity|].
  destruct (@iteration_pwm_outputs identity_hal zero_cast small_angle_libm 0%nat level_raw
              hovering _ _ ltac:(vm_compute; reflexivity)) as (_ & Hp).
  exact Hp.
Defined.

(** X20, on an input: the same iteration. *)
Lemma iteration_led_and_spi_witness :
  exists s' evs,
    @control_iteration identity_hal zero_cast small_angle_libm 0 level_raw hovering
      = Some (s', evs)
    /\ pad_writes evs = [WritePad GPIOE 12 true]
    /\ spi_sends evs = []
    /\ spi_read_addresses evs =
       [0xAD; 0xAE; 0xAF; 0xB0; 0xB1; 0xB2; 0xB3; 0xB4; 0xB5; 0xB6; 0xB7; 0xB8].
Proof.
  eexists _, _. split; [vm_compute; reflexivity|].
  exact (@iteration_led_and_spi identity_hal zero_cast small_angle_libm 0%nat level_raw
           hovering _ _ ltac:(vm_compute; reflexivity)).
Defined.

(** ** NaN in a PID *)

Lemma SFadd_nan_r prec emax x : SFadd prec emax x S754_nan = S754_nan.
Proof. destruct x; reflexivity. Qed.

Lemma SFmul_nan_r prec emax x : SFmul prec emax x S754_nan = S754_nan.
Proof. destruct x; reflexivity. Qed.

Lemma is_nan_eq x : is_nan x = true -> x = S754_nan.
Proof. destruct x; try discriminate; reflexivity. Qed.

Lemma update_pid_nan_integral p sp measured dt :
  is_nan (integral p) = true ->
  integral (update_pid p sp measured dt) = S754_nan
  /\ output (update_pid p sp measured dt) = S754_nan.
Proof.
  intros Hp. apply is_nan_eq in Hp. unfold update_pid.
  cbn [integral output]. rewrite Hp.
  change (F32.add S754_nan ?x) with S754_nan.
  rewrite constrain_float_nan. unfold F32.mul, F32.add.
  rewrite SFmul_nan_r, SFadd_nan_r. split; reflexivity.
Qed.

Lemma update_pid_nan_input p sp measured dt :
  is_nan sp || is_nan measured = true ->
  integral (update_pid p sp measured dt) = S754_nan.
Proof.
  intros Hin. unfold update_pid. cbn [integral].
  assert (He : F32.sub sp measured = S754_nan).
  { apply orb_true_iff in Hin as [Hs | Hm]; apply is_nan_eq in Hs || apply is_nan_eq in Hm;
      subst; [reflexivity | destruct sp; reflexivity]. }
  rewrite He. change (F32.mul S754_nan dt) with S754_nan.
  unfold F32.add. rewrite SFadd_nan_r. apply constrain_float_nan.
Qed.

(** X24. The clamp of [update_pid] does not stop a NaN: one call with a
    NaN setpoint or measurement leaves a NaN integral, and from a NaN
    integral every later call, whatever its arguments, leaves the integral
    NaN and returns NaN. *)
Theorem pid_nan_is_permanent p sp measured dt calls :
  is_nan sp || is_nan measured = true ->
  let p' := run_updates (update_pid p sp measured dt) calls in
  is_nan (integral p') = true
  /\ (calls <> [] -> is_nan (output p') = true).
Proof.
  intros Hin. cbn zeta.
  pose proof (update_pid_nan_input p sp measured dt Hin) as H0.
  set (q := update_pid p sp measured dt) in *. clearbody q.
  assert (Hq : is_nan (integral q) = true) by (rewrite H0; reflexivity). clear H0.
  revert q Hq. induction calls as [|[[sp' m'] dt'] calls IH]; intros q Hq.
  - split; [exact Hq | intros Hne; contradiction Hne; reflexivity].
  - unfold run_updates. cbn [fold_left].
    destruct (update_pid_nan_integral q sp' m' dt' Hq) as (Hi & Ho).
    assert (Hq' : is_nan (integral (update_pid q sp' m' dt')) = true)
      by (rewrite Hi; reflexivity).
    destruct (IH _ Hq') as (IHi & IHo). split; [exact IHi|].
    intros _. destruct calls as [|c calls'].
    + cbn [fold_left]. rewrite Ho. reflexivity.
    + apply IHo. discriminate.
Qed.

(** X24, on an input: a NaN measurement, then two ordinary calls. *)
Lemma pid_nan_is_permanent_witness :
  let p' := run_updates
              (update_pid (init_pid PID_ALT_KP PID_ALT_KI PID_ALT_KD (F32.of_Z 500))
                          F32.zero S754_nan DT)
              [(F32.zero, F32.zero, DT); (F32.of_Z 1, F32.zero, DT)] in
  is_nan (integral p') = true
  /\ ([(F32.zero, F32.zero, DT); (F32.of_Z 1, F32.zero, DT)] <> [] ->
      is_nan (output p') = true).
Proof.
  apply (pid_nan_is_permanent
           (init_pid PID_ALT_KP PID_ALT_KI PID_ALT_KD (F32.of_Z 500))
           F32.zero S754_nan DT
           [(F32.zero, F32.zero, DT); (F32.of_Z 1, F32.zero, DT)]).
  reflexivity.
Defined.

Lemma update_pid_nan_output p sp measured dt :
  is_nan sp || is_nan measured = true ->
  output (update_pid p sp measured dt) = S754_nan.
Proof.
  intros Hin. unfold update_pid. cbn [output].
  assert (He : F32.sub sp measured = S754_nan).
  { apply orb_true_iff in Hin as [Hs | Hm]; apply is_nan_eq in Hs || apply is_nan_eq in Hm;
      subst; [reflexivity | destruct sp; reflexivity]. }
  rewrite He. unfold F32.mul. rewrite SFmul_nan_r. reflexivity.
Qed.

Lemma altitude_poisoned_ext s s' :
  altitude_pids s' = altitude_pids s -> altitude_poisoned s -> altitude_poisoned s'.
Proof.
  unfold altitude_pids, altitude_poisoned. intros Ha.
  injection Ha as Ha Hv. rewrite Ha, Hv. exact (fun h => h).
Qed.

Section Poisoned.
Context `{FloatCast} `{LibM}.

Lemma position_hold_altitude_pids fuel s s' :
  position_hold_controller fuel s = Some s' -> altitude_pids s' = altitude_pids s.
Proof.
  unfold position_hold_controller.
  destruct ((flight_mode (cmd s) <? MODE_POSITION_HOLD) || negb (fix_valid (gps s))).
  - intros E; apply some_eq in E; subst s'; reflexivity.
  - destruct (get_bearing_deg fuel _ _); [|discriminate].
    intros E; apply some_eq in E; subst s'; reflexivity.
Qed.

Lemma obstacle_avoidance_altitude_pids s :
  altitude_pids (obstacle_avoidance s) = altitude_pids s.
Proof.
  unfold obstacle_avoidance.
  destruct (negb (detected (obstacle s))); [reflexivity|].
  destruct (F32.ltb (distance (obstacle s)) OBSTACLE_DISTANCE); reflexivity.
Qed.

Lemma safety_check_altitude_pids s : altitude_pids (safety_check s) = altitude_pids s.
Proof.
  unfold safety_check.
  destruct (gtb (F32.abs (roll (angles (imu s)))) MAX_TILT_ANGLE
            || gtb (F32.abs (pitch (angles (imu s)))) MAX_TILT_ANGLE),
           (is_nan (roll (angles (imu s))) || is_nan (pitch (angles (imu s))));
    cbn [cmd with_cmd armed set_armed flight_mode gps];
    (destruct ((MODE_POSITION_HOLD <=? flight_mode (cmd s)) && negb (fix_valid (gps s)));
     reflexivity).
Qed.

Lemma stabilize_and_mix_altitude_pids s :
  altitude_pids (stabilize_and_mix s) = altitude_pids s.
Proof. unfold stabilize_and_mix. destruct (negb (armed (cmd s))); reflexivity. Qed.

Lemma tail_altitude_pids s :
  altitude_pids (stabilize_and_mix (safety_check (obstacle_avoidance s))) = altitude_pids s.
Proof.
  rewrite stabilize_and_mix_altitude_pids, safety_check_altitude_pids.
  apply obstacle_avoidance_altitude_pids.
Qed.

(** Both integrals of the altitude cascade are NaN. *)
Lemma altitude_hold_spreads_nan s :
  MODE_ALTITUDE_HOLD <= flight_mode (cmd s) ->
  is_nan (integral (pid_altitude s)) = true
  \/ is_nan (target_altitude (cmd s)) || is_nan (altitude (baro s)) = true ->
  altitude_poisoned (altitude_hold_controller s).
Proof.
  intros Hm Hn. unfold altitude_hold_controller.
  apply Z.ltb_ge in Hm. rewrite Hm.
  unfold altitude_poisoned. cbn [pid_altitude pid_velocity_z with_cmd with_altitude_pids].
  assert (Hpa : integral (update_pid (pid_altitude s) (target_altitude (cmd s))
                            (altitude (baro s)) DT) = S754_nan
                /\ output (update_pid (pid_altitude s) (target_altitude (cmd s))
                            (altitude (baro s)) DT) = S754_nan).
  { destruct Hn as [Hn | Hn].
    - exact (update_pid_nan_integral _ _ _ _ Hn).
    - split; [exact (update_pid_nan_input _ _ _ _ Hn)
             | exact (update_pid_nan_output _ _ _ _ Hn)]. }
  destruct Hpa as (Hi & Ho). rewrite Hi, Ho, constrain_float_nan.
  rewrite update_pid_nan_input by reflexivity. split; reflexivity.
Qed.

Lemma altitude_poisoned_tick fuel raw s s' :
  altitude_poisoned s -> control_tick fuel raw s = Some s' -> altitude_poisoned s'.
Proof.
  apply (control_tick_preserves altitude_poisoned); try (intros; assumption).
  - intros x (Hx & Hv). unfold altitude_hold_controller.
    destruct (flight_mode (cmd x) <? MODE_ALTITUDE_HOLD) eqn:Hm; [split; assumption|].
    apply Z.ltb_ge in Hm.
    pose proof (altitude_hold_spreads_nan x Hm (or_introl Hx)) as Hp.
    unfold altitude_hold_controller in Hp.
    apply Z.ltb_ge in Hm. rewrite Hm in Hp. exact Hp.
  - intros fuel' x x' Hx Hp.
    exact (altitude_poisoned_ext _ _ (position_hold_altitude_pids _ _ _ Hp) Hx).
  - intros x Hx. exact (altitude_poisoned_ext _ _ (obstacle_avoidance_altitude_pids x) Hx).
  - intros x Hx. exact (altitude_poisoned_ext _ _ (safety_check_altitude_pids x) Hx).
  - intros x Hx. exact (altitude_poisoned_ext _ _ (stabilize_and_mix_altitude_pids x) Hx).
Qed.

(** The iteration that reads the NaN. *)
Lemma nan_altitude_tick fuel raw s s' :
  MODE_ALTITUDE_HOLD <= flight_mode (cmd s) <= MODE_RTH ->
  is_nan (altitude (baro s)) = true ->
  control_tick fuel raw s = Some s' ->
  altitude_poisoned s'.
Proof.
  intros Hm Hn. unfold control_tick.
  set (sa := with_imu (compute_angles (read_imu_data raw (imu s))) s).
  destruct (flight_mode_logic fuel sa) as [sb|] eqn:Hb; [|discriminate].
  assert (Hsb : altitude_poisoned sb).
  { revert Hb. unfold flight_mode_logic.
    destruct ((flight_mode (cmd sa) =? MODE_ALTITUDE_HOLD)
              || (flight_mode (cmd sa) =? MODE_POSITION_HOLD)
              || (flight_mode (cmd sa) =? MODE_AUTO)) eqn:Hlow.
    - intros E; apply some_eq in E; subst sb.
      apply altitude_hold_spreads_nan; [exact (proj1 Hm)|].
      right. change (baro sa) with (baro s). rewrite Hn. apply orb_true_r.
    - destruct (flight_mode (cmd sa) =? MODE_RTH) eqn:Hrth.
      + destruct (return_to_home_controller fuel sa) as [sr|] eqn:Hr; [|discriminate].
        intros E; apply some_eq in E; subst sb.
        destruct (return_to_home_frame _ _ _ Hr) as ((Hfm & _ & _ & Hbaro & _) & _).
        apply altitude_hold_spreads_nan.
        * rewrite Hfm. exact (proj1 Hm).
        * right. rewrite Hbaro. change (baro sa) with (baro s). rewrite Hn.
          apply orb_true_r.
      + exfalso. change (flight_mode (cmd sa)) with (flight_mode (cmd s)) in Hlow, Hrth.
        apply orb_false_iff in Hlow as (Hlow & H4).
        apply orb_false_iff in Hlow as (H2 & H3).
        apply Z.eqb_neq in H2, H3, H4, Hrth.
        unfold MODE_ALTITUDE_HOLD, MODE_POSITION_HOLD, MODE_AUTO, MODE_RTH in *. lia. }
  match goal with |- match ?x with _ => _ end = _ -> _ =>
    destruct x as [sc|] eqn:Hc; [|discriminate] end.
  assert (Hsc : altitude_pids sc = altitude_pids sb).
  { destruct (MODE_POSITION_HOLD <=? flight_mode (cmd sb)).
    - exact (position_hold_altitude_pids _ _ _ Hc).
    - apply some_eq in Hc. subst sc. reflexivity. }
  intros E; apply some_eq in E; subst s'.
  pose proof (tail_altitude_pids sc) as Ht. rewrite Hsc in Ht.
  exact (altitude_poisoned_ext _ _ Ht Hsb).
Qed.

(** X25. One NaN barometer altitude is enough to lose the altitude loop
    for good: after an iteration in AltitudeHold, PositionHold, Auto or
    ReturnToHome that sees it, the integrals of [pid_altitude] and
    [pid_velocity_z] are NaN, and they are still NaN after any later
    sequence of iterations and API calls, good readings included; nothing
    re-initialises a PID. *)
Theorem nan_altitude_poisons_cascade fuel raw evs s s1 s' :
  MODE_ALTITUDE_HOLD <= flight_mode (cmd s) <= MODE_RTH ->
  is_nan (altitude (baro s)) = true ->
  control_tick fuel raw s = Some s1 ->
  run evs s1 = Some s' ->
  is_nan (integral (pid_altitude s')) = true
  /\ is_nan (integral (pid_velocity_z s')) = true.
Proof.
  intros Hm Hn Ht.
  pose proof (nan_altitude_tick _ _ _ _ Hm Hn Ht) as H1.
  revert H1. apply (run_preserves altitude_poisoned).
  - exact altitude_poisoned_tick.
  - intros c x Hx. destruct c; exact Hx.
Qed.

(** X26. A mode number above ReturnToHome (6 to 255, which
    [set_flight_mode] accepts) selects no case of the [switch]: an
    iteration that completes has run no altitude controller, so throttle and
    the two altitude PIDs are untouched, while the loop's position hold
    pass still runs when the fix is valid. *)
Theorem undefined_mode_skips_altitude fuel raw s s' :
  MODE_RTH < flight_mode (cmd s) ->
  control_tick fuel raw s = Some s' ->
  throttle (cmd s') = throttle (cmd s)
  /\ altitude_pids s' = altitude_pids s
  /\ (fix_valid (gps s) = true ->
      forall bearing,
        get_bearing_deg fuel (position (gps s)) (target_position (cmd s)) = Some bearing ->
        position_pids s' =
        position_pid_pass
          (error_north (get_distance_meters (position (gps s)) (target_position (cmd s)))
                       bearing)
          (error_east (get_distance_meters (position (gps s)) (target_position (cmd s)))
                      bearing)
          (vel_north (gps s)) (vel_east (gps s)) (position_pids s)).
Proof.
  intros Hm. unfold MODE_RTH in Hm. unfold control_tick, flight_mode_logic.
  set (sa := with_imu (compute_angles (read_imu_data raw (imu s))) s).
  change (flight_mode (cmd sa)) with (flight_mode (cmd s)).
  assert (E2 : (flight_mode (cmd s) =? MODE_ALTITUDE_HOLD) = false)
    by (apply Z.eqb_neq; unfold MODE_ALTITUDE_HOLD; lia).
  assert (E3 : (flight_mode (cmd s) =? MODE_POSITION_HOLD) = false)
    by (apply Z.eqb_neq; unfold MODE_POSITION_HOLD; lia).
  assert (E4 : (flight_mode (cmd s) =? MODE_AUTO) = false)
    by (apply Z.eqb_neq; unfold MODE_AUTO; lia).
  assert (E5 : (flight_mode (cmd s) =? MODE_RTH) = false)
    by (apply Z.eqb_neq; unfold MODE_RTH; lia).
  assert (E6 : (MODE_POSITION_HOLD <=? flight_mode (cmd s)) = true)
    by (apply Z.leb_le; unfold MODE_POSITION_HOLD; lia).
  rewrite E2, E3, E4, E5. cbn [orb].
  change (flight_mode (cmd sa)) with (flight_mode (cmd s)). rewrite E6.
  destruct (position_hold_controller fuel sa) as [sc|] eqn:Hp; [|discriminate].
  intros E; apply some_eq in E; subst s'.
  rewrite tail_altitude_pids, (position_hold_altitude_pids _ _ _ Hp).
  destruct (stabilize_and_mix_frame (safety_check (obstacle_avoidance sc))) as (-> & _).
  destruct (safety_check_frame (obstacle_avoidance sc)) as (_ & _ & _ & -> & _).
  rewrite obstacle_avoidance_throttle, (position_hold_throttle _ _ _ Hp).
  split; [reflexivity|]. split; [reflexivity|].
  intros Hf bearing Hb.
  rewrite stabilize_and_mix_position_pids, safety_check_position_pids,
          obstacle_avoidance_position_pids.
  destruct (position_hold_active fuel sa bearing) as (sc' & Hp' & Hpids & _).
  - apply Z.leb_le. exact E6.
  - exact Hf.
  - exact Hb.
  - rewrite Hp in Hp'. apply some_eq in Hp'. subst sc'. exact Hpids.
Qed.
End Poisoned.

(** X25, on an input: a NaN barometer altitude for one iteration in
    AltitudeHold, then a good reading and another iteration. *)
Lemma nan_altitude_poisons_cascade_witness :
  exists s1 s',
    @control_tick zero_cast small_angle_libm 0 level_raw
      (update_baro_data S754_nan F32.zero climbing_fast) = Some s1
    /\ @run zero_cast small_angle_libm
         [Call (UpdateBaro F32.zero F32.zero); Tick 0 level_raw] s1 = Some s'
    /\ is_nan (integral (pid_altitude s')) = true
    /\ is_nan (integral (pid_velocity_z s')) = true.
Proof.
  eexists _, _.
  split; [vm_compute; reflexivity|]. split; [vm_compute; reflexivity|].
  eapply (@nan_altitude_poisons_cascade zero_cast small_angle_libm 0%nat level_raw
            [Call (UpdateBaro F32.zero F32.zero); Tick 0 level_raw]
            (update_baro_data S754_nan F32.zero climbing_fast));
    [vm_compute; split; intro Hc; discriminate Hc
    | reflexivity
    | vm_compute; reflexivity
    | vm_compute; reflexivity].
Defined.

(** X26, on an input: mode 7 with a fix, 111 m from the target. *)
Lemma undefined_mode_skips_altitude_witness :
  exists s',
    @control_tick zero_cast small_angle_libm 2 level_raw
      (set_flight_mode 7 obstacle_ahead) = Some s'
    /\ throttle (cmd s') = throttle (cmd (set_flight_mode 7 obstacle_ahead))
    /\ altitude_pids s' = altitude_pids (set_flight_mode 7 obstacle_ahead).
Proof.
  eexists. split; [vm_compute; reflexivity|].
  destruct (@undefined_mode_skips_altitude zero_cast small_angle_libm 2%nat level_raw
              (set_flight_mode 7 obstacle_ahead) _
              ltac:(vm_compute; reflexivity) ltac:(vm_compute; reflexivity))
    as (Ht & Ha & _).
  split; [exact Ht | exact Ha].
Defined.

(** ** Position hold and the throttle clamp on inputs *)

(** X27, on an input: PositionHold with a
    fix, 111 m from the target. *)
Lemma position_hold_updates_once_witness :
  exists s',
    @control_tick zero_cast small_angle_libm 2 level_raw obstacle_ahead = Some s'
    /\ let dist := @get_distance_meters small_angle_libm
                     (position (gps obstacle_ahead))
                     (target_position (cmd obstacle_ahead)) in
       position_pids s' =
       position_pid_pass (@error_north small_angle_libm dist (S754_zero true))
                         (@error_east small_angle_libm dist (S754_zero true))
                         (@vel_north small_angle_libm (gps obstacle_ahead))
                         (@vel_east small_angle_libm (gps obstacle_ahead))
                         (position_pids obstacle_ahead).
Proof.
  apply (@position_hold_updates_once zero_cast small_angle_libm 2%nat level_raw
           obstacle_ahead (S754_zero true));
    [left; reflexivity | reflexivity | vm_compute; reflexivity].
Defined.

(** X28, on an input: AltitudeHold on
    target, no climb. *)
Lemma altitude_hold_throttle_clamped_witness :
  throttle (cmd (@altitude_hold_controller zero_cast
                   (set_flight_mode MODE_ALTITUDE_HOLD control_system_init)))
  = Z.max MOTOR_MIN
      (Z.min (1500 + @float_to_int16 zero_cast
                       (output (pid_velocity_z
                                  (@altitude_hold_controller zero_cast
                                     (set_flight_mode MODE_ALTITUDE_HOLD
                                        control_system_init)))))
             MOTOR_MAX).
Proof.
  apply (@altitude_hold_throttle_clamped zero_cast
           (set_flight_mode MODE_ALTITUDE_HOLD control_system_init));
    vm_compute; discriminate.
Defined.
